(** * CO2 charts: the dataset reader and the series derivation of [src/main.py]

    The development embeds the two data-transformation layers of the program:

    - the methods of class [CO2Charts] ([lese_energy], [lese_emissionen],
      [get_available_countries], [_parse_int], [_parse_float]), which turn the
      rows of the two CSV sources into nested dictionaries, and
    - the four chart functions ([plot_co2_emission_per_capita],
      [plot_absolut_co2_emissions], [plot_co2_emission_changes],
      [plot_co2_emission_change_change]), which turn those dictionaries into
      the lines handed to the plotting backend, and [main], which calls them.

    Python dictionaries are finite maps ([gmap]), Python exceptions are the
    [Raise] branch of a small error monad, Python floats are binary64 floats
    and Python integers are [Z].  A Python [str] is represented by the bytes of
    its UTF-8 encoding, on which the bytewise lexicographic order coincides
    with Python's code-point order.  A cell of a CSV row is a [str], or [None]
    when the line stops before its column. *)

From Stdlib Require Import ZArith Ascii.
From Corelib Require Import PrimFloat SpecFloat FloatOps.
From stdpp Require Import gmap strings list sorting.

Local Open Scope Z_scope.

(** ** Python primitives *)

Module Py.

(** The exceptions that the embedded code can meet. *)
Inductive exn : Set :=
| KeyError | IndexError | TypeError | AttributeError | OverflowError
| ValueError | ZeroDivisionError.

Inductive result (A : Type) : Type :=
| Ok (a : A)
| Raise (e : exn).
Global Arguments Ok {A} a.
Global Arguments Raise {A} e.

Global Instance result_ret : MRet result := fun A a => Ok a.
Global Instance result_bind : MBind result := fun A B k m =>
  match m with
  | Ok a => k a
  | Raise e => Raise e
  end.

Definition is_Ok {A} (m : result A) : Prop := exists a, m = Ok a.

(** Python values that flow through the chart arithmetic: [None], an [int]
    or a [float]. *)
Inductive value : Set :=
| VNone
| VInt (n : Z)
| VFloat (f : float).

Definition of_float (o : option float) : value :=
  match o with Some f => VFloat f | None => VNone end.
Definition of_int (o : option Z) : value :=
  match o with Some n => VInt n | None => VNone end.

(** [float(n)] for an [int]: rounding to nearest even, [OverflowError] when
    the integer is beyond the binary64 range. *)
Definition int_to_float (n : Z) : result float :=
  match binary_normalize prec emax n 0 false with
  | S754_infinity _ => Raise OverflowError
  | sf => Ok (SF2Prim sf)
  end.

(** The conversion of a coordinate to a float when an array of floats is made
    of a list: [None] becomes a NaN, an [int] is converted as by [float]. *)
Definition to_float (v : value) : result float :=
  match v with
  | VNone => Ok nan
  | VInt n => int_to_float n
  | VFloat f => Ok f
  end.

(** The binary operators [-] and [*] on numbers: an [int] operand that meets
    a [float] is converted first; [None] has neither operator. *)
Definition arith (fi : Z -> Z -> Z) (ff : float -> float -> float)
    (a b : value) : result value :=
  match a, b with
  | VInt x, VInt y => Ok (VInt (fi x y))
  | VInt x, VFloat g => f ← int_to_float x; Ok (VFloat (ff f g))
  | VFloat f, VInt y => g ← int_to_float y; Ok (VFloat (ff f g))
  | VFloat f, VFloat g => Ok (VFloat (ff f g))
  | _, _ => Raise TypeError
  end.

Definition sub : value -> value -> result value := arith Z.sub PrimFloat.sub.
Definition mul : value -> value -> result value := arith Z.mul PrimFloat.mul.

(** [d[k]] on a dictionary. *)
Definition getitem `{Countable K} {V} (d : gmap K V) (k : K) : result V :=
  match d !! k with
  | Some v => Ok v
  | None => Raise KeyError
  end.

(** [l[i]] on a list, for an index that is not negative. *)
Definition index {A} (l : list A) (i : nat) : result A :=
  match l !! i with
  | Some v => Ok v
  | None => Raise IndexError
  end.

(** [range(1, n)]. *)
Definition range1 (n : nat) : list nat := seq 1 (n - 1).

(** [sorted] on the keys of a dictionary or the elements of a set.  Keys are
    pairwise distinct, so the result is the one ascending arrangement. *)
Definition sorted_int (l : list Z) : list Z := merge_sort Z.le l.
Definition sorted_str (l : list string) : list string := merge_sort String.le l.

(** [sorted] on the elements of a set of cells.  [None] is ordered with
    nothing, not even with itself: every element of a list of two elements or
    more takes part in a comparison, so such a list is sorted only when all
    its elements are strings. *)
Definition sorted_cells (l : list (option string))
    : result (list (option string)) :=
  match mapM id l with
  | Some names => Ok (Some <$> sorted_str names)
  | None => if bool_decide (length l <= 1)%nat then Ok l else Raise TypeError
  end.

(** A list comprehension whose body may raise. *)
Fixpoint comprehension {A B} (f : A -> result B) (l : list A) : result (list B) :=
  match l with
  | [] => Ok []
  | x :: l => y ← f x; ys ← comprehension f l; Ok (y :: ys)
  end.

(** A [for] loop whose body may raise; [s] is the state the body updates. *)
Fixpoint for_each {R S} (body : S -> R -> result S) (l : list R) (s : S)
    : result S :=
  match l with
  | [] => Ok s
  | x :: l => s ← body s x; for_each body l s
  end.

(** [i % n] on a non-negative [i]. *)
Definition mod_ (i n : nat) : result nat :=
  if bool_decide (n = 0%nat) then Raise ZeroDivisionError else Ok (i mod n)%nat.

End Py.

Import Py.

(** ** The rows of the two sources

    [csv.DictReader] yields one dictionary per data line, keyed by the column
    names of the header; a line with fewer cells than the header has columns
    maps the columns it does not reach to [None].  A row is the record of the
    three cells that the program reads from it, each a text (possibly empty)
    or [None]: the sources are files whose header names the three columns. *)

Record energy_row : Set := EnergyRow {
  row_country : option string;      (* row["country"] *)
  row_year : option string;         (* row["year"] *)
  row_population : option string    (* row["population"] *)
}.

Record co2_row : Set := Co2Row {
  row_Entity : option string;       (* row["Entity"] *)
  row_Year : option string;         (* row["Year"] *)
  row_emissions : option string     (* row["Annual CO₂ emissions (per capita)"] *)
}.

(** The rows of lines that reach all three columns. *)
Definition energy_line (country year population : string) : energy_row :=
  EnergyRow (Some country) (Some year) (Some population).
Definition co2_line (Entity Year emissions : string) : co2_row :=
  Co2Row (Some Entity) (Some Year) (Some emissions).

(** A series maps a year to a value or to [None]; a table maps a country to
    its series.  The keys of the emissions table are the requested country
    names; the keys of the population table are the country cells of the rows,
    so [None] can be one of them. *)
Abbreviation series V := (gmap Z (option V)).
Abbreviation table V := (gmap string (gmap Z (option V))).
Abbreviation population_table := (gmap (option string) (gmap Z (option Z))).

(** The [countries] argument of [lese_emissionen]: one country given as a
    [str], or a list of countries. *)
Inductive countries_arg : Set :=
| CountryStr (s : string)
| CountryList (l : list string).

(** ** Class [CO2Charts] *)

Module CO2Charts.
Section Reader.

(** The three builtins applied to text cells: [str.strip], and [int] and
    [float] on a [str], where [None] stands for the [ValueError] that the
    program catches. *)
Variable py_strip : string -> string.
Variable py_int : string -> option Z.
Variable py_float : string -> option float.

(** [int(cell)] under [try: ... except ValueError]: [Ok None] stands for the
    caught [ValueError]; on a missing cell [int(None)] is a [TypeError], which
    is not caught. *)
Definition int_of_cell (cell : option string) : result (option Z) :=
  match cell with
  | Some text => Ok (py_int text)
  | None => Raise TypeError
  end.

(** [None] has no method [strip]. *)
Definition _parse_int (value : option string) : result (option Z) :=
  match value with
  | Some value =>
      let value := py_strip value in
      if bool_decide (value ≠ "") then
        match py_int value with
        | Some n => Ok (Some n)
        | None => Ok None
        end
      else Ok None
  | None => Raise AttributeError
  end.

Definition _parse_float (value : option string) : result (option float) :=
  match value with
  | Some value =>
      let value := py_strip value in
      if bool_decide (value ≠ "") then
        match py_float value with
        | Some f => Ok (Some f)
        | None => Ok None
        end
      else Ok None
  | None => Raise AttributeError
  end.

(** [d[country][year] = v]: the inner dictionary is looked up, then
    updated in place. *)
Definition setitem2 `{Countable K} {V} (d : gmap K (series V)) (country : K)
    (year : Z) (v : option V) : result (gmap K (series V)) :=
  inner ← getitem d country;
  Ok (<[country := <[year := v]> inner]> d).

(** The body of the loop of [lese_energy]. *)
Definition lese_energy_row (bev_dict : population_table) (row : energy_row)
    : result population_table :=
  let country := row_country row in
  year ← int_of_cell (row_year row);
  match year with
  | None => Ok bev_dict
  | Some year =>
      population ← _parse_int (row_population row);
      let bev_dict :=
        if bool_decide (country ∉ dom bev_dict)
        then <[country := ∅]> bev_dict else bev_dict in
      setitem2 bev_dict country year population
  end.

Definition lese_energy (rows : list energy_row) : result population_table :=
  for_each lese_energy_row rows ∅.

Definition as_list (countries : countries_arg) : list string :=
  match countries with
  | CountryStr s => [s]
  | CountryList l => l
  end.

(** [{country: {} for country in countries}]. *)
Definition empty_dict (countries : list string) : table float :=
  foldl (fun d country => <[country := ∅]> d) ∅ countries.

(** The body of the loop of [lese_emissionen].  [country in countries] is a
    test on a list of names: a missing cell, [None], is in no such list. *)
Definition lese_emissionen_row (countries : list string)
    (emissions_dict : table float) (row : co2_row) : result (table float) :=
  match row_Entity row with
  | Some country =>
      if bool_decide (country ∈ countries) then
        year ← int_of_cell (row_Year row);
        match year with
        | None => Ok emissions_dict
        | Some year =>
            emissions ← _parse_float (row_emissions row);
            setitem2 emissions_dict country year emissions
        end
      else Ok emissions_dict
  | None => Ok emissions_dict
  end.

Definition lese_emissionen (countries : countries_arg) (rows : list co2_row)
    : result (table float) :=
  let countries := as_list countries in
  for_each (lese_emissionen_row countries) rows (empty_dict countries).

Definition get_available_countries (rows : list co2_row)
    : result (list (option string)) :=
  let countries : gset (option string) :=
    foldl (fun s row => s ∪ {[ row_Entity row ]}) ∅ rows in
  sorted_cells (elements countries).

End Reader.
End CO2Charts.

(** ** The chart functions

    A figure is the list of the lines drawn on its axes, in drawing order; a
    line holds the coordinates as the program hands them over. *)

Record line : Set := Line {
  line_x : list Z;
  line_y : list value;
  line_label : string;
  line_color : string
}.

Abbreviation figure := (list line).

(** What the program shows on the page. *)
Inductive st_event : Set :=
| StWrite (text country : string)
| StWarning (text : string)
| StPyplot (fig : figure).

(** [sorted(d.keys())]. *)
Definition sorted_keys {V} (d : gmap Z V) : list Z :=
  sorted_int (elements (dom d)).

(** [d.get(year)]: [None] for a missing key. *)
Definition dict_get {V} (inj : option V -> value) (d : series V) (year : Z) : value :=
  match d !! year with
  | Some v => inj v
  | None => VNone
  end.

(** [co2_data[country][year]]. *)
Definition getitem2 (co2_data : table float) (country : string) (year : Z)
    : result value :=
  d ← getitem co2_data country;
  v ← getitem d year;
  Ok (of_float v).

(** [[l[i] - l[i - 1] for i in range(1, len(l))]]. *)
Definition differences (l : list value) : result (list value) :=
  comprehension (fun i =>
    a ← index l i;
    b ← index l (i - 1);
    sub a b) (range1 (length l)).

Definition warnung : string := "Warnung: Keine Daten für".

Section Charts.

(** The test of the plotting backend on a color: whether the text names a
    color. *)
Variable is_color : string -> bool.

(** [ax.plot(x, y, label=label, color=color)].  The backend refuses
    coordinate lists of different lengths and a color that is none
    ([ValueError]), and a coordinate that does not convert to a float
    ([OverflowError], for an [int] beyond the range of floats). *)
Definition ax_plot (ax : figure) (x : list Z) (y : list value)
    (label color : string) : result figure :=
  if bool_decide (length x ≠ length y) then Raise ValueError
  else if negb (is_color color) then Raise ValueError
  else
    _ ← comprehension int_to_float x;
    _ ← comprehension to_float y;
    Ok (ax ++ [Line x y label color]).

Definition plot_co2_emission_per_capita (co2_data : table float)
    (countries_colors : list (string * string)) : result figure :=
  for_each (fun ax '(country, color) =>
    if bool_decide (country ∈ dom co2_data) then
      d ← getitem co2_data country;
      let years := sorted_keys d in
      emissions ← comprehension (getitem2 co2_data country) years;
      ax_plot ax years emissions country color
    else Ok ax) countries_colors [].

Definition plot_absolut_co2_emissions (co2_data : table float)
    (pop_data : population_table) (countries_colors : list (string * string))
    : result figure :=
  for_each (fun ax '(country, color) =>
    if bool_decide (country ∈ dom co2_data)
       && bool_decide (Some country ∈ dom pop_data) then
      dc ← getitem co2_data country;
      dp ← getitem pop_data (Some country);
      let years := sorted_int (elements (dom dc ∩ dom dp)) in
      absolute_emissionen ← for_each (fun acc year =>
        dc ← getitem co2_data country;
        let emissions := dict_get of_float dc year in
        dp ← getitem pop_data (Some country);
        let population := dict_get of_int dp year in
        match emissions, population with
        | VNone, _ | _, VNone => Ok (acc ++ [VNone])
        | _, _ => v ← mul emissions population; Ok (acc ++ [v])
        end) years [];
      ax_plot ax years absolute_emissionen country color
    else Ok ax) countries_colors [].

Definition plot_co2_emission_changes (co2_data : table float)
    (countries_colors : list (string * string))
    : result (figure * list st_event) :=
  for_each (fun '(ax, page) '(country, color) =>
    if bool_decide (country ∈ dom co2_data) then
      d ← getitem co2_data country;
      let years := sorted_keys d in
      emissions ← comprehension (fun year =>
        v ← getitem2 co2_data country year;
        match v with
        | VNone => Ok (VInt 0)
        | _ => getitem2 co2_data country year
        end) years;
      yearly_changes ← differences emissions;
      let change_years := drop 1 years in
      ax ← ax_plot ax change_years yearly_changes country color;
      Ok (ax, page)
    else Ok (ax, page ++ [StWrite warnung country])) countries_colors ([], []).

Definition plot_co2_emission_change_change (co2_data : table float)
    (countries_colors : list (string * string)) : result figure :=
  for_each (fun ax '(country, color) =>
    if bool_decide (country ∈ dom co2_data) then
      d ← getitem co2_data country;
      let years := sorted_keys d in
      emissions ← comprehension (getitem2 co2_data country) years;
      first_alternation ← differences emissions;
      second_alternation ← differences first_alternation;
      let years_second_alternation := drop 2 years in
      ax_plot ax years_second_alternation second_alternation country color
    else Ok ax) countries_colors [].

End Charts.

(** ** [main]: from the selection to the four figures *)

Section Main.

Variable py_strip : string -> string.
Variable py_int : string -> option Z.
Variable py_float : string -> option float.
Variable is_color : string -> bool.

(** The palette of the plotting style, [plt.rcParams['axes.prop_cycle']]. *)
Variable color_palette : list string.

Definition bitte : string := "Bitte wähle mindestens ein Land aus.".

(** [selected_countries] is what the multiselect widget returns, a choice
    among the available countries; the two row lists are the contents of the
    two files. *)
Definition main (selected_countries : list string)
    (co2_rows : list co2_row) (energy_rows : list energy_row)
    : result (list st_event) :=
  available_countries ← CO2Charts.get_available_countries co2_rows;
  if bool_decide (selected_countries = []) then Ok [StWarning bitte]
  else
    countries_colors ← comprehension (fun '(i, country) =>
        k ← mod_ i (length color_palette);
        color ← index color_palette k;
        Ok (country, color))
      (zip (seq 0 (length selected_countries)) selected_countries);
    co2_data ← CO2Charts.lese_emissionen py_strip py_int py_float
                 (CountryList selected_countries) co2_rows;
    pop_data ← CO2Charts.lese_energy py_strip py_int energy_rows;
    fig1 ← plot_co2_emission_per_capita is_color co2_data countries_colors;
    fig2 ← plot_absolut_co2_emissions is_color co2_data pop_data countries_colors;
    '(fig3, written) ← plot_co2_emission_changes is_color co2_data countries_colors;
    fig4 ← plot_co2_emission_change_change is_color co2_data countries_colors;
    Ok ([StPyplot fig1; StPyplot fig2] ++ written ++ [StPyplot fig3; StPyplot fig4]).

End Main.

(** ** The text builtins on ASCII cells

    Executable counterparts of [str.strip], [int] and [float] for cells made
    of ASCII characters, used to run the reader on concrete files. *)

Module PyText.

Definition is_space (c : ascii) : bool :=
  let n := nat_of_ascii c in
  ((9 <=? n)%nat && (n <=? 13)%nat) || ((28 <=? n)%nat && (n <=? 32)%nat).

Fixpoint lstrip (l : list ascii) : list ascii :=
  match l with
  | c :: l' => if is_space c then lstrip l' else l
  | [] => []
  end.

Definition strip_list (l : list ascii) : list ascii :=
  rev (lstrip (rev (lstrip l))).

Definition strip (s : string) : string :=
  String.string_of_list_ascii (strip_list (String.list_ascii_of_string s)).

Definition digit (c : ascii) : option Z :=
  let n := Z.of_nat (nat_of_ascii c) in
  if (48 <=? n) && (n <=? 57) then Some (n - 48) else None.

(** The rest of a run of digits in which single underscores may separate
    digits. *)
Fixpoint digits_rest (l : list ascii) : list Z * list ascii :=
  match l with
  | [] => ([], [])
  | c :: l' =>
      match digit c with
      | Some d => let '(ds, r) := digits_rest l' in (d :: ds, r)
      | None =>
          if bool_decide (c = "_"%char) then
            match l' with
            | c' :: l'' =>
                match digit c' with
                | Some d => let '(ds, r) := digits_rest l'' in (d :: ds, r)
                | None => ([], l)
                end
            | [] => ([], l)
            end
          else ([], l)
      end
  end.

Definition digitpart (l : list ascii) : option (list Z * list ascii) :=
  match l with
  | c :: l' =>
      match digit c with
      | Some d => let '(ds, r) := digits_rest l' in Some (d :: ds, r)
      | None => None
      end
  | [] => None
  end.

Definition decimal (ds : list Z) : Z := foldl (fun n d => 10 * n + d) 0 ds.

Definition sign (l : list ascii) : bool * list ascii :=
  match l with
  | "-"%char :: r => (true, r)
  | "+"%char :: r => (false, r)
  | _ => (false, l)
  end.

Definition int (s : string) : option Z :=
  let '(neg, l) := sign (strip_list (String.list_ascii_of_string s)) in
  match digitpart l with
  | Some (ds, []) => Some (if neg then - decimal ds else decimal ds)
  | _ => None
  end.

(** The binary64 float nearest to [m * 10 ^ e], ties to even. *)
Definition of_decimal (neg : bool) (m : positive) (e : Z) : PrimFloat.float :=
  let sf :=
    if 0 <=? e then binary_round prec emax neg (m * Z.to_pos (10 ^ e))%positive 0
    else
      let d := 10 ^ (- e) in
      let k := Z.max 0 (prec + 2 + Z.log2 d - Z.log2 (Zpos m)) in
      let n := Zpos m * 2 ^ k in
      let q := n / d in
      let r := n mod d in
      let loc := if r =? 0 then loc_Exact else loc_Inexact (2 * r ?= d) in
      binary_round_aux prec emax neg q (- k) loc in
  SF2Prim sf.

Definition lower (c : ascii) : ascii :=
  let n := nat_of_ascii c in
  if (65 <=? n)%nat && (n <=? 90)%nat then ascii_of_nat (n + 32) else c.

Definition exponent (l : list ascii) : option Z :=
  match l with
  | [] => Some 0
  | c :: r =>
      if bool_decide (lower c = "e"%char) then
        let '(neg, r) := sign r in
        match digitpart r with
        | Some (ds, []) => Some (if neg then - decimal ds else decimal ds)
        | _ => None
        end
      else None
  end.

Definition float (s : string) : option PrimFloat.float :=
  let '(neg, l) := sign (strip_list (String.list_ascii_of_string s)) in
  let word := String.string_of_list_ascii (lower <$> l) in
  if bool_decide (word = "inf" \/ word = "infinity") then
    Some (if neg then neg_infinity else infinity)
  else if bool_decide (word = "nan") then Some nan
  else
    let '(ip, l) :=
      match digitpart l with Some (ds, r) => (ds, r) | None => ([], l) end in
    let '(fp, l) :=
      match l with
      | "."%char :: r =>
          match digitpart r with Some (ds, r') => (ds, r') | None => ([], r) end
      | _ => ([], l)
      end in
    if bool_decide (ip = [] /\ fp = []) then None
    else
      match exponent l with
      | Some e =>
          match decimal (ip ++ fp) with
          | Zpos m => Some (of_decimal neg m (e - Z.of_nat (length fp)))
          | _ => Some (if neg then neg_zero else zero)
          end
      | None => None
      end.

(** The colors of the concrete inputs are references to the color cycle, a
    [C] followed by digits, which the plotting backend accepts;
    [cycle_color] recognises this notation and no other. *)
Definition cycle_color (s : string) : bool :=
  match String.list_ascii_of_string s with
  | "C"%char :: c :: l => forallb (fun c => bool_decide (is_Some (digit c))) (c :: l)
  | _ => false
  end.

End PyText.

(** ** Vocabulary of the statements *)

(** What a row that is read stores: [table[country][year] = v], creating the
    series of the country when it has none yet. *)
Definition write `{Countable K} {V} (d : gmap K (series V))
    (e : K * Z * option V) : gmap K (series V) :=
  let '(country, year, v) := e in
  <[country := <[year := v]> (default ∅ (d !! country))]> d.

(** [table[country][year]] as an optional entry: [None] when the table has no
    entry there, [Some None] for an entry that holds the absent value. *)
Definition entry_at `{Countable K} {V} (d : gmap K (series V)) (country : K)
    (year : Z) : option (option V) :=
  d !! country ≫= fun s => s !! year.

(** The entry that a sequence of writes leaves at a country and a year,
    starting from the entry [o]: the value of the last write there, if any. *)
Definition last_write `{EqDecision K} {V} (country : K) (year : Z)
    (o : option (option V)) (es : list (K * Z * option V))
    : option (option V) :=
  foldl (fun o e => if bool_decide (e.1 = (country, year)) then Some e.2 else o)
    o es.

(** The countries that a [countries] argument asks for. *)
Definition requested (countries : countries_arg) (c : string) : Prop :=
  match countries with
  | CountryStr s => c = s
  | CountryList l => c ∈ l
  end.

Global Instance requested_dec countries c : Decision (requested countries c).
Proof. destruct countries; simpl; apply _. Defined.

(** A row of a country that is asked for. *)
Definition of_requested (countries : countries_arg) (row : co2_row) : Prop :=
  match row_Entity row with
  | Some c => requested countries c
  | None => False
  end.

Global Instance of_requested_dec countries row :
  Decision (of_requested countries row).
Proof. unfold of_requested. destruct (row_Entity row); apply _. Defined.

(** An integer that converts to a float. *)
Definition fits (n : Z) : Prop := is_Ok (int_to_float n).

(** The countries of the selection that are keys of a table, with their colors,
    in selection order. *)
Definition present {V} (d : table V) (countries_colors : list (string * string))
    : list (string * string) :=
  filter (fun p => p.1 ∈ dom d) countries_colors.

(** The countries of the selection that are keys of both tables. *)
Definition present2 {V} (d1 : table V) (d2 : population_table)
    (countries_colors : list (string * string)) : list (string * string) :=
  filter (fun p => p.1 ∈ dom d1 /\ Some p.1 ∈ dom d2) countries_colors.

(** The emissions value of a year as the first-difference chart reads it: the
    absent value becomes the integer [0]. *)
Definition coerced (d : series float) (year : Z) : value :=
  match d !! year with
  | Some (Some f) => VFloat f
  | _ => VInt 0
  end.

(** The values of a series in the order of its sorted years. *)
Definition series_values (d : series float) : list value :=
  dict_get of_float d <$> sorted_keys d.

(** The values the first-difference chart subtracts: a float, or the integer
    [0] that stands in for an absent value. *)
Definition is_number (v : value) : Prop :=
  (exists f, v = VFloat f) \/ v = VInt 0.

(** A value read from an emissions series without coercion. *)
Definition float_or_none (v : value) : Prop :=
  v = VNone \/ exists f, v = VFloat f.

Section Drawing.

Variable is_color : string -> bool.

(** The line that [ax.plot] adds to the axes, when it accepts the
    coordinates and the color. *)
Definition new_line (x : list Z) (y : list value) (label color : string)
    : result line :=
  if bool_decide (length x ≠ length y) then Raise ValueError
  else if negb (is_color color) then Raise ValueError
  else
    _ ← comprehension int_to_float x;
    _ ← comprehension to_float y;
    Ok (Line x y label color).

(** A line that the backend accepts. *)
Definition plottable (ln : line) : Prop :=
  length (line_x ln) = length (line_y ln)
  /\ is_color (line_color ln) = true
  /\ Forall fits (line_x ln)
  /\ Forall (fun v => is_Ok (to_float v)) (line_y ln).

(** A line handed to [ax.plot] again. *)
Definition plot_line (ln : line) : result line :=
  new_line (line_x ln) (line_y ln) (line_label ln) (line_color ln).

(** Lines handed to [ax.plot] one after the other, on axes that are empty at
    first. *)
Definition draw (lines : list line) : result figure :=
  for_each (fun ax ln =>
    ax_plot is_color ax (line_x ln) (line_y ln) (line_label ln) (line_color ln))
    lines [].

(** What each chart function computes for one country of the selection that
    passes its membership test: the body of its loop. *)
Definition per_capita_line (co2_data : table float) (p : string * string)
    : result line :=
  d ← getitem co2_data p.1;
  emissions ← comprehension (getitem2 co2_data p.1) (sorted_keys d);
  new_line (sorted_keys d) emissions p.1 p.2.

Definition absolute_value (co2_data : table float) (pop_data : population_table)
    (country : string) (year : Z) : result value :=
  dc ← getitem co2_data country;
  dp ← getitem pop_data (Some country);
  match dict_get of_float dc year, dict_get of_int dp year with
  | VNone, _ | _, VNone => Ok VNone
  | emissions, population => mul emissions population
  end.

Definition absolute_line (co2_data : table float) (pop_data : population_table)
    (p : string * string) : result line :=
  dc ← getitem co2_data p.1;
  dp ← getitem pop_data (Some p.1);
  let years := sorted_int (elements (dom dc ∩ dom dp)) in
  absolute_emissionen ← comprehension (absolute_value co2_data pop_data p.1) years;
  new_line years absolute_emissionen p.1 p.2.

Definition changes_line (co2_data : table float) (p : string * string)
    : result line :=
  d ← getitem co2_data p.1;
  emissions ← comprehension (fun year =>
    v ← getitem2 co2_data p.1 year;
    match v with
    | VNone => Ok (VInt 0)
    | _ => getitem2 co2_data p.1 year
    end) (sorted_keys d);
  yearly_changes ← differences emissions;
  new_line (drop 1 (sorted_keys d)) yearly_changes p.1 p.2.

Definition change_change_line (co2_data : table float) (p : string * string)
    : result line :=
  d ← getitem co2_data p.1;
  emissions ← comprehension (getitem2 co2_data p.1) (sorted_keys d);
  first_alternation ← differences emissions;
  second_alternation ← differences first_alternation;
  new_line (drop 2 (sorted_keys d)) second_alternation p.1 p.2.

End Drawing.

Module Rows.
Section Entries.

Variable py_strip : string -> string.
Variable py_int : string -> option Z.
Variable py_float : string -> option float.

(** The entry a population row writes, if any. *)
Definition energy_entry (row : energy_row)
    : option (option string * Z * option Z) :=
  match CO2Charts.int_of_cell py_int (row_year row),
        CO2Charts._parse_int py_strip py_int (row_population row) with
  | Ok (Some year), Ok population => Some (row_country row, year, population)
  | _, _ => None
  end.

(** The entry an emissions row writes, if any. *)
Definition emission_entry (countries : list string) (row : co2_row)
    : option (string * Z * option float) :=
  match row_Entity row with
  | Some country =>
      if bool_decide (country ∈ countries) then
        match CO2Charts.int_of_cell py_int (row_Year row),
              CO2Charts._parse_float py_strip py_float (row_emissions row) with
        | Ok (Some year), Ok emissions => Some (country, year, emissions)
        | _, _ => None
        end
      else None
  | None => None
  end.

Definition apply_entry `{Countable K} {V} (d : gmap K (series V))
    (o : option (K * Z * option V)) : gmap K (series V) :=
  match o with Some e => write d e | None => d end.

(** A population row that is read without an exception: the line reaches its
    year cell, and its population cell too when the year is an integer. *)
Definition energy_row_reads (row : energy_row) : Prop :=
  exists cell, row_year row = Some cell
    /\ (is_Some (py_int cell) -> is_Some (row_population row)).

(** The same for an emissions row; the row of a country that is not asked for
    is not looked into. *)
Definition co2_row_reads (countries : countries_arg) (row : co2_row) : Prop :=
  forall c, row_Entity row = Some c -> requested countries c ->
  exists cell, row_Year row = Some cell
    /\ (is_Some (py_int cell) -> is_Some (row_emissions row)).

End Entries.
End Rows.

Import Rows.

(** ** Concrete inputs

    The scenario of the specification: two population rows and two emissions
    rows for Poland, the second emissions cell being empty; the tables they
    are read into; a series with a gap between two values; a population and a
    year beyond the range of floats; lines that stop before a column; and a
    selection of one country. *)

Module Scenario.

Definition energy_rows : list energy_row :=
  [energy_line "Poland" "2019" "38000000"; energy_line "Poland" "2020" "37800000"].

Definition co2_rows : list co2_row :=
  [co2_line "Poland" "2019" "8.5"; co2_line "Poland" "2020" ""].

(** The emissions source of the scenario with a row for Malaysia, so that the
    country listing offers both countries that the page selects at first. *)
Definition co2_rows_listed : list co2_row :=
  co2_rows ++ [co2_line "Malaysia" "2019" "7.9"].

Definition pop_data : population_table :=
  {[ Some "Poland" := {[ 2019 := Some 38000000; 2020 := Some 37800000 ]} ]}.

Definition co2_data : table float :=
  {[ "Poland" := {[ 2019 := Some 8.5%float; 2020 := None ]} ]}.

Definition gap_data : table float :=
  {[ "Poland" := {[ 2019 := Some 8.5%float; 2020 := None; 2021 := Some 7%float ]} ]}.

Definition huge_pop_data : population_table :=
  {[ Some "Poland" := {[ 2019 := Some (10 ^ 400) ]} ]}.

(** Tables with the year [10 ^ 400], which [int] reads from a cell of 401
    digits. *)
Definition huge_year_data : table float :=
  {[ "Poland" := {[ 1 := Some 1%float; 10 ^ 400 := Some 8.5%float ]} ]}.

Definition huge_year_pop_data : population_table :=
  {[ Some "Poland" := {[ 1 := Some 5; 10 ^ 400 := Some 5 ]} ]}.

Definition poland : list (string * string) := [("Poland", "C0")].

(** An emissions source in which the only row of Atlantis has no year, and
    the table read from it for a selection of Atlantis alone. *)
Definition atlantis_rows : list co2_row :=
  [co2_line "Atlantis" "n/a" "1.5"; co2_line "Poland" "2019" "8.5";
   co2_line "Malaysia" "2019" "7.9"].

Definition atlantis_data : table float := {[ "Atlantis" := ∅ ]}.

Definition atlantis : list (string * string) := [("Atlantis", "C0")].

(** A series of three years without absent value. *)
Definition full_data : table float :=
  {[ "Poland" := {[ 2019 := Some 8.5%float; 2020 := Some 8%float;
                    2021 := Some 7%float ]} ]}.

(** Sources with a line that stops after the country, and with a line that
    stops after the year. *)
Definition energy_rows_without_year : list energy_row :=
  [energy_line "Poland" "2019" "38000000"; EnergyRow (Some "Poland") None None].

Definition energy_rows_without_population : list energy_row :=
  [energy_line "Poland" "2019" "38000000";
   EnergyRow (Some "Poland") (Some "2020") None].

Definition co2_rows_without_year : list co2_row :=
  [co2_line "Poland" "2019" "8.5"; Co2Row (Some "Poland") None None].

Definition co2_rows_without_emissions : list co2_row :=
  [co2_line "Poland" "2019" "8.5"; Co2Row (Some "Poland") (Some "2020") None].

End Scenario.

(** ** Facts about the error monad and the loops *)

Section LoopFacts.

Lemma bind_Ok {A B} (m : result A) (k : A -> result B) b :
  m ≫= k = Ok b <-> exists a, m = Ok a /\ k a = Ok b.
Proof.
  destruct m as [a|e]; simpl; split.
  - intros Hk. exists a. auto.
  - intros (a' & Ha & Hk). congruence.
  - discriminate.
  - intros (a' & Ha & _). discriminate.
Qed.

Lemma for_each_app {R S} (body : S -> R -> result S) l1 l2 s :
  for_each body (l1 ++ l2) s = for_each body l1 s ≫= for_each body l2.
Proof.
  revert s. induction l1 as [|x l1 IH]; intros s; simpl; [done|].
  destruct (body s x) as [s'|e]; simpl; [apply IH|done].
Qed.

(** A loop whose body either takes a step or raises, depending on the
    element alone: the loop is a left fold when every element is good, and
    raises otherwise. *)
Lemma for_each_cases {R S} (body : S -> R -> result S) (step : S -> R -> S)
    (good : R -> Prop) (inv : S -> Prop) l s :
  (forall s x, inv s ->
     (good x /\ body s x = Ok (step s x) /\ inv (step s x))
     \/ (~ good x /\ exists e, body s x = Raise e)) ->
  inv s ->
  (Forall good l /\ for_each body l s = Ok (foldl step s l)
   /\ inv (foldl step s l))
  \/ (~ Forall good l /\ exists e, for_each body l s = Raise e).
Proof.
  intros Hbody. revert s. induction l as [|x l IH]; intros s Hs; simpl.
  - left. by repeat split.
  - destruct (Hbody s x Hs) as [(Hx & -> & Hs')|(Hx & e & ->)]; simpl.
    + destruct (IH _ Hs') as [(Hl & -> & Hinv)|(Hl & e & ->)].
      * left. repeat split; [by constructor|done].
      * right. split; [|by exists e]. by intros [_ ?]%Forall_cons.
    + right. split; [|by exists e]. by intros [? _]%Forall_cons.
Qed.

Lemma omap_cons {A B} (f : A -> option B) x l :
  omap f (x :: l) = match f x with Some y => y :: omap f l | None => omap f l end.
Proof. done. Qed.

Lemma comprehension_Ok {A B} (f : A -> result B) l ys :
  comprehension f l = Ok ys <-> Forall2 (fun x y => f x = Ok y) l ys.
Proof.
  revert ys. induction l as [|x l IH]; intros ys; simpl.
  - split; [intros [= <-]; constructor | by inversion 1].
  - split.
    + intros (y & Hy & (ys' & Hys & [= <-])%bind_Ok)%bind_Ok.
      constructor; [done|]. by apply IH.
    + inversion 1 as [|? y ? ys' Hy Hys]; subst.
      rewrite Hy. simpl. apply IH in Hys. by rewrite Hys.
Qed.

Lemma comprehension_fmap {A B} (f : A -> result B) (g : A -> B) l :
  (forall x, x ∈ l -> f x = Ok (g x)) -> comprehension f l = Ok (g <$> l).
Proof.
  intros Hf. apply comprehension_Ok. induction l as [|x l IH]; simpl.
  - constructor.
  - constructor; [apply Hf; left | apply IH; intros y Hy; apply Hf; by right].
Qed.

Lemma comprehension_length {A B} (f : A -> result B) l ys :
  comprehension f l = Ok ys -> length ys = length l.
Proof. intros H%comprehension_Ok. symmetry. by eapply Forall2_length. Qed.

End LoopFacts.

(** ** Facts about [write] *)

Section WriteFacts.
Context `{Countable K} {V : Type}.
Implicit Types (d : gmap K (series V)) (e : K * Z * option V) (c : K)
  (es : list (K * Z * option V)).

Lemma entry_at_write d e c y :
  entry_at (write d e) c y =
    if bool_decide (e.1 = (c, y)) then Some e.2 else entry_at d c y.
Proof.
  destruct e as [[c' y'] v]. unfold entry_at, write. simpl.
  destruct (decide (c' = c)) as [->|Hc].
  - rewrite lookup_insert_eq. simpl.
    destruct (decide (y' = y)) as [->|Hy].
    + rewrite lookup_insert_eq. by rewrite bool_decide_eq_true_2.
    + rewrite lookup_insert_ne by done.
      rewrite bool_decide_eq_false_2 by congruence.
      destruct (d !! c); simpl; [done|apply lookup_empty].
  - rewrite lookup_insert_ne by done.
    by rewrite bool_decide_eq_false_2 by congruence.
Qed.

Lemma dom_write d e : dom (write d e) = {[ e.1.1 ]} ∪ dom d.
Proof. destruct e as [[c y] v]. unfold write. by rewrite dom_insert_L. Qed.

Lemma lookup_write_ne d e c : e.1.1 ≠ c -> write d e !! c = d !! c.
Proof. destruct e as [[c' y] v]. simpl. intros ?. unfold write. by rewrite lookup_insert_ne. Qed.

Lemma dom_foldl_write d es :
  dom (foldl write d es) = dom d ∪ list_to_set es.*1.*1.
Proof.
  revert d. induction es as [|e es IH]; intros d; simpl.
  - set_solver.
  - rewrite IH, dom_write. set_solver.
Qed.

Lemma lookup_foldl_write_ne d es c :
  Forall (fun e => e.1.1 ≠ c) es -> foldl write d es !! c = d !! c.
Proof.
  intros Hes. revert d. induction Hes as [|e es He _ IH]; intros d; simpl; [done|].
  by rewrite IH, lookup_write_ne.
Qed.

Lemma entry_at_foldl_write_ne d es c y :
  Forall (fun e => e.1 ≠ (c, y)) es ->
  entry_at (foldl write d es) c y = entry_at d c y.
Proof.
  intros Hes. revert d. induction Hes as [|e es He _ IH]; intros d; simpl; [done|].
  by rewrite IH, entry_at_write, bool_decide_eq_false_2.
Qed.

(** Last write wins. *)
Lemma entry_at_foldl_write_last d es1 c y v es2 :
  Forall (fun e => e.1 ≠ (c, y)) es2 ->
  entry_at (foldl write d (es1 ++ (c, y, v) :: es2)) c y = Some v.
Proof.
  intros Hes. rewrite foldl_app. cbn [foldl].
  rewrite entry_at_foldl_write_ne by done.
  by rewrite entry_at_write, bool_decide_eq_true_2.
Qed.

Lemma entry_at_Some d c y v :
  entry_at d c y = Some v <-> exists s, d !! c = Some s /\ s !! y = Some v.
Proof.
  unfold entry_at. destruct (d !! c) as [s|]; simpl.
  - split; [eauto|]. by intros (? & [= <-] & ?).
  - split; [done|]. by intros (? & ? & ?).
Qed.

Lemma last_write_cons c y (o : option (option V)) e es :
  last_write c y o (e :: es)
  = last_write c y (if bool_decide (e.1 = (c, y)) then Some e.2 else o) es.
Proof. done. Qed.

Lemma entry_at_foldl_write d es c y :
  entry_at (foldl write d es) c y = last_write c y (entry_at d c y) es.
Proof.
  revert d. induction es as [|e es IH]; intros d; [done|].
  cbn [foldl]. by rewrite IH, entry_at_write, last_write_cons.
Qed.

Lemma last_write_app c y (o : option (option V)) es1 es2 :
  last_write c y o (es1 ++ es2) = last_write c y (last_write c y o es1) es2.
Proof. unfold last_write. by rewrite foldl_app. Qed.

Lemma last_write_default c y (o : option (option V)) es :
  last_write c y o es
  = match last_write c y None es with Some v => Some v | None => o end.
Proof.
  revert o. induction es as [|e es IH] using rev_ind; intros o; [done|].
  rewrite !last_write_app. cbn. case_bool_decide; [done|]. apply IH.
Qed.

Lemma last_write_Some c y (o : option (option V)) es v :
  last_write c y o es = Some v -> (c, y, v) ∈ es \/ o = Some v.
Proof.
  revert o. induction es as [|e es IH]; intros o; [by right|].
  rewrite last_write_cons. intros [Hin|Ho]%IH; [left; by right|].
  case_bool_decide as He; [|by right].
  left. apply elem_of_cons. left. destruct e as [k v']. simpl in *. congruence.
Qed.

Lemma last_write_is_Some c y (o : option (option V)) es :
  is_Some (last_write c y o es) <-> (c, y) ∈ es.*1 \/ is_Some o.
Proof.
  revert o. induction es as [|e es IH]; intros o.
  - cbn. split; [by right|]. intros [[]%elem_of_nil|?]; done.
  - rewrite last_write_cons, IH, fmap_cons, elem_of_cons.
    case_bool_decide as He.
    + split; [|by right]. intros _. left. by left.
    + split; [intros [?|?]; auto|]. intros [[?|?]|?]; [congruence|auto..].
Qed.

Lemma last_write_ne c y (o : option (option V)) es :
  (c, y) ∉ es.*1 -> last_write c y o es = o.
Proof.
  induction es as [|e es IH] in o |- *; [done|].
  rewrite fmap_cons, not_elem_of_cons. intros [Hne Hnin].
  rewrite last_write_cons, bool_decide_eq_false_2 by done. by apply IH.
Qed.

(** With pairwise distinct keys, the entry of a key is the value written
    there, wherever the write stands. *)
Lemma last_write_NoDup c y (o : option (option V)) es v :
  NoDup es.*1 -> (c, y, v) ∈ es -> last_write c y o es = Some v.
Proof.
  intros Hnd (es1 & es2 & ->)%list_elem_of_split.
  rewrite fmap_app, fmap_cons in Hnd.
  apply NoDup_app in Hnd as (_ & _ & [Hnin _]%NoDup_cons).
  rewrite last_write_app, last_write_cons.
  rewrite bool_decide_eq_true_2 by done. by apply last_write_ne.
Qed.

Lemma last_write_perm c y (o : option (option V)) es es' :
  NoDup es.*1 -> es ≡ₚ es' -> last_write c y o es = last_write c y o es'.
Proof.
  intros Hnd Hperm.
  assert (NoDup es'.*1) as Hnd' by by rewrite <- Hperm.
  destruct (decide ((c, y) ∈ es.*1)) as [Hin|Hnin].
  - apply list_elem_of_fmap in Hin as ([k v] & Hk & Hin). simpl in Hk. subst k.
    rewrite (last_write_NoDup c y o es v), (last_write_NoDup c y o es' v);
      [done..|by rewrite <- Hperm|done|done].
  - rewrite !last_write_ne; [done| |done]. by rewrite <- Hperm.
Qed.

(** Two tables with the same keys and the same entries are equal. *)
Lemma table_eq d d' :
  dom d = dom d' -> (forall c y, entry_at d c y = entry_at d' c y) -> d = d'.
Proof.
  intros Hdom Hentry. apply map_eq. intros c.
  destruct (d !! c) as [s|] eqn:Hs.
  - assert (c ∈ dom d') as [s' Hs']%elem_of_dom.
    { rewrite <- Hdom. apply elem_of_dom. by rewrite Hs. }
    rewrite Hs'. f_equal. apply map_eq. intros y.
    specialize (Hentry c y). unfold entry_at in Hentry.
    by rewrite Hs, Hs' in Hentry.
  - symmetry. apply not_elem_of_dom. rewrite <- Hdom. by apply not_elem_of_dom.
Qed.

Lemma foldl_write_perm d es es' :
  NoDup es.*1 -> es ≡ₚ es' -> foldl write d es = foldl write d es'.
Proof.
  intros Hnd Hperm. apply table_eq.
  - rewrite !dom_foldl_write. f_equal. apply set_eq. intros c.
    rewrite !elem_of_list_to_set. by rewrite Hperm.
  - intros c y. rewrite !entry_at_foldl_write. by apply last_write_perm.
Qed.

End WriteFacts.

(** ** The reader as a fold of writes *)

Section ReaderFacts.

Variable py_strip : string -> string.
Variable py_int : string -> option Z.
Variable py_float : string -> option float.

Local Abbreviation int_of_cell := (CO2Charts.int_of_cell py_int).
Local Abbreviation _parse_int := (CO2Charts._parse_int py_strip py_int).
Local Abbreviation _parse_float := (CO2Charts._parse_float py_strip py_float).
Local Abbreviation lese_energy := (CO2Charts.lese_energy py_strip py_int).
Local Abbreviation lese_energy_row := (CO2Charts.lese_energy_row py_strip py_int).
Local Abbreviation lese_emissionen :=
  (CO2Charts.lese_emissionen py_strip py_int py_float).
Local Abbreviation lese_emissionen_row :=
  (CO2Charts.lese_emissionen_row py_strip py_int py_float).
Local Abbreviation energy_entry := (energy_entry py_strip py_int).
Local Abbreviation emission_entry := (emission_entry py_strip py_int py_float).
Local Abbreviation energy_row_reads := (energy_row_reads py_int).
Local Abbreviation co2_row_reads := (co2_row_reads py_int).

Lemma requested_as_list countries c :
  requested countries c <-> c ∈ CO2Charts.as_list countries.
Proof.
  destruct countries as [s|l]; simpl; [|done].
  by rewrite list_elem_of_singleton.
Qed.

Lemma foldl_apply_entry `{Countable K} {V R}
    (f : R -> option (K * Z * option V)) rows (d : gmap K (series V)) :
  foldl (fun d row => apply_entry d (f row)) d rows = foldl write d (omap f rows).
Proof.
  revert d. induction rows as [|row rows IH]; intros d; simpl; [done|].
  rewrite IH. by destruct (f row).
Qed.

(** The parsers on a cell that is a text. *)
Lemma parse_int_text cell : is_Ok (_parse_int (Some cell)).
Proof.
  unfold CO2Charts._parse_int. case_bool_decide; [|by eexists].
  destruct (py_int _); by eexists.
Qed.

Lemma parse_float_text cell : is_Ok (_parse_float (Some cell)).
Proof.
  unfold CO2Charts._parse_float. case_bool_decide; [|by eexists].
  destruct (py_float _); by eexists.
Qed.

Lemma parse_int_absent cell :
  py_strip cell = "" \/ py_int (py_strip cell) = None ->
  _parse_int (Some cell) = Ok None.
Proof.
  unfold CO2Charts._parse_int. intros [->| ->]; [done|]. by case_bool_decide.
Qed.

Lemma parse_float_absent cell :
  py_strip cell = "" \/ py_float (py_strip cell) = None ->
  _parse_float (Some cell) = Ok None.
Proof.
  unfold CO2Charts._parse_float. intros [->| ->]; [done|]. by case_bool_decide.
Qed.

Lemma parse_int_is_Ok cell : is_Ok (_parse_int cell) <-> is_Some cell.
Proof.
  destruct cell as [cell|].
  - split; [by eexists|]. intros _. apply parse_int_text.
  - split; [by intros [? [=]]|by intros [? [=]]].
Qed.

Lemma parse_float_is_Ok cell : is_Ok (_parse_float cell) <-> is_Some cell.
Proof.
  destruct cell as [cell|].
  - split; [by eexists|]. intros _. apply parse_float_text.
  - split; [by intros [? [=]]|by intros [? [=]]].
Qed.

Lemma setitem2_write `{Countable K} {V} (d : gmap K (series V)) c y v s :
  d !! c = Some s -> CO2Charts.setitem2 d c y v = Ok (write d (c, y, v)).
Proof.
  intros Hs. unfold CO2Charts.setitem2, getitem, write. by rewrite Hs.
Qed.

(** What the body of the loop of [lese_energy] does with a row. *)
Lemma lese_energy_row_cases d row :
  (energy_row_reads row
   /\ lese_energy_row d row = Ok (apply_entry d (energy_entry row)))
  \/ (~ energy_row_reads row
      /\ ((row_year row = None /\ lese_energy_row d row = Raise TypeError)
          \/ (int_of_cell (row_year row) ≠ Ok None /\ row_population row = None
              /\ is_Some (row_year row)
              /\ lese_energy_row d row = Raise AttributeError))).
Proof.
  destruct row as [c [cell|] p]; unfold CO2Charts.lese_energy_row,
    Rows.energy_row_reads, Rows.energy_entry; simpl.
  - destruct (py_int cell) as [y|] eqn:Hy; simpl.
    + destruct p as [p|].
      * left. split; [exists cell; by split|].
        destruct (parse_int_text p) as [v ->]. simpl.
        case_bool_decide as Hdom.
        -- rewrite (setitem2_write _ _ _ _ ∅) by by rewrite lookup_insert_eq.
           f_equal. unfold write.
           apply not_elem_of_dom in Hdom. rewrite Hdom, lookup_insert_eq. simpl.
           by rewrite insert_insert_eq.
        -- apply elem_of_dom in Hdom as [s Hs]. by apply (setitem2_write _ _ _ _ s).
      * right. split.
        { intros (cell' & [= <-] & Hp). rewrite Hy in Hp.
          by destruct Hp as [? [=]]. }
        right. split; [done|]. split; [done|]. split; [by eexists|done].
    + left. split; [|done]. exists cell. split; [done|]. rewrite Hy.
      by intros [? [=]].
  - right. split; [by intros (cell' & [=] & _)|]. by left.
Qed.

Lemma lese_energy_cases rows :
  (Forall energy_row_reads rows
   /\ lese_energy rows = Ok (foldl write ∅ (omap energy_entry rows)))
  \/ (~ Forall energy_row_reads rows /\ exists e, lese_energy rows = Raise e).
Proof.
  unfold CO2Charts.lese_energy.
  destruct (for_each_cases lese_energy_row
    (fun d row => apply_entry d (energy_entry row)) energy_row_reads
    (fun _ => True) rows ∅) as [(Hall & Heq & _)|?]; [|done| |by right].
  - intros d row _.
    destruct (lese_energy_row_cases d row)
      as [[? ?]|[? [[_ ?]|(_ & _ & _ & ?)]]]; eauto 6.
  - left. split; [done|]. by rewrite Heq, foldl_apply_entry.
Qed.

Lemma lese_energy_fold rows :
  Forall energy_row_reads rows ->
  lese_energy rows = Ok (foldl write ∅ (omap energy_entry rows)).
Proof. intros Hall. by destruct (lese_energy_cases rows) as [[_ ?]|[? _]]. Qed.

Lemma lese_energy_Ok rows t :
  lese_energy rows = Ok t ->
  Forall energy_row_reads rows /\ t = foldl write ∅ (omap energy_entry rows).
Proof.
  intros Ht. destruct (lese_energy_cases rows) as [[? Heq]|[_ [e He]]];
    [|congruence].
  split; [done|congruence].
Qed.

Lemma dom_empty_dict countries :
  dom (CO2Charts.empty_dict countries) = list_to_set countries.
Proof.
  unfold CO2Charts.empty_dict.
  assert (forall d : table float,
    dom (foldl (fun d country => <[country := ∅]> d) d countries)
    = dom d ∪ list_to_set countries) as H.
  { induction countries as [|c cs IH]; intros d; simpl.
    - set_solver.
    - rewrite IH, dom_insert_L. set_solver. }
  rewrite H. set_solver.
Qed.

Lemma lookup_empty_dict countries c :
  CO2Charts.empty_dict countries !! c = if bool_decide (c ∈ countries) then Some ∅ else None.
Proof.
  unfold CO2Charts.empty_dict.
  assert (forall d : table float,
    foldl (fun d country => <[country := ∅]> d) d countries !! c
    = if bool_decide (c ∈ countries) then Some ∅ else d !! c) as H.
  { induction countries as [|c' cs IH]; intros d; simpl; [done|].
    rewrite IH. case_bool_decide as Hin.
    - rewrite bool_decide_eq_true_2; [done|by right].
    - destruct (decide (c = c')) as [->|Hne].
      + rewrite lookup_insert_eq. rewrite bool_decide_eq_true_2; [done|by left].
      + rewrite lookup_insert_ne by done.
        rewrite bool_decide_eq_false_2; [done|].
        intros [?|?]%elem_of_cons; done. }
  rewrite H. by rewrite lookup_empty.
Qed.

Lemma entry_at_empty_dict cs c y :
  entry_at (CO2Charts.empty_dict cs) c y = None.
Proof.
  unfold entry_at. rewrite lookup_empty_dict. by case_bool_decide.
Qed.

(** What the body of the loop of [lese_emissionen] does with a row. *)
Lemma lese_emissionen_row_cases countries d row :
  (forall c, c ∈ CO2Charts.as_list countries -> c ∈ dom d) ->
  (co2_row_reads countries row
   /\ lese_emissionen_row (CO2Charts.as_list countries) d row
      = Ok (apply_entry d (emission_entry (CO2Charts.as_list countries) row))
   /\ (forall c, c ∈ CO2Charts.as_list countries ->
         c ∈ dom (apply_entry d (emission_entry (CO2Charts.as_list countries) row))))
  \/ (~ co2_row_reads countries row
      /\ (exists c, row_Entity row = Some c /\ requested countries c)
      /\ ((row_Year row = None
           /\ lese_emissionen_row (CO2Charts.as_list countries) d row
              = Raise TypeError)
          \/ (int_of_cell (row_Year row) ≠ Ok None /\ row_emissions row = None
              /\ is_Some (row_Year row)
              /\ lese_emissionen_row (CO2Charts.as_list countries) d row
                 = Raise AttributeError))).
Proof.
  intros Hdom. set (cs := CO2Charts.as_list countries) in *.
  destruct row as [[c|] year p]; unfold CO2Charts.lese_emissionen_row,
    Rows.co2_row_reads, Rows.emission_entry; simpl.
  2:{ left. split; [by intros c [=]|]. by split. }
  case_bool_decide as Hin.
  2:{ left. split; [|by split]. intros c' [= <-] Hreq.
      by apply requested_as_list in Hreq. }
  assert (requested countries c) as Hreq by by apply requested_as_list.
  destruct year as [cell|]; simpl.
  - destruct (py_int cell) as [y|] eqn:Hy; simpl.
    + destruct p as [p|].
      * left. split; [intros c' _ _; exists cell; by split|].
        destruct (parse_float_text p) as [v ->]. simpl.
        pose proof (Hdom _ Hin) as [s Hs]%elem_of_dom.
        rewrite (setitem2_write _ _ _ _ s) by done. split; [done|].
        intros c' Hc'. rewrite dom_insert_L. apply Hdom in Hc'. set_solver.
      * right. split; [|split; [by exists c|]].
        { intros Hreads. destruct (Hreads c eq_refl Hreq) as (cell' & [= <-] & Hp).
          rewrite Hy in Hp. by destruct Hp as [? [=]]. }
        right. split; [done|]. split; [done|]. split; [by eexists|done].
    + left. split; [|by split]. intros c' _ _. exists cell. split; [done|].
      rewrite Hy. by intros [? [=]].
  - right. split; [|split; [by exists c|by left]].
    intros Hreads. by destruct (Hreads c eq_refl Hreq) as (cell' & [=] & _).
Qed.

Lemma lese_emissionen_cases countries rows :
  (Forall (co2_row_reads countries) rows
   /\ lese_emissionen countries rows
      = Ok (foldl write (CO2Charts.empty_dict (CO2Charts.as_list countries))
              (omap (emission_entry (CO2Charts.as_list countries)) rows)))
  \/ (~ Forall (co2_row_reads countries) rows
      /\ exists e, lese_emissionen countries rows = Raise e).
Proof.
  unfold CO2Charts.lese_emissionen.
  set (cs := CO2Charts.as_list countries).
  destruct (for_each_cases (lese_emissionen_row cs)
    (fun d row => apply_entry d (emission_entry cs row)) (co2_row_reads countries)
    (fun d => forall c, c ∈ cs -> c ∈ dom d) rows (CO2Charts.empty_dict cs))
    as [(Hall & Heq & _)|?]; [| |left|by right].
  - intros d row Hd.
    destruct (lese_emissionen_row_cases countries d row Hd)
      as [(? & ? & ?)|(? & _ & [[_ ?]|(_ & _ & _ & ?)])]; eauto 6.
  - intros c Hc. rewrite dom_empty_dict. set_solver.
  - split; [done|]. by rewrite Heq, foldl_apply_entry.
Qed.

Lemma lese_emissionen_fold countries rows :
  Forall (co2_row_reads countries) rows ->
  lese_emissionen countries rows
    = Ok (foldl write (CO2Charts.empty_dict (CO2Charts.as_list countries))
            (omap (emission_entry (CO2Charts.as_list countries)) rows)).
Proof.
  intros Hall. by destruct (lese_emissionen_cases countries rows) as [[_ ?]|[? _]].
Qed.

Lemma lese_emissionen_Ok countries rows t :
  lese_emissionen countries rows = Ok t ->
  Forall (co2_row_reads countries) rows
  /\ t = foldl write (CO2Charts.empty_dict (CO2Charts.as_list countries))
           (omap (emission_entry (CO2Charts.as_list countries)) rows).
Proof.
  intros Ht. destruct (lese_emissionen_cases countries rows)
    as [[? Heq]|[_ [e He]]]; [|congruence].
  split; [done|congruence].
Qed.

Lemma emission_entry_Some countries row e :
  emission_entry countries row = Some e <->
  exists c y v, row_Entity row = Some c /\ c ∈ countries
    /\ int_of_cell (row_Year row) = Ok (Some y)
    /\ _parse_float (row_emissions row) = Ok v
    /\ e = (c, y, v).
Proof.
  unfold Rows.emission_entry. destruct (row_Entity row) as [c|].
  2:{ split; [done|]. by intros (? & ? & ? & [=] & _). }
  case_bool_decide as Hin.
  2:{ split; [done|]. by intros (? & ? & ? & [= <-] & ? & _). }
  destruct (int_of_cell (row_Year row)) as [[y|]|];
    [destruct (_parse_float (row_emissions row)) as [v|]|..].
  - split; [intros [= <-]; eauto 10|].
    by intros (? & ? & ? & [= <-] & _ & [= <-] & [= <-] & ->).
  - split; [done|]. by intros (? & ? & ? & _ & _ & _ & [=] & _).
  - split; [done|]. by intros (? & ? & ? & _ & _ & [=] & _).
  - split; [done|]. by intros (? & ? & ? & _ & _ & [=] & _).
Qed.

Lemma emission_entry_None countries row :
  (forall c, row_Entity row = Some c -> c ∉ countries)
  \/ int_of_cell (row_Year row) = Ok None ->
  emission_entry countries row = None.
Proof.
  unfold Rows.emission_entry. destruct (row_Entity row) as [c|]; [|done].
  intros [Hin|Hy].
  - by rewrite bool_decide_eq_false_2 by by apply Hin.
  - rewrite Hy. by case_bool_decide.
Qed.

Lemma energy_entry_Some row e :
  energy_entry row = Some e <->
  exists y v, int_of_cell (row_year row) = Ok (Some y)
    /\ _parse_int (row_population row) = Ok v
    /\ e = (row_country row, y, v).
Proof.
  unfold Rows.energy_entry.
  destruct (int_of_cell (row_year row)) as [[y|]|];
    [destruct (_parse_int (row_population row)) as [v|]|..].
  - split; [intros [= <-]; eauto|]. by intros (? & ? & [= <-] & [= <-] & ->).
  - split; [done|]. by intros (? & ? & _ & [=] & _).
  - split; [done|]. by intros (? & ? & [=] & _).
  - split; [done|]. by intros (? & ? & [=] & _).
Qed.

(** Entries written by later rows that leave [(c, y)] alone. *)
Lemma energy_entries_ne (post : list energy_row) c y :
  (forall r, r ∈ post -> row_country r = c ->
             int_of_cell (row_year r) = Ok (Some y) -> False) ->
  Forall (fun e => e.1 ≠ (c, y)) (omap energy_entry post).
Proof.
  intros Hpost. apply Forall_forall. intros e (r & Hr & He)%list_elem_of_omap.
  apply energy_entry_Some in He as (y' & v & Hy' & _ & ->). simpl.
  intros [= Hc ->]. eauto.
Qed.

Lemma emission_entries_ne countries (post : list co2_row) c y :
  (forall r, r ∈ post -> row_Entity r = Some c ->
             int_of_cell (row_Year r) = Ok (Some y) -> False) ->
  Forall (fun e => e.1 ≠ (c, y)) (omap (emission_entry countries) post).
Proof.
  intros Hpost. apply Forall_forall. intros e (r & Hr & He)%list_elem_of_omap.
  apply emission_entry_Some in He as (c' & y' & v & Hc' & _ & Hy' & _ & ->). simpl.
  intros [= -> ->]. eauto.
Qed.

Lemma emission_entries_country countries (rows : list co2_row) c :
  (forall r, r ∈ rows -> row_Entity r ≠ Some c) ->
  Forall (fun e => e.1.1 ≠ c) (omap (emission_entry countries) rows).
Proof.
  intros Hrows. apply Forall_forall. intros e (r & Hr & He)%list_elem_of_omap.
  apply emission_entry_Some in He as (c' & y' & v & Hc' & _ & _ & _ & ->). simpl.
  intros ->. by eapply Hrows.
Qed.

Lemma emission_entries_requested countries (rows : list co2_row) e :
  e ∈ omap (emission_entry countries) rows -> e.1.1 ∈ countries.
Proof.
  intros (r & Hr & He)%list_elem_of_omap.
  by apply emission_entry_Some in He as (c' & y' & v & _ & ? & _ & _ & ->).
Qed.

Lemma emission_entries_filter countries (P : co2_row -> Prop)
    `{!forall row, Decision (P row)} (rows : list co2_row) :
  (forall row c, row_Entity row = Some c -> c ∈ countries -> P row) ->
  omap (emission_entry countries) (filter P rows)
  = omap (emission_entry countries) rows.
Proof.
  intros HP. induction rows as [|row rows IH]; [done|].
  destruct (decide (P row)) as [Hin|Hin].
  - rewrite filter_cons_True by done. by rewrite !omap_cons, IH.
  - rewrite filter_cons_False by done.
    rewrite omap_cons, IH, emission_entry_None; [done|]. left.
    intros c Hc Hcs. apply Hin. by eapply HP.
Qed.

Lemma dom_lese_emissionen countries (rows : list co2_row) :
  dom (foldl write (CO2Charts.empty_dict countries)
         (omap (emission_entry countries) rows))
  = list_to_set countries.
Proof.
  rewrite dom_foldl_write, dom_empty_dict.
  apply set_eq. intros c. rewrite elem_of_union, !elem_of_list_to_set.
  split; [|auto]. intros [?|Hc]; [done|].
  apply list_elem_of_fmap in Hc as (ey & -> & (e & -> & He)%list_elem_of_fmap).
  by eapply emission_entries_requested.
Qed.

(** Rows that the reader does not look into, or skips, can be left out, and a
    row that it reads does not change what makes the other rows readable. *)
Lemma co2_row_reads_other countries row :
  (forall c, row_Entity row = Some c -> ~ requested countries c) ->
  co2_row_reads countries row.
Proof. intros Hnot c Hc Hreq. by destruct (Hnot c Hc). Qed.

Lemma elem_of_energy_entries (rows : list energy_row) c y v :
  (c, y, v) ∈ omap energy_entry rows <->
  exists row, row ∈ rows /\ row_country row = c
    /\ int_of_cell (row_year row) = Ok (Some y)
    /\ _parse_int (row_population row) = Ok v.
Proof.
  rewrite list_elem_of_omap. split.
  - intros (row & Hrow & (y' & v' & Hy & Hv & [= -> -> ->])%energy_entry_Some).
    eauto.
  - intros (row & Hrow & <- & Hy & Hv). exists row. split; [done|].
    apply energy_entry_Some. eauto.
Qed.

Lemma elem_of_energy_keys (rows : list energy_row) c y :
  Forall energy_row_reads rows ->
  (c, y) ∈ (omap energy_entry rows).*1 <->
  exists row, row ∈ rows /\ row_country row = c
    /\ int_of_cell (row_year row) = Ok (Some y).
Proof.
  intros Hreads. rewrite list_elem_of_fmap. split.
  - intros ([[c' y'] v] & [= <- <-] & (row & ? & ? & ? & ?)%elem_of_energy_entries).
    eauto.
  - intros (row & Hrow & Hc & Hy).
    eapply Forall_forall in Hreads as (cell & Hcell & Hpop); [|done].
    rewrite Hcell in Hy. simpl in Hy. injection Hy as Hy.
    destruct Hpop as [p Hp]; [by rewrite Hy|].
    destruct (parse_int_text p) as [v Hv].
    exists (c, y, v). split; [done|].
    apply elem_of_energy_entries. exists row.
    rewrite Hcell, Hp. simpl. rewrite Hy. done.
Qed.

Lemma elem_of_emission_entries cs (rows : list co2_row) c y v :
  (c, y, v) ∈ omap (emission_entry cs) rows <->
  c ∈ cs /\ exists row, row ∈ rows /\ row_Entity row = Some c
    /\ int_of_cell (row_Year row) = Ok (Some y)
    /\ _parse_float (row_emissions row) = Ok v.
Proof.
  rewrite list_elem_of_omap. split.
  - intros (row & Hrow
      & (c' & y' & v' & Hc & Hin & Hy & Hv & [= -> -> ->])%emission_entry_Some).
    eauto 10.
  - intros (Hin & row & Hrow & Hc & Hy & Hv). exists row. split; [done|].
    apply emission_entry_Some. eauto 10.
Qed.

Lemma elem_of_emission_keys countries (rows : list co2_row) c y :
  Forall (co2_row_reads countries) rows ->
  (c, y) ∈ (omap (emission_entry (CO2Charts.as_list countries)) rows).*1 <->
  requested countries c /\ exists row, row ∈ rows /\ row_Entity row = Some c
    /\ int_of_cell (row_Year row) = Ok (Some y).
Proof.
  intros Hreads. rewrite list_elem_of_fmap, requested_as_list. split.
  - intros ([[c' y'] v] & [= <- <-] & (? & row & ? & ? & ? & ?)%elem_of_emission_entries).
    eauto 10.
  - intros (Hin & row & Hrow & Hc & Hy).
    eapply Forall_forall in Hreads; [|done].
    destruct (Hreads c Hc) as (cell & Hcell & Hem); [by apply requested_as_list|].
    rewrite Hcell in Hy. simpl in Hy. injection Hy as Hy.
    destruct Hem as [p Hp]; [by rewrite Hy|].
    destruct (parse_float_text p) as [v Hv].
    exists (c, y, v). split; [done|].
    apply elem_of_emission_entries. split; [done|]. exists row.
    rewrite Hcell, Hp. simpl. rewrite Hy. done.
Qed.

End ReaderFacts.

(** ** Sorting facts *)

Section SortFacts.
Context {A} (R : relation A) `{!RelDecision R, !PartialOrder R, !Total R}.

Lemma sorted_strict (l : list A) :
  StronglySorted R l -> NoDup l -> StronglySorted (strict R) l.
Proof.
  induction 1 as [|x l Hl IH Hx]; [constructor|].
  intros [Hnin Hnd]%NoDup_cons; constructor; auto.
  apply Forall_forall. intros y Hy. split.
  - by eapply Forall_forall in Hx.
  - intros Hyx. eapply Forall_forall in Hx; [|done].
    assert (x = y) as -> by by apply (anti_symm R). done.
Qed.

Lemma merge_sort_strict (l : list A) :
  NoDup l -> StronglySorted (strict R) (merge_sort R l).
Proof.
  intros Hnd. apply sorted_strict.
  - apply StronglySorted_merge_sort; apply _.
  - by rewrite merge_sort_Permutation.
Qed.

Lemma merge_sort_elem_of (l : list A) x : x ∈ merge_sort R l <-> x ∈ l.
Proof. by rewrite merge_sort_Permutation. Qed.

(** The sorted arrangement depends on the elements only. *)
Lemma merge_sort_perm (l1 l2 : list A) :
  l1 ≡ₚ l2 -> merge_sort R l1 = merge_sort R l2.
Proof.
  intros Hp. apply (Sorted_unique R).
  - apply Sorted_merge_sort; apply _.
  - apply Sorted_merge_sort; apply _.
  - by rewrite !merge_sort_Permutation.
Qed.

End SortFacts.

Lemma filter_key_unique {A} (l : list (Z * A)) y v :
  NoDup l.*1 -> (y, v) ∈ l -> filter (fun kv => kv.1 = y) l = [(y, v)].
Proof.
  induction l as [|[k a] l IH]; simpl; [by intros _ ?%elem_of_nil|].
  intros [Hk Hnd]%NoDup_cons [[= <- <-]|Hin]%elem_of_cons.
  - rewrite filter_cons_True by done. f_equal.
    clear IH Hnd. induction l as [|[k' a'] l IH]; [done|].
    rewrite fmap_cons, not_elem_of_cons in Hk. destruct Hk as [Hne Hk].
    simpl in Hne. rewrite filter_cons_False by (simpl; congruence). auto.
  - rewrite filter_cons_False; [auto|]. simpl. intros ->.
    apply Hk. by apply (list_elem_of_fmap_2 fst) in Hin.
Qed.

Lemma sorted_keys_NoDup {V} (d : gmap Z V) : NoDup (sorted_keys d).
Proof.
  unfold sorted_keys, sorted_int. rewrite merge_sort_Permutation.
  apply NoDup_elements.
Qed.

Lemma sorted_keys_elem_of {V} (d : gmap Z V) y :
  y ∈ sorted_keys d <-> is_Some (d !! y).
Proof.
  unfold sorted_keys, sorted_int.
  by rewrite merge_sort_elem_of, elem_of_elements, elem_of_dom.
Qed.

Lemma sorted_int_lt (l : list Z) : NoDup l -> StronglySorted Z.lt (sorted_int l).
Proof.
  intros Hnd. unfold sorted_int.
  pose proof (merge_sort_strict Z.le l Hnd) as Hs.
  induction Hs as [|x l' _ IH Hx]; constructor; [done|].
  eapply Forall_impl; [done|]. intros y [Hle Hnle]. simpl in *. lia.
Qed.

Lemma sorted_keys_lt {V} (d : gmap Z V) : StronglySorted Z.lt (sorted_keys d).
Proof. apply sorted_int_lt, NoDup_elements. Qed.

(** ** The country listing *)

Lemma elem_of_entities (rows : list co2_row) (s : gset (option string)) c :
  c ∈ foldl (fun s row => s ∪ {[ row_Entity row ]}) s rows
  <-> c ∈ s \/ exists row, row ∈ rows /\ row_Entity row = c.
Proof.
  revert s. induction rows as [|row rows IH]; intros s; simpl.
  - split; [auto|]. intros [?|(row & []%elem_of_nil & _)]. done.
  - rewrite IH, elem_of_union, elem_of_singleton. split.
    + intros [[?| ->]|(r & Hr & <-)]; [auto| |].
      * right. exists row. split; [left|done].
      * right. exists r. split; [by right|done].
    + intros [?|(r & [->|Hr]%elem_of_cons & <-)]; [auto|auto|].
      right. by exists r.
Qed.

Lemma entities_perm (rows rows' : list co2_row) :
  rows' ≡ₚ rows ->
  foldl (fun s row => s ∪ {[ row_Entity row ]}) (∅ : gset (option string)) rows'
  = foldl (fun s row => s ∪ {[ row_Entity row ]}) ∅ rows.
Proof.
  intros Hperm. apply set_eq. intros c. rewrite !elem_of_entities.
  split; intros [?|(row & Hrow & <-)]; auto; right; exists row; split; auto.
  - by rewrite <- Hperm.
  - by rewrite Hperm.
Qed.

(** What [sorted] returns on cells that are all names. *)
Lemma sorted_cells_names (l : list (option string)) :
  Forall is_Some l ->
  exists names, l = Some <$> names
    /\ sorted_cells l = Ok (Some <$> sorted_str names).
Proof.
  intros Hall. unfold sorted_cells.
  destruct (mapM_is_Some_2 id l) as [names Hnames].
  { eapply Forall_impl; [done|]. by intros o. }
  exists names. rewrite Hnames. split; [|done].
  symmetry. by apply (mapM_fmap_Some_inv id Some l names).
Qed.

(** Whenever the listing is returned, it holds the cells of the rows. *)
Lemma elem_of_get_available_countries rows l o :
  CO2Charts.get_available_countries rows = Ok l ->
  o ∈ l <-> exists row, row ∈ rows /\ row_Entity row = o.
Proof.
  unfold CO2Charts.get_available_countries, sorted_cells.
  set (s := foldl _ _ rows).
  assert (o ∈ elements s <-> exists row, row ∈ rows /\ row_Entity row = o) as <-.
  { unfold s. rewrite elem_of_elements, elem_of_entities.
    split; [intros [[]%elem_of_empty|?]; done|auto]. }
  destruct (mapM id (elements s)) as [names|] eqn:Hnames.
  - intros [= <-].
    rewrite <- (mapM_fmap_Some_inv id Some _ _ Hnames) by done.
    unfold sorted_str. by rewrite merge_sort_Permutation.
  - case_bool_decide; [by intros [= <-]|done].
Qed.

Lemma get_available_countries_names (rows : list co2_row) :
  Forall (fun row => is_Some (row_Entity row)) rows ->
  exists l, CO2Charts.get_available_countries rows = Ok (Some <$> l)
    /\ StronglySorted (strict String.le) l
    /\ NoDup l
    /\ (forall c, c ∈ l <-> exists row, row ∈ rows /\ row_Entity row = Some c).
Proof.
  intros Hall. unfold CO2Charts.get_available_countries.
  set (s := foldl _ _ rows).
  destruct (sorted_cells_names (elements s)) as (names & Hnames & Hsorted).
  { apply Forall_forall. intros o Ho.
    apply elem_of_elements, elem_of_entities in Ho
      as [[]%elem_of_empty|(row & Hrow & <-)].
    by eapply Forall_forall in Hall. }
  assert (NoDup names) as Hnd.
  { apply (NoDup_fmap_1 Some). rewrite <- Hnames. apply NoDup_elements. }
  exists (sorted_str names). split; [done|]. split; [|split].
  - by apply merge_sort_strict; [apply _..|].
  - unfold sorted_str. by rewrite merge_sort_Permutation.
  - intros c. unfold sorted_str. rewrite merge_sort_elem_of.
    rewrite <- (list_elem_of_fmap_inj Some), <- Hnames.
    unfold s. rewrite elem_of_elements, elem_of_entities.
    split; [intros [[]%elem_of_empty|?]; done|auto].
Qed.

(** C7: on a source whose rows all carry their [Entity] cell, the country
    listing is sorted in ascending string order without repetition, lists
    exactly the country names that occur in some row of the emissions source,
    and is the same for every reordering of the rows. *)
Theorem C7_get_available_countries_sorted (rows : list co2_row) :
  Forall (fun row => is_Some (row_Entity row)) rows ->
  exists l, CO2Charts.get_available_countries rows = Ok (Some <$> l)
    /\ StronglySorted (strict String.le) l
    /\ NoDup l
    /\ (forall c, c ∈ l <-> exists row, row ∈ rows /\ row_Entity row = Some c)
    /\ (forall rows', rows' ≡ₚ rows ->
          CO2Charts.get_available_countries rows'
          = CO2Charts.get_available_countries rows).
Proof.
  intros Hall.
  destruct (get_available_countries_names rows Hall) as (l & Hl & Hs & Hnd & Hin).
  exists l. repeat split; [done..| | |].
  - by apply Hin.
  - by apply Hin.
  - intros rows' Hperm. unfold CO2Charts.get_available_countries.
    by rewrite (entities_perm rows rows').
Qed.

(** ** The dataset reader: claims *)

Lemma for_each_skip {R S} (body : S -> R -> result S) pre x post s :
  (forall s, body s x = Ok s) ->
  for_each body (pre ++ x :: post) s = for_each body (pre ++ post) s.
Proof.
  intros Hx. rewrite !for_each_app.
  destruct (for_each body pre s); simpl; [by rewrite Hx|done].
Qed.

Lemma for_each_raises {R S} (body : S -> R -> result S) pre x post s e :
  is_Ok (for_each body pre s) -> (forall s, body s x = Raise e) ->
  for_each body (pre ++ x :: post) s = Raise e.
Proof.
  intros [s' Hs'] Hx. rewrite for_each_app, Hs'. simpl. by rewrite Hx.
Qed.

Lemma omap_nil {A B} (f : A -> option B) (l : list A) :
  (forall x, x ∈ l -> f x = None) -> omap f l = [].
Proof.
  induction l as [|x l IH]; intros Hf; [done|].
  rewrite omap_cons, Hf by left. apply IH. intros z Hz. apply Hf. by right.
Qed.

Section ReaderClaims.

Variable py_strip : string -> string.
Variable py_int : string -> option Z.
Variable py_float : string -> option float.

Local Abbreviation int_of_cell := (CO2Charts.int_of_cell py_int).
Local Abbreviation _parse_int := (CO2Charts._parse_int py_strip py_int).
Local Abbreviation _parse_float := (CO2Charts._parse_float py_strip py_float).
Local Abbreviation lese_energy := (CO2Charts.lese_energy py_strip py_int).
Local Abbreviation lese_emissionen :=
  (CO2Charts.lese_emissionen py_strip py_int py_float).
Local Abbreviation energy_entry := (energy_entry py_strip py_int).
Local Abbreviation emission_entry := (emission_entry py_strip py_int py_float).
Local Abbreviation energy_row_reads := (energy_row_reads py_int).
Local Abbreviation co2_row_reads := (co2_row_reads py_int).

(** A read returns a table exactly when none of its rows stops short of a
    cell that the reader needs. *)
Lemma lese_energy_is_Ok rows :
  is_Ok (lese_energy rows) <-> Forall energy_row_reads rows.
Proof.
  destruct (lese_energy_cases py_strip py_int rows) as [[? ->]|[? [e ->]]].
  - split; [done|]. intros _. by eexists.
  - split; [by intros [? [=]]|done].
Qed.

Lemma lese_emissionen_is_Ok countries rows :
  is_Ok (lese_emissionen countries rows) <-> Forall (co2_row_reads countries) rows.
Proof.
  destruct (lese_emissionen_cases py_strip py_int py_float countries rows)
    as [[? ->]|[? [e ->]]].
  - split; [done|]. intros _. by eexists.
  - split; [by intros [? [=]]|done].
Qed.

(** A row that writes nothing can be dropped from the source. *)
Lemma lese_energy_skip pre row post :
  int_of_cell (row_year row) = Ok None ->
  lese_energy (pre ++ row :: post) = lese_energy (pre ++ post).
Proof.
  intros Hy. apply for_each_skip. intros d.
  unfold CO2Charts.lese_energy_row. by rewrite Hy.
Qed.

Lemma lese_emissionen_skip countries pre row post :
  ~ of_requested countries row \/ int_of_cell (row_Year row) = Ok None ->
  lese_emissionen countries (pre ++ row :: post)
    = lese_emissionen countries (pre ++ post).
Proof.
  intros Hrow. apply for_each_skip. intros d.
  unfold CO2Charts.lese_emissionen_row, of_requested in *.
  destruct (row_Entity row) as [c|]; [|done].
  case_bool_decide as Hin; [|done].
  destruct Hrow as [Hnot|Hy]; [|by rewrite Hy].
  destruct Hnot. by apply requested_as_list.
Qed.

(** The rows that stop short. *)
Lemma lese_energy_without_year pre row post :
  is_Ok (lese_energy pre) -> row_year row = None ->
  lese_energy (pre ++ row :: post) = Raise TypeError.
Proof.
  intros Hpre Hy. apply for_each_raises; [done|]. intros d.
  unfold CO2Charts.lese_energy_row. by rewrite Hy.
Qed.

Lemma lese_energy_without_population pre row post y :
  is_Ok (lese_energy pre) -> int_of_cell (row_year row) = Ok (Some y) ->
  row_population row = None ->
  lese_energy (pre ++ row :: post) = Raise AttributeError.
Proof.
  intros Hpre Hy Hp. apply for_each_raises; [done|]. intros d.
  unfold CO2Charts.lese_energy_row. by rewrite Hy, Hp.
Qed.

Lemma lese_emissionen_without_year countries pre row post c :
  is_Ok (lese_emissionen countries pre) ->
  row_Entity row = Some c -> requested countries c -> row_Year row = None ->
  lese_emissionen countries (pre ++ row :: post) = Raise TypeError.
Proof.
  intros Hpre Hc Hreq Hy. apply for_each_raises; [done|]. intros d.
  unfold CO2Charts.lese_emissionen_row. rewrite Hc, Hy.
  by rewrite bool_decide_eq_true_2 by by apply requested_as_list.
Qed.

Lemma lese_emissionen_without_emissions countries pre row post c y :
  is_Ok (lese_emissionen countries pre) ->
  row_Entity row = Some c -> requested countries c ->
  int_of_cell (row_Year row) = Ok (Some y) -> row_emissions row = None ->
  lese_emissionen countries (pre ++ row :: post) = Raise AttributeError.
Proof.
  intros Hpre Hc Hreq Hy Hp. apply for_each_raises; [done|]. intros d.
  unfold CO2Charts.lese_emissionen_row. rewrite Hc, Hy, Hp.
  by rewrite bool_decide_eq_true_2 by by apply requested_as_list.
Qed.

(** The entry of the last row that writes [(country, year)]. *)
Lemma lese_energy_last pre row post y v :
  Forall energy_row_reads (pre ++ row :: post) ->
  int_of_cell (row_year row) = Ok (Some y) ->
  _parse_int (row_population row) = Ok v ->
  (forall r, r ∈ post -> row_country r = row_country row ->
             int_of_cell (row_year r) ≠ Ok (Some y)) ->
  exists t s, lese_energy (pre ++ row :: post) = Ok t
    /\ t !! row_country row = Some s
    /\ s !! y = Some v.
Proof.
  intros Hreads Hy Hv Hpost.
  rewrite (lese_energy_fold _ _ _ Hreads), omap_app, omap_cons.
  assert (energy_entry row = Some (row_country row, y, v)) as ->.
  { unfold Rows.energy_entry. by rewrite Hy, Hv. }
  pose proof (entry_at_foldl_write_last ∅ (omap energy_entry pre)
    (row_country row) y v (omap energy_entry post)) as H.
  rewrite entry_at_Some in H. destruct H as (s & Hs & Hvs).
  { apply energy_entries_ne. intros r Hr Hc Hy'. by eapply Hpost. }
  eexists; exists s. by split.
Qed.

Lemma lese_emissionen_last countries pre row post c y v :
  Forall (co2_row_reads countries) (pre ++ row :: post) ->
  row_Entity row = Some c -> requested countries c ->
  int_of_cell (row_Year row) = Ok (Some y) ->
  _parse_float (row_emissions row) = Ok v ->
  (forall r, r ∈ post -> row_Entity r = Some c ->
             int_of_cell (row_Year r) ≠ Ok (Some y)) ->
  exists t s, lese_emissionen countries (pre ++ row :: post) = Ok t
    /\ t !! c = Some s
    /\ s !! y = Some v.
Proof.
  intros Hreads Hc Hreq Hy Hv Hpost.
  rewrite (lese_emissionen_fold _ _ _ _ _ Hreads), omap_app, omap_cons.
  set (cs := CO2Charts.as_list countries) in *.
  assert (emission_entry cs row = Some (c, y, v)) as ->.
  { unfold Rows.emission_entry. rewrite Hc, Hy, Hv.
    by rewrite bool_decide_eq_true_2 by by apply requested_as_list. }
  pose proof (entry_at_foldl_write_last (CO2Charts.empty_dict cs)
    (omap (emission_entry cs) pre) c y v (omap (emission_entry cs) post)) as H.
  rewrite entry_at_Some in H. destruct H as (s & Hs & Hvs).
  { apply emission_entries_ne. intros r Hr Hc' Hy'. by eapply Hpost. }
  eexists; exists s. by split.
Qed.

Lemma energy_row_reads_text row cell p :
  row_year row = Some cell -> row_population row = Some p ->
  energy_row_reads row.
Proof. intros Hy Hp. exists cell. split; [done|]. intros _. by eexists. Qed.

Lemma co2_row_reads_text countries row cell p :
  row_Year row = Some cell -> row_emissions row = Some p ->
  co2_row_reads countries row.
Proof. intros Hy Hp c _ _. exists cell. split; [done|]. intros _. by eexists. Qed.

Lemma Forall_insert_middle {A} (P : A -> Prop) pre x post :
  Forall P (pre ++ post) -> P x -> Forall P (pre ++ x :: post).
Proof.
  rewrite !Forall_app, Forall_cons. tauto.
Qed.

Lemma Forall_remove_middle {A} (P : A -> Prop) pre x post :
  Forall P (pre ++ x :: post) -> Forall P (pre ++ post).
Proof.
  rewrite !Forall_app, Forall_cons. tauto.
Qed.

Lemma Forall_filter_reads {A} (P Q : A -> Prop) `{!forall x, Decision (Q x)} l :
  Forall P l -> Forall P (filter Q l).
Proof.
  rewrite !Forall_forall. intros Hall x [_ Hx]%list_elem_of_filter. auto.
Qed.

(** C6: on a source that is read, [lese_emissionen] returns a table whose
    keys are exactly the countries asked for: the one country when the
    argument is a string, the elements of the list otherwise.  A country asked
    for that has no row maps to the empty series.  The series of a country
    asked for holds the years of its rows, each with the parsed emissions cell
    of the last row of that country and year.  The rows of the other countries
    contribute nothing: the table is the one read from the source without
    them. *)
Theorem C6_lese_emissionen_requested_keys (countries : countries_arg)
    (rows : list co2_row) :
  Forall (co2_row_reads countries) rows ->
  exists t, lese_emissionen countries rows = Ok t
    /\ (forall c, is_Some (t !! c) <-> requested countries c)
    /\ (forall c, requested countries c ->
           (forall row, row ∈ rows -> row_Entity row ≠ Some c) -> t !! c = Some ∅)
    /\ (forall c y, requested countries c ->
           (is_Some (entry_at t c y) <->
            exists row, row ∈ rows /\ row_Entity row = Some c
              /\ int_of_cell (row_Year row) = Ok (Some y)))
    /\ (forall pre row post c y v, rows = pre ++ row :: post ->
           requested countries c -> row_Entity row = Some c ->
           int_of_cell (row_Year row) = Ok (Some y) ->
           _parse_float (row_emissions row) = Ok v ->
           (forall r, r ∈ post -> row_Entity r = Some c ->
                      int_of_cell (row_Year r) ≠ Ok (Some y)) ->
           entry_at t c y = Some v)
    /\ lese_emissionen countries (filter (of_requested countries) rows) = Ok t
    /\ (forall pre row post, rows = pre ++ row :: post ->
           ~ of_requested countries row ->
           lese_emissionen countries (pre ++ post) = Ok t).
Proof.
  intros Hreads. eexists. split; [by apply lese_emissionen_fold|].
  set (cs := CO2Charts.as_list countries).
  split; [|split; [|split; [|split; [|split]]]].
  - intros c. rewrite <- elem_of_dom, dom_lese_emissionen.
    by rewrite elem_of_list_to_set, requested_as_list.
  - intros c Hc Hrows.
    rewrite lookup_foldl_write_ne by by apply emission_entries_country.
    rewrite lookup_empty_dict, bool_decide_eq_true_2; [done|].
    by apply requested_as_list.
  - intros c y Hc.
    rewrite entry_at_foldl_write, entry_at_empty_dict, last_write_is_Some.
    unfold cs. rewrite (elem_of_emission_keys _ _ _ countries) by done.
    split; [intros [[_ ?]|[? [=]]]; done|]. intros ?. by left.
  - intros pre row post c y v -> Hc Hrow Hy Hv Hpost.
    destruct (lese_emissionen_last countries pre row post c y v)
      as (t & s & Ht & Hs & Hvs); [done..|].
    rewrite (lese_emissionen_fold _ _ _ _ _ Hreads) in Ht. injection Ht as <-.
    apply entry_at_Some. eauto.
  - rewrite lese_emissionen_fold by by apply Forall_filter_reads.
    fold cs. f_equal. f_equal. apply emission_entries_filter.
    intros row c Hc Hin. unfold of_requested. rewrite Hc.
    by apply requested_as_list.
  - intros pre row post -> Hnin.
    rewrite lese_emissionen_fold by by eapply Forall_remove_middle.
    fold cs. f_equal. rewrite !omap_app, omap_cons.
    rewrite emission_entry_None; [done|]. left. intros c Hc Hin.
    apply Hnin. unfold of_requested. rewrite Hc. by apply requested_as_list.
Qed.

(** C8: the two parsers absorb every cell that is a text.  A row whose year
    cell is a text that is not an integer is skipped as a whole, in both
    sources: the table is the one read without the row.  A row with a valid
    year whose population (emissions) cell is a text that is empty after
    stripping or is not a number stores the absent value at its country and
    year (for the emissions source the country is one asked for).  A cell
    that is missing, because the line stops before its column, is not
    absorbed: the read raises [TypeError] at a row without year cell and
    [AttributeError] at a row with a valid year and without population
    (emissions) cell; a read returns a table exactly when no row is of these
    two kinds. *)
Theorem C8_missing_cell_aborts_read :
  (forall pre row post, int_of_cell (row_year row) = Ok None ->
     lese_energy (pre ++ row :: post) = lese_energy (pre ++ post))
  /\ (forall countries pre row post, int_of_cell (row_Year row) = Ok None ->
       lese_emissionen countries (pre ++ row :: post)
       = lese_emissionen countries (pre ++ post))
  /\ (forall pre row post y cell,
       Forall energy_row_reads (pre ++ post) ->
       int_of_cell (row_year row) = Ok (Some y) ->
       row_population row = Some cell ->
       py_strip cell = "" \/ py_int (py_strip cell) = None ->
       (forall r, r ∈ post -> row_country r = row_country row ->
                  int_of_cell (row_year r) ≠ Ok (Some y)) ->
       exists t s, lese_energy (pre ++ row :: post) = Ok t
         /\ t !! row_country row = Some s /\ s !! y = Some None)
  /\ (forall countries pre row post c y cell,
       Forall (co2_row_reads countries) (pre ++ post) ->
       row_Entity row = Some c -> requested countries c ->
       int_of_cell (row_Year row) = Ok (Some y) ->
       row_emissions row = Some cell ->
       py_strip cell = "" \/ py_float (py_strip cell) = None ->
       (forall r, r ∈ post -> row_Entity r = Some c ->
                  int_of_cell (row_Year r) ≠ Ok (Some y)) ->
       exists t s, lese_emissionen countries (pre ++ row :: post) = Ok t
         /\ t !! c = Some s /\ s !! y = Some None)
  /\ (forall pre row post, is_Ok (lese_energy pre) -> row_year row = None ->
       lese_energy (pre ++ row :: post) = Raise TypeError)
  /\ (forall pre row post y, is_Ok (lese_energy pre) ->
       int_of_cell (row_year row) = Ok (Some y) -> row_population row = None ->
       lese_energy (pre ++ row :: post) = Raise AttributeError)
  /\ (forall countries pre row post c, is_Ok (lese_emissionen countries pre) ->
       row_Entity row = Some c -> requested countries c -> row_Year row = None ->
       lese_emissionen countries (pre ++ row :: post) = Raise TypeError)
  /\ (forall countries pre row post c y,
       is_Ok (lese_emissionen countries pre) ->
       row_Entity row = Some c -> requested countries c ->
       int_of_cell (row_Year row) = Ok (Some y) -> row_emissions row = None ->
       lese_emissionen countries (pre ++ row :: post) = Raise AttributeError)
  /\ (forall rows, is_Ok (lese_energy rows) <-> Forall energy_row_reads rows)
  /\ (forall countries rows,
       is_Ok (lese_emissionen countries rows)
       <-> Forall (co2_row_reads countries) rows)
  /\ CO2Charts.lese_energy PyText.strip PyText.int
       Scenario.energy_rows_without_year = Raise TypeError
  /\ CO2Charts.lese_energy PyText.strip PyText.int
       Scenario.energy_rows_without_population = Raise AttributeError
  /\ CO2Charts.lese_emissionen PyText.strip PyText.int PyText.float
       (CountryList ["Poland"]) Scenario.co2_rows_without_year = Raise TypeError
  /\ CO2Charts.lese_emissionen PyText.strip PyText.int PyText.float
       (CountryList ["Poland"]) Scenario.co2_rows_without_emissions
     = Raise AttributeError.
Proof.
  split; [apply lese_energy_skip|].
  split; [intros countries pre row post Hy; apply lese_emissionen_skip; by right|].
  split.
  { intros pre row post y cell Hreads Hy Hp Hcell Hpost.
    destruct (row_year row) as [ycell|] eqn:Hycell; [|done].
    apply (lese_energy_last pre row post y None); [|by rewrite Hycell| |done].
    - apply Forall_insert_middle; [done|]. by eapply energy_row_reads_text.
    - rewrite Hp. by apply parse_int_absent. }
  split.
  { intros countries pre row post c y cell Hreads Hc Hreq Hy Hp Hcell Hpost.
    destruct (row_Year row) as [ycell|] eqn:Hycell; [|done].
    apply (lese_emissionen_last countries pre row post c y None);
      [|done|done|by rewrite Hycell| |done].
    - apply Forall_insert_middle; [done|]. by eapply co2_row_reads_text.
    - rewrite Hp. by apply parse_float_absent. }
  split; [apply lese_energy_without_year|].
  split; [apply lese_energy_without_population|].
  split; [apply lese_emissionen_without_year|].
  split; [apply lese_emissionen_without_emissions|].
  split; [apply lese_energy_is_Ok|].
  split; [apply lese_emissionen_is_Ok|].
  repeat split; vm_compute; reflexivity.
Qed.

(** C9: on a source that is read, when several rows carry the same country
    and year, the series of that country holds exactly one entry for the
    year, and its value is the one of the last such row (for the emissions
    source the country is one asked for).  The years of a series of either
    table are pairwise distinct. *)
Theorem C9_last_write_wins :
  (forall pre row post y v,
     Forall energy_row_reads (pre ++ row :: post) ->
     int_of_cell (row_year row) = Ok (Some y) ->
     _parse_int (row_population row) = Ok v ->
     (forall r, r ∈ post -> row_country r = row_country row ->
                int_of_cell (row_year r) ≠ Ok (Some y)) ->
     exists t s, lese_energy (pre ++ row :: post) = Ok t
       /\ t !! row_country row = Some s
       /\ filter (fun kv => kv.1 = y) (map_to_list s) = [(y, v)])
  /\ (forall countries pre row post c y v,
       Forall (co2_row_reads countries) (pre ++ row :: post) ->
       row_Entity row = Some c -> requested countries c ->
       int_of_cell (row_Year row) = Ok (Some y) ->
       _parse_float (row_emissions row) = Ok v ->
       (forall r, r ∈ post -> row_Entity r = Some c ->
                  int_of_cell (row_Year r) ≠ Ok (Some y)) ->
       exists t s, lese_emissionen countries (pre ++ row :: post) = Ok t
         /\ t !! c = Some s
         /\ filter (fun kv => kv.1 = y) (map_to_list s) = [(y, v)])
  /\ (forall rows t c s, lese_energy rows = Ok t -> t !! c = Some s ->
       NoDup (map_to_list s).*1 /\ NoDup (sorted_keys s))
  /\ (forall countries rows t c s,
       lese_emissionen countries rows = Ok t -> t !! c = Some s ->
       NoDup (map_to_list s).*1 /\ NoDup (sorted_keys s)).
Proof.
  repeat split.
  - intros pre row post y v Hreads Hy Hv Hpost.
    destruct (lese_energy_last pre row post y v Hreads Hy Hv Hpost)
      as (t & s & ? & ? & Hvs).
    exists t, s. repeat split; [done..|].
    apply filter_key_unique; [apply NoDup_fst_map_to_list|].
    by apply elem_of_map_to_list.
  - intros countries pre row post c y v Hreads Hc Hreq Hy Hv Hpost.
    destruct (lese_emissionen_last countries pre row post c y v
                Hreads Hc Hreq Hy Hv Hpost) as (t & s & ? & ? & Hvs).
    exists t, s. repeat split; [done..|].
    apply filter_key_unique; [apply NoDup_fst_map_to_list|].
    by apply elem_of_map_to_list.
  - apply NoDup_fst_map_to_list.
  - apply sorted_keys_NoDup.
  - apply NoDup_fst_map_to_list.
  - apply sorted_keys_NoDup.
Qed.

(** C10: the country listing does not look at the year field.  On a source
    whose rows all carry their [Entity] cell, a country all of whose rows have
    a year cell that is not an integer is listed all the same, while reading
    the emissions of that one country returns the table that maps it to the
    empty series. *)
Theorem C10_listed_without_data (rows : list co2_row) (c : string) :
  Forall (fun row => is_Some (row_Entity row)) rows ->
  (exists row, row ∈ rows /\ row_Entity row = Some c) ->
  (forall row, row ∈ rows -> row_Entity row = Some c ->
     int_of_cell (row_Year row) = Ok None) ->
  (exists l, CO2Charts.get_available_countries rows = Ok (Some <$> l) /\ c ∈ l)
  /\ lese_emissionen (CountryList [c]) rows = Ok {[ c := ∅ ]}
  /\ lese_emissionen (CountryStr c) rows = Ok {[ c := ∅ ]}.
Proof.
  intros Hall Hc Hyears.
  assert (omap (emission_entry [c]) rows = []) as Hnone.
  { apply omap_nil. intros row Hrow. apply emission_entry_None.
    destruct (decide (row_Entity row = Some c)) as [He|He]; [right; auto|left].
    intros c' Hc' ->%list_elem_of_singleton. done. }
  assert (forall countries, (forall c', requested countries c' -> c' = c) ->
            Forall (co2_row_reads countries) rows) as Hreads.
  { intros countries Hone. apply Forall_forall. intros row Hrow c' Hc' Hreq.
    apply Hone in Hreq as ->. specialize (Hyears row Hrow Hc').
    destruct (row_Year row) as [cell|]; [|done]. injection Hyears as Hy.
    exists cell. split; [done|]. rewrite Hy. by intros [? [=]]. }
  split; [|split].
  - destruct (get_available_countries_names rows Hall) as (l & Hl & _ & _ & Hin).
    exists l. split; [done|]. by apply Hin.
  - rewrite lese_emissionen_fold; [simpl; by rewrite Hnone|].
    apply Hreads. by intros c' ->%list_elem_of_singleton.
  - rewrite lese_emissionen_fold; [simpl; by rewrite Hnone|].
    by apply Hreads.
Qed.

End ReaderClaims.

(** ** Comprehensions that may raise *)

Section ComprehensionFacts.

Lemma comprehension_spec {A B} (f : A -> result B) (Q : A -> B -> Prop) l :
  (forall x, x ∈ l -> exists y, f x = Ok y /\ Q x y) ->
  exists ys, comprehension f l = Ok ys /\ Forall2 Q l ys.
Proof.
  induction l as [|x l IH]; intros Hf; simpl.
  - exists []. split; [done|constructor].
  - destruct (Hf x) as (y & -> & Hy); [left|].
    destruct IH as (ys & -> & Hys); [intros z Hz; apply Hf; by right|].
    exists (y :: ys). split; [done|by constructor].
Qed.

Lemma comprehension_is_Ok {A B} (f : A -> result B) l :
  is_Ok (comprehension f l) <-> Forall (fun x => is_Ok (f x)) l.
Proof.
  split.
  - intros [ys Hys%comprehension_Ok].
    induction Hys as [|x y l ys Hxy _ IH]; constructor; [by exists y|done].
  - intros Hl. destruct (comprehension_spec f (fun _ _ => True) l) as (ys & Hys & _).
    + intros x Hx. eapply Forall_forall in Hl as [y Hy]; [|done]. eauto.
    + by exists ys.
Qed.

Lemma comprehension_app {A B} (f : A -> result B) l1 l2 :
  comprehension f (l1 ++ l2)
  = ys1 ← comprehension f l1; ys2 ← comprehension f l2; Ok (ys1 ++ ys2).
Proof.
  induction l1 as [|x l1 IH]; simpl.
  - by destruct (comprehension f l2).
  - destruct (f x) as [y|e]; simpl; [|done]. rewrite IH.
    destruct (comprehension f l1); simpl; [|done].
    by destruct (comprehension f l2).
Qed.

(** The errors of a comprehension are errors of its body. *)
Lemma comprehension_errors {A B} (f : A -> result B) (E : exn -> Prop) l :
  (forall x, x ∈ l -> is_Ok (f x) \/ exists e, f x = Raise e /\ E e) ->
  is_Ok (comprehension f l) \/ exists e, comprehension f l = Raise e /\ E e.
Proof.
  induction l as [|x l IH]; intros Hf; simpl; [left; by eexists|].
  destruct (Hf x) as [[y ->]|(e & -> & He)]; [left| |right; eauto].
  simpl. destruct IH as [[ys ->]|(e & -> & He)].
  - intros z Hz. apply Hf. by right.
  - left. by eexists.
  - right. eauto.
Qed.

Lemma comprehension_dichotomy {A B} (f : A -> result B) (Q : B -> Prop) e l :
  (forall x, x ∈ l -> (exists y, f x = Ok y /\ Q y) \/ f x = Raise e) ->
  (exists ys, comprehension f l = Ok ys /\ Forall Q ys
              /\ Forall (fun x => is_Ok (f x)) l)
  \/ comprehension f l = Raise e.
Proof.
  induction l as [|x l IH]; intros Hf; simpl.
  - left. exists []. by repeat split.
  - destruct (Hf x) as [(y & Hy & HQ)|Hx]; [left| |right; by rewrite Hx].
    rewrite Hy. simpl.
    destruct IH as [(ys & Hys & HQs & Hok)|Hraise].
    + intros z Hz. apply Hf. by right.
    + left. exists (y :: ys). rewrite Hys. simpl.
      split; [done|]. split; constructor; eauto. by exists y.
    + right. by rewrite Hraise.
Qed.

Lemma comprehension_raises {A B} (f : A -> result B) e l x :
  (forall x, x ∈ l -> is_Ok (f x) \/ f x = Raise e) ->
  x ∈ l -> f x = Raise e ->
  comprehension f l = Raise e.
Proof.
  intros Hf Hx Hraise.
  destruct (comprehension_dichotomy f (fun _ => True) e l)
    as [(ys & _ & _ & Hok)|?]; [|by eapply Forall_forall in Hok as [? ?]; [|done]; congruence|done].
  intros z Hz. destruct (Hf z Hz) as [[y ?]|?]; eauto.
Qed.

(** Two comprehensions whose bodies agree element by element. *)
Lemma comprehension_Forall2 {A B C} (f : A -> result C) (g : B -> result C) l k :
  Forall2 (fun x y => f x = g y) l k -> comprehension f l = comprehension g k.
Proof.
  induction 1 as [|x y l k Hxy _ IH]; [done|]. simpl. by rewrite Hxy, IH.
Qed.

Lemma Forall2_fmap_eq {A B C} (f : A -> C) (g : B -> C) l k :
  Forall2 (fun x y => g y = f x) l k -> g <$> k = f <$> l.
Proof.
  induction 1 as [|x y l k Hxy _ IH]; [done|].
  by rewrite !fmap_cons, Hxy, IH.
Qed.

Lemma Forall2_exists {A B} (Q : A -> B -> Prop) (l : list A) :
  (forall x, x ∈ l -> exists y, Q x y) -> exists k, Forall2 Q l k.
Proof.
  induction l as [|x l IH]; intros HQ; [by exists []|].
  destruct (HQ x) as [y Hy]; [left|].
  destruct IH as [k Hk]; [intros z Hz; apply HQ; by right|].
  exists (y :: k). by constructor.
Qed.

End ComprehensionFacts.

(** ** What the plotting backend accepts *)

Section BackendFacts.

Variable is_color : string -> bool.

Lemma int_to_float_errors n :
  is_Ok (int_to_float n) \/ int_to_float n = Raise OverflowError.
Proof.
  unfold int_to_float.
  destruct (binary_normalize prec emax n 0 false); eauto; left; by eexists.
Qed.

Lemma to_float_errors v :
  is_Ok (to_float v) \/ to_float v = Raise OverflowError.
Proof.
  destruct v as [|n|f]; simpl; [left; by eexists|apply int_to_float_errors|].
  left. by eexists.
Qed.

Lemma to_float_number v : is_number v -> is_Ok (to_float v).
Proof. intros [[f ->]| ->]; by eexists. Qed.

Lemma to_float_float_or_none v : float_or_none v -> is_Ok (to_float v).
Proof. intros [->|[f ->]]; by eexists. Qed.

Lemma conversion_cases {A} (f : A -> result float) l :
  (forall x, is_Ok (f x) \/ f x = Raise OverflowError) ->
  (Forall (fun x => is_Ok (f x)) l /\ is_Ok (comprehension f l))
  \/ (~ Forall (fun x => is_Ok (f x)) l
      /\ comprehension f l = Raise OverflowError).
Proof.
  intros Hf.
  destruct (comprehension_errors f (fun e => e = OverflowError) l)
    as [Hok|(e & Hraise & ->)].
  - intros x _. destruct (Hf x); eauto.
  - left. split; [by apply comprehension_is_Ok|done].
  - right. split; [|done]. intros Hall%comprehension_is_Ok.
    rewrite Hraise in Hall. by destruct Hall as [? [=]].
Qed.

(** [ax.plot] on one line: what it accepts and what it raises. *)
Lemma new_line_cases x y label color :
  (plottable is_color (Line x y label color)
   /\ new_line is_color x y label color = Ok (Line x y label color))
  \/ (~ plottable is_color (Line x y label color)
      /\ (new_line is_color x y label color = Raise ValueError
          \/ new_line is_color x y label color = Raise OverflowError)).
Proof.
  unfold new_line, plottable. simpl. case_bool_decide as Hlen.
  { right. split; [|by left]. by intros [? _]. }
  assert (length x = length y) as Hlen' by by destruct (decide (length x = length y)).
  destruct (is_color color) eqn:Hcolor; simpl.
  2:{ right. split; [|by left]. by intros (_ & ? & _). }
  destruct (conversion_cases int_to_float x int_to_float_errors)
    as [[Hx [xs ->]]|[Hx ->]]; simpl.
  2:{ right. split; [|by right]. by intros (_ & _ & ? & _). }
  destruct (conversion_cases to_float y to_float_errors)
    as [[Hy [ys ->]]|[Hy ->]]; simpl.
  - by left.
  - right. split; [|by right]. by intros (_ & _ & _ & ?).
Qed.

Lemma new_line_Ok x y label color :
  plottable is_color (Line x y label color) ->
  new_line is_color x y label color = Ok (Line x y label color).
Proof. intros Hp. by destruct (new_line_cases x y label color) as [[_ ?]|[? _]]. Qed.

Lemma new_line_inv x y label color ln :
  new_line is_color x y label color = Ok ln ->
  ln = Line x y label color /\ plottable is_color ln.
Proof.
  destruct (new_line_cases x y label color) as [[? ->]|[_ [-> | ->]]];
    [|done..].
  by intros [= <-].
Qed.

Lemma new_line_is_Ok x y label color :
  is_Ok (new_line is_color x y label color)
  <-> plottable is_color (Line x y label color).
Proof.
  destruct (new_line_cases x y label color) as [[? ->]|[? [-> | ->]]].
  - split; [done|]. intros _. by eexists.
  - split; [by intros [? [=]]|done].
  - split; [by intros [? [=]]|done].
Qed.

Lemma new_line_errors x y label color :
  is_Ok (new_line is_color x y label color)
  \/ exists e, new_line is_color x y label color = Raise e
       /\ (e = ValueError \/ e = OverflowError).
Proof.
  destruct (new_line_cases x y label color) as [[? ->]|[? [-> | ->]]]; eauto.
  left. by eexists.
Qed.

Lemma ax_plot_new_line ax x y label color :
  ax_plot is_color ax x y label color
  = new_line is_color x y label color ≫= fun ln => Ok (ax ++ [ln]).
Proof.
  unfold ax_plot, new_line. case_bool_decide; [done|].
  destruct (is_color color); simpl; [|done].
  destruct (comprehension int_to_float x); simpl; [|done].
  by destruct (comprehension to_float y).
Qed.

Lemma plot_line_eta ln :
  plot_line is_color ln
  = new_line is_color (line_x ln) (line_y ln) (line_label ln) (line_color ln).
Proof. done. Qed.

Lemma plot_line_inv ln ln' :
  plot_line is_color ln = Ok ln' -> ln' = ln /\ plottable is_color ln.
Proof.
  unfold plot_line. intros [-> Hp]%new_line_inv. by destruct ln.
Qed.

Lemma plot_line_is_Ok ln : is_Ok (plot_line is_color ln) <-> plottable is_color ln.
Proof. unfold plot_line. rewrite new_line_is_Ok. by destruct ln. Qed.

(** Drawing lines is handing each of them to [ax.plot], in order. *)
Lemma draw_comprehension lines :
  draw is_color lines = comprehension (plot_line is_color) lines.
Proof.
  unfold draw.
  assert (forall ax, for_each (fun ax ln =>
            ax_plot is_color ax (line_x ln) (line_y ln) (line_label ln)
              (line_color ln)) lines ax
          = comprehension (plot_line is_color) lines
            ≫= fun lns => Ok (ax ++ lns)) as H.
  { induction lines as [|ln lines IH]; intros ax; simpl.
    - by rewrite app_nil_r.
    - rewrite ax_plot_new_line. fold (plot_line is_color ln).
      destruct (plot_line is_color ln) as [ln'|]; simpl; [|done].
      rewrite IH. destruct (comprehension _ lines); simpl; [|done].
      by rewrite <- app_assoc. }
  rewrite H. by destruct (comprehension _ lines).
Qed.

Lemma draw_Ok lines fig : draw is_color lines = Ok fig -> fig = lines.
Proof.
  rewrite draw_comprehension. intros Hfig%comprehension_Ok.
  induction Hfig as [|ln ln' lines fig [-> _]%plot_line_inv _ IH]; [done|].
  by rewrite IH.
Qed.

Lemma draw_is_Ok lines :
  is_Ok (draw is_color lines) <-> Forall (plottable is_color) lines.
Proof.
  rewrite draw_comprehension, comprehension_is_Ok.
  apply Forall_iff. intros ln. apply plot_line_is_Ok.
Qed.

Lemma draw_plottable lines :
  Forall (plottable is_color) lines -> draw is_color lines = Ok lines.
Proof.
  intros [fig Hfig]%draw_is_Ok. by rewrite Hfig, (draw_Ok _ _ Hfig).
Qed.

End BackendFacts.

(** ** The chart loops, country by country *)

Section ChartLoops.

Variable is_color : string -> bool.

(** A loop that draws one line for each element that passes a test. *)
Lemma for_each_lines {X} (P : X -> Prop) `{!forall x, Decision (P x)}
    (mk : X -> result line) (body : figure -> X -> result figure) l ax :
  (forall ax x, body ax x =
     if bool_decide (P x) then mk x ≫= fun ln => Ok (ax ++ [ln]) else Ok ax) ->
  for_each body l ax
  = comprehension mk (filter P l) ≫= fun lines => Ok (ax ++ lines).
Proof.
  intros Hbody. revert ax. induction l as [|x l IH]; intros ax; simpl.
  - by rewrite app_nil_r.
  - rewrite Hbody. destruct (decide (P x)) as [Hx|Hx].
    + rewrite bool_decide_eq_true_2, filter_cons_True by done. simpl.
      destruct (mk x) as [ln|e]; simpl; [|done].
      rewrite IH. destruct (comprehension mk (filter P l)); simpl; [|done].
      by rewrite <- app_assoc.
    + rewrite bool_decide_eq_false_2, filter_cons_False by done. simpl.
      apply IH.
Qed.

(** The same for the loop that also writes a message for the elements that
    fail the test. *)
Lemma for_each_lines_page {X} (P : X -> Prop) `{!forall x, Decision (P x)}
    (mk : X -> result line) (w : X -> st_event)
    (body : figure * list st_event -> X -> result (figure * list st_event))
    l ax page :
  (forall ax page x, body (ax, page) x =
     if bool_decide (P x) then mk x ≫= fun ln => Ok (ax ++ [ln], page)
     else Ok (ax, page ++ [w x])) ->
  for_each body l (ax, page)
  = comprehension mk (filter P l) ≫= fun lines =>
      Ok (ax ++ lines, page ++ (w <$> filter (fun x => ~ P x) l)).
Proof.
  intros Hbody. revert ax page. induction l as [|x l IH]; intros ax page; simpl.
  - by rewrite !app_nil_r.
  - rewrite Hbody. destruct (decide (P x)) as [Hx|Hx].
    + rewrite bool_decide_eq_true_2, (filter_cons_True P) by done.
      rewrite (filter_cons_False (fun x => ~ P x)) by tauto. simpl.
      destruct (mk x) as [ln|e]; simpl; [|done].
      rewrite IH. destruct (comprehension mk (filter P l)); simpl; [|done].
      by rewrite <- app_assoc.
    + rewrite bool_decide_eq_false_2, (filter_cons_False P) by done.
      rewrite (filter_cons_True (fun x => ~ P x)) by tauto. simpl.
      rewrite IH. destruct (comprehension mk (filter P l)); simpl; [|done].
      by rewrite <- app_assoc.
Qed.

(** A loop that appends one value per element. *)
Lemma for_each_append {X B} (f : X -> result B)
    (body : list B -> X -> result (list B)) l acc :
  (forall acc x, body acc x = f x ≫= fun v => Ok (acc ++ [v])) ->
  for_each body l acc = comprehension f l ≫= fun vs => Ok (acc ++ vs).
Proof.
  intros Hbody. revert acc. induction l as [|x l IH]; intros acc; simpl.
  - by rewrite app_nil_r.
  - rewrite Hbody. destruct (f x) as [v|e]; simpl; [|done].
    rewrite IH. destruct (comprehension f l); simpl; [|done].
    by rewrite <- app_assoc.
Qed.

Lemma plot_co2_emission_per_capita_lines co2_data countries_colors :
  plot_co2_emission_per_capita is_color co2_data countries_colors
  = comprehension (per_capita_line is_color co2_data)
      (present co2_data countries_colors).
Proof.
  unfold plot_co2_emission_per_capita, present.
  rewrite (for_each_lines (fun p => p.1 ∈ dom co2_data)
             (per_capita_line is_color co2_data)).
  - by destruct (comprehension _ _).
  - intros ax [country color]. simpl. case_bool_decide; [|done].
    unfold per_capita_line. simpl.
    destruct (getitem co2_data country); simpl; [|done].
    destruct (comprehension _ _); simpl; [|done].
    apply ax_plot_new_line.
Qed.

Lemma plot_co2_emission_change_change_lines co2_data countries_colors :
  plot_co2_emission_change_change is_color co2_data countries_colors
  = comprehension (change_change_line is_color co2_data)
      (present co2_data countries_colors).
Proof.
  unfold plot_co2_emission_change_change, present.
  rewrite (for_each_lines (fun p => p.1 ∈ dom co2_data)
             (change_change_line is_color co2_data)).
  - by destruct (comprehension _ _).
  - intros ax [country color]. simpl. case_bool_decide; [|done].
    unfold change_change_line. simpl.
    destruct (getitem co2_data country); simpl; [|done].
    destruct (comprehension _ _); simpl; [|done].
    destruct (differences _) as [fa|]; simpl; [|done].
    destruct (differences fa); simpl; [|done].
    apply ax_plot_new_line.
Qed.

Lemma plot_co2_emission_changes_lines co2_data countries_colors :
  plot_co2_emission_changes is_color co2_data countries_colors
  = comprehension (changes_line is_color co2_data)
      (present co2_data countries_colors)
    ≫= fun lines =>
      Ok (lines, (fun p => StWrite warnung p.1)
                   <$> filter (fun p => ~ p.1 ∈ dom co2_data) countries_colors).
Proof.
  unfold plot_co2_emission_changes, present.
  rewrite (for_each_lines_page (fun p => p.1 ∈ dom co2_data)
             (changes_line is_color co2_data) (fun p => StWrite warnung p.1));
    [done|].
  intros ax page [country color]. simpl. case_bool_decide; [|done].
  unfold changes_line. simpl.
  destruct (getitem co2_data country); simpl; [|done].
  destruct (comprehension _ _); simpl; [|done].
  destruct (differences _); simpl; [|done].
  rewrite ax_plot_new_line. by destruct (new_line _ _ _ _ _).
Qed.

Lemma plot_absolut_co2_emissions_lines co2_data pop_data countries_colors :
  plot_absolut_co2_emissions is_color co2_data pop_data countries_colors
  = comprehension (absolute_line is_color co2_data pop_data)
      (present2 co2_data pop_data countries_colors).
Proof.
  unfold plot_absolut_co2_emissions, present2.
  rewrite (for_each_lines
             (fun p => p.1 ∈ dom co2_data /\ Some p.1 ∈ dom pop_data)
             (absolute_line is_color co2_data pop_data)).
  - by destruct (comprehension _ _).
  - intros ax [country color]. simpl.
    rewrite <- bool_decide_and.
    case_bool_decide; [|done].
    destruct H as [[dc Hdc]%elem_of_dom [dp Hdp]%elem_of_dom].
    unfold absolute_line, getitem. simpl. rewrite Hdc, Hdp. simpl.
    rewrite (for_each_append (absolute_value co2_data pop_data country)).
    + simpl. destruct (comprehension _ _); simpl; [|done].
      apply ax_plot_new_line.
    + intros acc year. unfold absolute_value, getitem. rewrite Hdc, Hdp. simpl.
      destruct (dict_get of_float dc year), (dict_get of_int dp year); simpl;
        try done.
Qed.

End ChartLoops.

(** ** The line of one country *)

Section Lines.

Variable is_color : string -> bool.

(** Differences of a list whose elements subtract without error. *)
Lemma differences_closed (P : value -> Prop) (l : list value) :
  (forall a b, P a -> P b -> exists v, sub a b = Ok v /\ P v) ->
  Forall P l ->
  exists ds, differences l = Ok ds
    /\ length ds = pred (length l)
    /\ Forall P ds
    /\ (forall i a b, l !! S i = Some a -> l !! i = Some b ->
          exists v, sub a b = Ok v /\ ds !! i = Some v).
Proof.
  intros Hsub Hl.
  destruct (comprehension_spec
    (fun i => a ← index l i; b ← index l (i - 1); sub a b)
    (fun i v => P v /\ exists a b, l !! i = Some a /\ l !! (i - 1)%nat = Some b
                       /\ sub a b = Ok v)
    (range1 (length l))) as (ds & Hds & Hrel).
  { intros i [Hi1 Hi2]%elem_of_seq.
    destruct (lookup_lt_is_Some_2 l i) as [a Ha]; [lia|].
    destruct (lookup_lt_is_Some_2 l (i - 1)) as [b Hb]; [lia|].
    destruct (Hsub a b) as (v & Hv & HP).
    { eapply Forall_forall; [done|]. by eapply list_elem_of_lookup_2. }
    { eapply Forall_forall; [done|]. by eapply list_elem_of_lookup_2. }
    exists v. unfold index. rewrite Ha, Hb. simpl. eauto 10. }
  exists ds. split; [done|].
  pose proof (Forall2_length _ _ _ Hrel) as Hlen.
  unfold range1 in Hlen. rewrite length_seq in Hlen.
  split; [lia|]. split.
  - apply Forall_forall. intros v (i & Hi)%list_elem_of_lookup_1.
    destruct (Forall2_lookup_r _ _ _ _ _ Hrel Hi) as (? & _ & ? & _). done.
  - intros i a b Ha Hb.
    assert (i < length ds)%nat as Hi.
    { apply lookup_lt_Some in Ha. lia. }
    destruct (lookup_lt_is_Some_2 ds i Hi) as [v Hv].
    destruct (Forall2_lookup_r _ _ _ _ _ Hrel Hv) as (j & Hj & _ & a' & b' & Ha' & Hb' & Hs).
    unfold range1 in Hj. apply lookup_seq in Hj as [-> _].
    replace (1 + i - 1)%nat with i in Hb' by lia. simpl in Ha'.
    exists v. split; [congruence|done].
Qed.

Lemma sub_numbers a b :
  is_number a -> is_number b -> exists v, sub a b = Ok v /\ is_number v.
Proof.
  intros [[f ->]| ->] [[g ->]| ->]; eexists; (split; [reflexivity|]);
    unfold is_number; eauto.
Qed.

Lemma sub_floats a b :
  (exists f, a = VFloat f) -> (exists f, b = VFloat f) ->
  exists v, sub a b = Ok v /\ exists f, v = VFloat f.
Proof. intros [f ->] [g ->]. eexists. split; [reflexivity|eauto]. Qed.

Lemma getitem2_series co2_data country d year :
  co2_data !! country = Some d -> is_Some (d !! year) ->
  getitem2 co2_data country year = Ok (dict_get of_float d year).
Proof.
  intros Hd [v Hv]. unfold getitem2, getitem, dict_get. by rewrite Hd; simpl; rewrite Hv.
Qed.

Lemma series_values_float_or_none d : Forall float_or_none (series_values d).
Proof.
  apply Forall_fmap, Forall_forall. intros y _. simpl.
  unfold dict_get, float_or_none. destruct (d !! y) as [[f|]|]; simpl; eauto.
Qed.

Lemma sorted_keys_fits {V} (d : gmap Z V) :
  Forall fits (sorted_keys d) <-> forall y, is_Some (d !! y) -> fits y.
Proof.
  rewrite Forall_forall. by setoid_rewrite sorted_keys_elem_of.
Qed.

(** A line whose values convert: the backend accepts it when the color is a
    color and the years convert. *)
Lemma plottable_line x y label color :
  length x = length y -> Forall (fun v => is_Ok (to_float v)) y ->
  plottable is_color (Line x y label color)
  <-> is_color color = true /\ Forall fits x.
Proof. intros Hlen Hy. unfold plottable. simpl. tauto. Qed.

Lemma per_capita_line_spec co2_data country color d :
  co2_data !! country = Some d ->
  per_capita_line is_color co2_data (country, color)
  = new_line is_color (sorted_keys d) (series_values d) country color.
Proof.
  intros Hd. unfold per_capita_line, getitem. simpl. rewrite Hd. simpl.
  rewrite (comprehension_fmap _ (dict_get of_float d)); [done|].
  intros y Hy%sorted_keys_elem_of. by apply getitem2_series.
Qed.

Lemma series_values_plottable d country color :
  plottable is_color (Line (sorted_keys d) (series_values d) country color)
  <-> is_color color = true /\ forall y, is_Some (d !! y) -> fits y.
Proof.
  rewrite plottable_line, sorted_keys_fits; [done|..].
  - unfold series_values. by rewrite length_fmap.
  - eapply Forall_impl; [apply series_values_float_or_none|].
    apply to_float_float_or_none.
Qed.

Lemma coerced_values co2_data country d :
  co2_data !! country = Some d ->
  comprehension (fun year =>
    v ← getitem2 co2_data country year;
    match v with
    | VNone => Ok (VInt 0)
    | _ => getitem2 co2_data country year
    end) (sorted_keys d)
  = Ok (coerced d <$> sorted_keys d).
Proof.
  intros Hd. apply comprehension_fmap.
  intros y Hy%sorted_keys_elem_of.
  rewrite (getitem2_series _ _ d) by done. simpl.
  destruct Hy as [v Hv]. unfold coerced, dict_get. rewrite Hv.
  by destruct v.
Qed.

Lemma coerced_is_number d year : is_number (coerced d year).
Proof.
  unfold coerced, is_number. destruct (d !! year) as [[f|]|]; eauto.
Qed.

Lemma changes_line_spec co2_data country color d :
  co2_data !! country = Some d ->
  exists ys, changes_line is_color co2_data (country, color)
             = new_line is_color (drop 1 (sorted_keys d)) ys country color
    /\ length ys = length (drop 1 (sorted_keys d))
    /\ Forall is_number ys
    /\ (forall i y y', sorted_keys d !! S i = Some y ->
          sorted_keys d !! i = Some y' ->
          exists v, sub (coerced d y) (coerced d y') = Ok v /\ ys !! i = Some v).
Proof.
  intros Hd. unfold changes_line, getitem. simpl. rewrite Hd. simpl.
  rewrite (coerced_values _ _ _ Hd). simpl.
  destruct (differences_closed is_number (coerced d <$> sorted_keys d))
    as (ds & -> & Hlen & Hnum & Hds).
  { apply sub_numbers. }
  { apply Forall_fmap, Forall_forall. intros y _. apply coerced_is_number. }
  rewrite length_fmap in Hlen.
  assert (length ds = length (drop 1 (sorted_keys d))) as Hlen'.
  { rewrite length_drop. lia. }
  exists ds. simpl. split; [done|]. split; [done|]. split; [done|].
  intros i y y' Hy Hy'. apply Hds; rewrite list_lookup_fmap.
  - by rewrite Hy.
  - by rewrite Hy'.
Qed.

Lemma absolute_value_series (co2_data : table float)
    (pop_data : population_table) country dc dp year :
  co2_data !! country = Some dc -> pop_data !! Some country = Some dp ->
  absolute_value co2_data pop_data country year
  = match dc !! year, dp !! year with
    | Some (Some e), Some (Some n) => mul (VFloat e) (VInt n)
    | _, _ => Ok VNone
    end.
Proof.
  intros Hdc Hdp. unfold absolute_value, getitem, dict_get.
  rewrite Hdc, Hdp. simpl.
  by destruct (dc !! year) as [[e|]|], (dp !! year) as [[n|]|].
Qed.

Lemma common_years_elem_of {V W} (dc : gmap Z V) (dp : gmap Z W) y :
  y ∈ sorted_int (elements (dom dc ∩ dom dp))
  <-> is_Some (dc !! y) /\ is_Some (dp !! y).
Proof.
  unfold sorted_int.
  by rewrite merge_sort_elem_of, elem_of_elements, elem_of_intersection,
    !elem_of_dom.
Qed.

Lemma common_years_fits {V W} (dc : gmap Z V) (dp : gmap Z W) :
  Forall fits (sorted_int (elements (dom dc ∩ dom dp)))
  <-> forall y, is_Some (dc !! y) -> is_Some (dp !! y) -> fits y.
Proof.
  rewrite Forall_forall. setoid_rewrite common_years_elem_of.
  split; [intros H y ? ?; by apply H|intros H y [? ?]; by apply H].
Qed.

(** The product of a float and an integer. *)
Lemma mul_float_int e n f :
  int_to_float n = Ok f -> mul (VFloat e) (VInt n) = Ok (VFloat (e * f)).
Proof. intros Hf. unfold mul. simpl. by rewrite Hf. Qed.

Lemma mul_float_int_is_Ok e n :
  is_Ok (mul (VFloat e) (VInt n)) <-> fits n.
Proof.
  unfold mul, fits. simpl. destruct (int_to_float n) as [f|err]; simpl.
  - split; intros _; by eexists.
  - split; intros [? [=]].
Qed.

Lemma absolute_line_spec (co2_data : table float)
    (pop_data : population_table) country color dc dp :
  co2_data !! country = Some dc -> pop_data !! Some country = Some dp ->
  (forall y e n, dc !! y = Some (Some e) -> dp !! y = Some (Some n) -> fits n) ->
  exists ys, absolute_line is_color co2_data pop_data (country, color)
             = new_line is_color (sorted_int (elements (dom dc ∩ dom dp))) ys
                 country color
    /\ length ys = length (sorted_int (elements (dom dc ∩ dom dp)))
    /\ Forall float_or_none ys
    /\ (forall i y, sorted_int (elements (dom dc ∩ dom dp)) !! i = Some y ->
          match dc !! y, dp !! y with
          | Some (Some e), Some (Some n) =>
              exists v, mul (VFloat e) (VInt n) = Ok v /\ ys !! i = Some v
          | _, _ => ys !! i = Some VNone
          end).
Proof.
  intros Hdc Hdp Hfit. unfold absolute_line, getitem. simpl.
  rewrite Hdc, Hdp. simpl.
  set (years := sorted_int (elements (dom dc ∩ dom dp))).
  destruct (comprehension_spec (absolute_value co2_data pop_data country)
    (fun y v => float_or_none v
                /\ match dc !! y, dp !! y with
                   | Some (Some e), Some (Some n) => mul (VFloat e) (VInt n) = Ok v
                   | _, _ => v = VNone
                   end) years) as (ys & -> & Hrel).
  { intros y _. rewrite (absolute_value_series _ _ _ dc dp) by done.
    destruct (dc !! y) as [[e|]|] eqn:He, (dp !! y) as [[n|]|] eqn:Hn;
      try (exists VNone; split; [done|]; split; [by left|done]).
    destruct (Hfit y e n He Hn) as [f Hf].
    rewrite (mul_float_int e n f Hf).
    eexists. split; [done|]. split; [right; by eexists|done]. }
  pose proof (Forall2_length _ _ _ Hrel) as Hlen.
  exists ys. simpl. split; [done|]. split; [done|]. split.
  - apply Forall_forall. intros v (i & Hi)%list_elem_of_lookup_1.
    by destruct (Forall2_lookup_r _ _ _ _ _ Hrel Hi) as (? & _ & ? & _).
  - intros i y Hy.
    destruct (Forall2_lookup_l _ _ _ _ _ Hrel Hy) as (v & Hv & _ & HQ).
    destruct (dc !! y) as [[e|]|], (dp !! y) as [[n|]|]; subst; eauto.
Qed.

Lemma change_change_line_spec co2_data country color d :
  co2_data !! country = Some d ->
  (forall y v, d !! y = Some v -> is_Some v) ->
  exists ds ys, change_change_line is_color co2_data (country, color)
                = new_line is_color (drop 2 (sorted_keys d)) ys country color
    /\ differences (series_values d) = Ok ds
    /\ differences ds = Ok ys
    /\ length ys = length (drop 2 (sorted_keys d))
    /\ Forall (fun v => exists f, v = VFloat f) ys
    /\ (forall i a b c, series_values d !! S (S i) = Some (VFloat a) ->
          series_values d !! S i = Some (VFloat b) ->
          series_values d !! i = Some (VFloat c) ->
          ys !! i = Some (VFloat ((a - b) - (b - c)))).
Proof.
  intros Hd Hpresent. unfold change_change_line, getitem. simpl. rewrite Hd. simpl.
  rewrite (comprehension_fmap _ (dict_get of_float d)).
  2:{ intros y Hy%sorted_keys_elem_of. by apply getitem2_series. }
  simpl. fold (series_values d).
  destruct (differences_closed (fun v => exists f, v = VFloat f) (series_values d))
    as (ds & Hds & Hlen & Hfl & Hdiff).
  { apply sub_floats. }
  { apply Forall_fmap, Forall_forall. intros y Hy%sorted_keys_elem_of.
    destruct Hy as [v Hv]. destruct (Hpresent y v Hv) as [f ->].
    exists f. simpl. unfold dict_get. by rewrite Hv. }
  destruct (differences_closed (fun v => exists f, v = VFloat f) ds)
    as (ys & Hys & Hlen' & Hfl' & Hdiff'); [apply sub_floats|done|].
  rewrite Hds. simpl. rewrite Hys. simpl.
  unfold series_values in Hlen. rewrite length_fmap in Hlen.
  assert (length ys = length (drop 2 (sorted_keys d))) as Hlen2.
  { rewrite length_drop. lia. }
  exists ds, ys. repeat split; [done..|].
  intros i a b c Ha Hb Hc.
  destruct (Hdiff _ _ _ Ha Hb) as (v1 & [= <-] & Hv1).
  destruct (Hdiff _ _ _ Hb Hc) as (v0 & [= <-] & Hv0).
  destruct (Hdiff' _ _ _ Hv1 Hv0) as (v & [= <-] & Hv). done.
Qed.

(** ** A chart function returns when each of its lines is accepted *)

Lemma present_key {V} (d : table V) countries_colors p :
  p ∈ present d countries_colors -> exists s, d !! p.1 = Some s.
Proof.
  unfold present. intros [Hp _]%list_elem_of_filter. by apply elem_of_dom in Hp.
Qed.

Lemma present2_keys {V} (d1 : table V) (d2 : population_table)
    countries_colors p :
  p ∈ present2 d1 d2 countries_colors ->
  p ∈ countries_colors
  /\ exists s1 s2, d1 !! p.1 = Some s1 /\ d2 !! Some p.1 = Some s2.
Proof.
  unfold present2.
  intros [[[s1 H1]%elem_of_dom [s2 H2]%elem_of_dom] Hin]%list_elem_of_filter.
  eauto.
Qed.

Lemma chart_is_Ok {V} (d : table V) (mk : string * string -> result line)
    countries_colors (C : string -> string -> series V -> Prop) :
  (forall country color s, d !! country = Some s ->
     is_Ok (mk (country, color)) <-> C country color s) ->
  is_Ok (comprehension mk (present d countries_colors))
  <-> forall country color s, (country, color) ∈ countries_colors ->
        d !! country = Some s -> C country color s.
Proof.
  intros Hmk. rewrite comprehension_is_Ok, Forall_forall. split.
  - intros Hall country color s Hin Hs. apply (Hmk _ _ _ Hs), Hall.
    apply list_elem_of_filter. split; [|done].
    simpl. apply elem_of_dom. by rewrite Hs.
  - intros Hall [country color] [[s Hs]%elem_of_dom Hin]%list_elem_of_filter.
    simpl in Hs. apply (Hmk _ _ _ Hs). by apply Hall.
Qed.

Lemma chart2_is_Ok {V} (d1 : table V) (d2 : population_table)
    (mk : string * string -> result line) countries_colors
    (C : string -> string -> series V -> series Z -> Prop) :
  (forall country color s1 s2, d1 !! country = Some s1 ->
     d2 !! Some country = Some s2 ->
     is_Ok (mk (country, color)) <-> C country color s1 s2) ->
  is_Ok (comprehension mk (present2 d1 d2 countries_colors))
  <-> forall country color s1 s2, (country, color) ∈ countries_colors ->
        d1 !! country = Some s1 -> d2 !! Some country = Some s2 ->
        C country color s1 s2.
Proof.
  intros Hmk. rewrite comprehension_is_Ok, Forall_forall. split.
  - intros Hall country color s1 s2 Hin Hs1 Hs2.
    apply (Hmk _ _ _ _ Hs1 Hs2), Hall.
    apply list_elem_of_filter. split; [|done].
    simpl. split; apply elem_of_dom; [by rewrite Hs1|by rewrite Hs2].
  - intros Hall [country color] (Hin & s1 & s2 & Hs1 & Hs2)%present2_keys.
    simpl in Hs1, Hs2. apply (Hmk _ _ _ _ Hs1 Hs2). by apply Hall.
Qed.

Lemma changes_line_is_Ok co2_data country color d :
  co2_data !! country = Some d ->
  is_Ok (changes_line is_color co2_data (country, color))
  <-> is_color color = true /\ Forall fits (drop 1 (sorted_keys d)).
Proof.
  intros Hd. destruct (changes_line_spec _ _ color _ Hd) as (ys & -> & Hlen & Hnum & _).
  rewrite new_line_is_Ok. apply plottable_line; [done|].
  eapply Forall_impl; [done|]. apply to_float_number.
Qed.

Lemma per_capita_line_is_Ok co2_data country color d :
  co2_data !! country = Some d ->
  is_Ok (per_capita_line is_color co2_data (country, color))
  <-> is_color color = true /\ forall y, is_Some (d !! y) -> fits y.
Proof.
  intros Hd. rewrite (per_capita_line_spec _ _ _ _ Hd), new_line_is_Ok.
  apply series_values_plottable.
Qed.

Lemma plot_co2_emission_changes_is_Ok co2_data countries_colors :
  is_Ok (plot_co2_emission_changes is_color co2_data countries_colors)
  <-> forall country color d, (country, color) ∈ countries_colors ->
        co2_data !! country = Some d ->
        is_color color = true /\ Forall fits (drop 1 (sorted_keys d)).
Proof.
  rewrite plot_co2_emission_changes_lines.
  rewrite <- (chart_is_Ok co2_data (changes_line is_color co2_data)
    countries_colors (fun country color d =>
      is_color color = true /\ Forall fits (drop 1 (sorted_keys d)))).
  - destruct (comprehension _ _) as [lines|e]; simpl.
    + split; intros _; by eexists.
    + split; intros [? [=]].
  - intros country color d Hd. by apply changes_line_is_Ok.
Qed.

Lemma plot_co2_emission_per_capita_is_Ok co2_data countries_colors :
  is_Ok (plot_co2_emission_per_capita is_color co2_data countries_colors)
  <-> forall country color d, (country, color) ∈ countries_colors ->
        co2_data !! country = Some d ->
        is_color color = true /\ forall y, is_Some (d !! y) -> fits y.
Proof.
  rewrite plot_co2_emission_per_capita_lines.
  apply (chart_is_Ok co2_data (per_capita_line is_color co2_data)).
  intros country color d Hd. by apply per_capita_line_is_Ok.
Qed.

(** ** The series derivation: claims *)


End Lines.

Section AbsoluteSeries.

Variable is_color : string -> bool.

(** C5, amended: for every selected country that is a key of both tables, and
    provided every population that meets a present emissions value converts to
    a float, the absolute chart computes a line over the sorted years that are
    keys of both series; at each such year the value is the product of the
    emissions and the population when both are present and the absent value
    otherwise; years that are keys of one series only are not in the line.
    The chart hands these lines to [ax.plot] in selection order, and returns
    their figure when the backend accepts them: the colors are colors and the
    common years convert to floats. *)
Theorem C5_absolute_series (co2_data : table float) (pop_data : population_table)
    (countries_colors : list (string * string)) :
  (forall country color dc dp y e n,
     (country, color) ∈ countries_colors ->
     co2_data !! country = Some dc -> pop_data !! Some country = Some dp ->
     dc !! y = Some (Some e) -> dp !! y = Some (Some n) ->
     fits n) ->
  exists lines,
    Forall2 (fun p ln => exists dc dp,
          co2_data !! p.1 = Some dc /\ pop_data !! Some p.1 = Some dp
          /\ line_label ln = p.1 /\ line_color ln = p.2
          /\ StronglySorted Z.lt (line_x ln)
          /\ (forall y, y ∈ line_x ln <-> is_Some (dc !! y) /\ is_Some (dp !! y))
          /\ length (line_y ln) = length (line_x ln)
          /\ (forall i y, line_x ln !! i = Some y ->
                match dc !! y, dp !! y with
                | Some (Some e), Some (Some n) =>
                    exists v, mul (VFloat e) (VInt n) = Ok v
                              /\ line_y ln !! i = Some v
                | _, _ => line_y ln !! i = Some VNone
                end))
        (present2 co2_data pop_data countries_colors) lines
    /\ plot_absolut_co2_emissions is_color co2_data pop_data countries_colors
       = draw is_color lines
    /\ ((forall country color dc dp, (country, color) ∈ countries_colors ->
           co2_data !! country = Some dc -> pop_data !! Some country = Some dp ->
           is_color color = true
           /\ forall y, is_Some (dc !! y) -> is_Some (dp !! y) -> fits y) ->
        plot_absolut_co2_emissions is_color co2_data pop_data countries_colors
        = Ok lines).
Proof.
  intros Hfit.
  destruct (Forall2_exists
    (fun p ln => (exists dc dp,
       co2_data !! p.1 = Some dc /\ pop_data !! Some p.1 = Some dp
       /\ line_label ln = p.1 /\ line_color ln = p.2
       /\ StronglySorted Z.lt (line_x ln)
       /\ (forall y, y ∈ line_x ln <-> is_Some (dc !! y) /\ is_Some (dp !! y))
       /\ length (line_y ln) = length (line_x ln)
       /\ (forall i y, line_x ln !! i = Some y ->
             match dc !! y, dp !! y with
             | Some (Some e), Some (Some n) =>
                 exists v, mul (VFloat e) (VInt n) = Ok v
                           /\ line_y ln !! i = Some v
             | _, _ => line_y ln !! i = Some VNone
             end))
       /\ Forall float_or_none (line_y ln)
       /\ p ∈ countries_colors
       /\ absolute_line is_color co2_data pop_data p = plot_line is_color ln)
    (present2 co2_data pop_data countries_colors)) as (lines & Hlines).
  { intros [country color] (Hin & dc & dp & Hdc & Hdp)%present2_keys.
    simpl in Hdc, Hdp.
    destruct (absolute_line_spec is_color _ _ country color dc dp Hdc Hdp)
      as (ys & Heq & Hlen & Hfl & Hys).
    { intros y e n He Hn. by eapply Hfit. }
    exists (Line (sorted_int (elements (dom dc ∩ dom dp))) ys country color).
    split; [|done]. exists dc, dp. simpl.
    split; [done|]. split; [done|]. split; [done|]. split; [done|].
    split; [apply sorted_int_lt, NoDup_elements|].
    split; [apply common_years_elem_of|]. by split. }
  assert (comprehension (absolute_line is_color co2_data pop_data)
            (present2 co2_data pop_data countries_colors) = draw is_color lines)
    as Hdraw.
  { rewrite draw_comprehension. apply comprehension_Forall2.
    eapply Forall2_impl; [done|]. by intros p ln (_ & _ & _ & ?). }
  exists lines.
  split; [eapply Forall2_impl; [done|]; by intros p ln [? _]|].
  split; [by rewrite plot_absolut_co2_emissions_lines|].
  intros Hback. rewrite plot_absolut_co2_emissions_lines, Hdraw.
  apply draw_plottable, Forall_forall. intros ln (k & Hk)%list_elem_of_lookup_1.
  destruct (Forall2_lookup_r _ _ _ _ _ Hlines Hk)
    as ([country color] & _ & (dc & dp & Hdc & Hdp & _ & Hcolor & _ & Hx & Hlen & _)
        & Hfl & Hin & _).
  simpl in *. destruct (Hback country color dc dp Hin Hdc Hdp) as [Hc Hyears].
  repeat split; [done|by rewrite Hcolor| |].
  - apply Forall_forall. intros y [? ?]%Hx. by apply Hyears.
  - eapply Forall_impl; [done|]. apply to_float_float_or_none.
Qed.

End AbsoluteSeries.

(** C5, as stated, fails on a population beyond the range of floats: the
    multiplication raises and no series is drawn.  A year beyond that range
    makes the backend refuse the line. *)
Lemma C5_absolute_series_overflow :
  plot_absolut_co2_emissions PyText.cycle_color Scenario.co2_data
    Scenario.huge_pop_data Scenario.poland
  = Raise OverflowError
  /\ plot_absolut_co2_emissions PyText.cycle_color Scenario.huge_year_data
       Scenario.huge_year_pop_data Scenario.poland
     = Raise OverflowError.
Proof. split; vm_compute; reflexivity. Qed.

Lemma C5_absolute_series_witness :
  is_Ok (plot_absolut_co2_emissions PyText.cycle_color Scenario.co2_data
           Scenario.pop_data Scenario.poland).
Proof.
  destruct (C5_absolute_series PyText.cycle_color Scenario.co2_data
              Scenario.pop_data Scenario.poland) as (lines & _ & _ & Hok).
  - intros country color dc dp y e n _ _ Hdp _ Hn.
    unfold Scenario.pop_data in Hdp.
    apply lookup_singleton_Some in Hdp as [_ <-].
    apply lookup_insert_Some in Hn as [[_ [= <-]]|[_ Hn]].
    + eexists. vm_compute. reflexivity.
    + apply lookup_singleton_Some in Hn as [_ [= <-]].
      eexists. vm_compute. reflexivity.
  - exists lines. apply Hok. intros country color dc dp Hin _ Hdp.
    apply list_elem_of_singleton in Hin as [= -> ->]. split; [reflexivity|].
    intros y _ [n Hn]. unfold Scenario.pop_data in Hdp.
    apply lookup_singleton_Some in Hdp as [_ <-].
    apply lookup_insert_Some in Hn as [[<- _]|[_ Hn]].
    + eexists. vm_compute. reflexivity.
    + apply lookup_singleton_Some in Hn as [<- _].
      eexists. vm_compute. reflexivity.
Defined.

(** C2, amended: on the scenario, the reader builds the two tables; the
    per-capita series is 8.5 at 2019 and absent at 2020; the absolute series
    is 323,000,000.0 at 2019 and absent at 2020 (the year is drawn, with the
    absent value); the first-difference series is -8.5 at 2020. *)
Theorem C2_scenario :
  CO2Charts.lese_energy PyText.strip PyText.int Scenario.energy_rows
    = Ok Scenario.pop_data
  /\ CO2Charts.lese_emissionen PyText.strip PyText.int PyText.float
       (CountryList ["Poland"]) Scenario.co2_rows
    = Ok Scenario.co2_data
  /\ plot_co2_emission_per_capita PyText.cycle_color Scenario.co2_data
       Scenario.poland
    = Ok [Line [2019; 2020] [VFloat 8.5; VNone] "Poland" "C0"]
  /\ plot_absolut_co2_emissions PyText.cycle_color Scenario.co2_data
       Scenario.pop_data Scenario.poland
    = Ok [Line [2019; 2020] [VFloat 323000000; VNone] "Poland" "C0"]
  /\ plot_co2_emission_changes PyText.cycle_color Scenario.co2_data
       Scenario.poland
    = Ok ([Line [2020] [VFloat (-8.5)] "Poland" "C0"], []).
Proof. repeat split; vm_compute; reflexivity. Qed.

(** C2, as stated, fails on the absolute series: the scenario's tables, as
    read from its rows, give a line with the two years 2019 and 2020, the
    second with the absent value. *)
Lemma C2_absolute_series_keeps_2020 :
  CO2Charts.lese_energy PyText.strip PyText.int Scenario.energy_rows
    = Ok Scenario.pop_data
  /\ CO2Charts.lese_emissionen PyText.strip PyText.int PyText.float
       (CountryList ["Poland"]) Scenario.co2_rows
    = Ok Scenario.co2_data
  /\ exists ln,
       plot_absolut_co2_emissions PyText.cycle_color Scenario.co2_data
         Scenario.pop_data Scenario.poland
       = Ok [ln]
       /\ line_x ln = [2019; 2020]
       /\ line_y ln = [VFloat 323000000; VNone]
       /\ bool_decide (line_x ln = [2019]) = false.
Proof.
  split; [vm_compute; reflexivity|]. split; [vm_compute; reflexivity|].
  eexists. split; [vm_compute; reflexivity|]. by simpl.
Qed.

(** C1: the second-difference chart does not coerce absent values.  On the
    scenario table, and on a series with a gap between two values, it raises
    [TypeError], where the first-difference chart draws its line; so does
    [main] on the scenario. *)
Theorem C1_second_difference_raises_on_absent :
  plot_co2_emission_change_change PyText.cycle_color Scenario.gap_data
    Scenario.poland
    = Raise TypeError
  /\ plot_co2_emission_changes PyText.cycle_color Scenario.gap_data
       Scenario.poland
    = Ok ([Line [2020; 2021] [VFloat (-8.5); VFloat 7] "Poland" "C0"], [])
  /\ plot_co2_emission_change_change PyText.cycle_color Scenario.co2_data
       Scenario.poland
    = Raise TypeError
  /\ main PyText.strip PyText.int PyText.float PyText.cycle_color ["C0"]
       ["Poland"] Scenario.co2_rows_listed Scenario.energy_rows
    = Raise TypeError.
Proof. repeat split; vm_compute; reflexivity. Qed.

(** ** The reader on concrete sources *)

Lemma C7_get_available_countries_witness :
  exists l,
    CO2Charts.get_available_countries Scenario.atlantis_rows = Ok (Some <$> l)
    /\ StronglySorted (strict String.le) l
    /\ NoDup l
    /\ "Atlantis" ∈ l.
Proof.
  destruct (C7_get_available_countries_sorted Scenario.atlantis_rows)
    as (l & Hl & Hsorted & Hnd & Hin & _).
  - repeat constructor; by eexists.
  - exists l. split; [exact Hl|]. split; [exact Hsorted|]. split; [exact Hnd|].
    apply Hin. exists (co2_line "Atlantis" "n/a" "1.5"). split; [left|reflexivity].
Defined.

Lemma C6_lese_emissionen_witness :
  exists t,
    CO2Charts.lese_emissionen PyText.strip PyText.int PyText.float
      (CountryList ["Atlantis"; "Poland"]) Scenario.co2_rows = Ok t
    /\ t !! "Atlantis" = Some ∅
    /\ is_Some (t !! "Poland")
    /\ entry_at t "Poland" 2019 = Some (Some 8.5%float).
Proof.
  destruct (C6_lese_emissionen_requested_keys PyText.strip PyText.int PyText.float
              (CountryList ["Atlantis"; "Poland"]) Scenario.co2_rows)
    as (t & Ht & Hkeys & Hempty & _ & Hlast & _).
  - repeat constructor; intros c _ _; eexists; (split; [reflexivity|]);
      intros _; by eexists.
  - exists t. split; [exact Ht|]. split; [|split].
    + apply Hempty; [left|].
      intros row [->|Hin]%elem_of_cons; [discriminate|].
      apply list_elem_of_singleton in Hin as ->. discriminate.
    + apply Hkeys. right. left.
    + apply (Hlast [] (co2_line "Poland" "2019" "8.5")
               [co2_line "Poland" "2020" ""] "Poland" 2019 (Some 8.5%float)).
      * reflexivity.
      * right. left.
      * reflexivity.
      * vm_compute. reflexivity.
      * vm_compute. reflexivity.
      * intros r ->%list_elem_of_singleton _. vm_compute. discriminate.
Defined.

Lemma C9_last_write_wins_witness :
  exists t s,
    CO2Charts.lese_energy PyText.strip PyText.int
      ([energy_line "Poland" "2019" "1"] ++ energy_line "Poland" "2019" "2" :: [])
    = Ok t
    /\ t !! Some "Poland" = Some s
    /\ filter (fun kv => kv.1 = 2019) (map_to_list s) = [(2019, Some 2)].
Proof.
  destruct (C9_last_write_wins PyText.strip PyText.int PyText.float)
    as (Hpop & _).
  apply (Hpop [energy_line "Poland" "2019" "1"] (energy_line "Poland" "2019" "2")
           [] 2019 (Some 2)).
  - repeat constructor; eexists; (split; [reflexivity|]); intros _; by eexists.
  - vm_compute. reflexivity.
  - vm_compute. reflexivity.
  - intros r Hr. by apply elem_of_nil in Hr.
Defined.

Lemma C10_listed_without_data_witness :
  (exists l, CO2Charts.get_available_countries Scenario.atlantis_rows
             = Ok (Some <$> l) /\ "Atlantis" ∈ l)
  /\ CO2Charts.lese_emissionen PyText.strip PyText.int PyText.float
       (CountryList ["Atlantis"]) Scenario.atlantis_rows
     = Ok {[ "Atlantis" := ∅ ]}
  /\ CO2Charts.lese_emissionen PyText.strip PyText.int PyText.float
       (CountryStr "Atlantis") Scenario.atlantis_rows
     = Ok {[ "Atlantis" := ∅ ]}.
Proof.
  apply (C10_listed_without_data PyText.strip PyText.int PyText.float
           Scenario.atlantis_rows "Atlantis").
  - repeat constructor; by eexists.
  - exists (co2_line "Atlantis" "n/a" "1.5"). split; [left|reflexivity].
  - intros row [->|Hin]%elem_of_cons Heq; [vm_compute; reflexivity|].
    apply elem_of_cons in Hin as [->|Hin]; [discriminate|].
    apply list_elem_of_singleton in Hin as ->. discriminate.
Defined.

(** ** The second-difference chart on series with and without absent values *)

Section SecondDifference.

Variable is_color : string -> bool.

Lemma sub_float_or_none a b :
  float_or_none a -> float_or_none b ->
  (exists v, sub a b = Ok v /\ exists f, v = VFloat f)
  \/ sub a b = Raise TypeError.
Proof. intros [->|[f ->]] [->|[g ->]]; eauto. Qed.

Lemma sub_none_r a : float_or_none a -> sub a VNone = Raise TypeError.
Proof. by intros [->|[f ->]]. Qed.

Lemma differences_step (l : list value) i a b :
  l !! i = Some a -> l !! (i - 1)%nat = Some b ->
  (a ← index l i; b ← index l (i - 1); sub a b) = sub a b.
Proof. intros Ha Hb. unfold index. by rewrite Ha, Hb. Qed.

Lemma differences_float_or_none (l : list value) :
  Forall float_or_none l ->
  (exists ds, differences l = Ok ds /\ Forall (fun v => exists f, v = VFloat f) ds)
  \/ differences l = Raise TypeError.
Proof.
  intros Hl. unfold differences.
  destruct (comprehension_dichotomy
    (fun i => a ← index l i; b ← index l (i - 1); sub a b)
    (fun v => exists f, v = VFloat f) TypeError (range1 (length l)))
    as [(ds & Hds & Hfl & _)|Hraise]; [|left; eauto|by right].
  intros i [Hi1 Hi2]%elem_of_seq.
  destruct (lookup_lt_is_Some_2 l i) as [a Ha]; [lia|].
  destruct (lookup_lt_is_Some_2 l (i - 1)) as [b Hb]; [lia|].
  rewrite (differences_step l i a b Ha Hb).
  apply sub_float_or_none.
  - eapply Forall_forall; [done|]. by eapply list_elem_of_lookup_2.
  - eapply Forall_forall; [done|]. by eapply list_elem_of_lookup_2.
Qed.

Lemma differences_raises (l : list value) :
  Forall float_or_none l -> (2 <= length l)%nat -> VNone ∈ l ->
  differences l = Raise TypeError.
Proof.
  intros Hl Hlen (j & Hj)%list_elem_of_lookup_1.
  pose proof (lookup_lt_Some _ _ _ Hj) as Hjlen.
  assert (forall i, (1 <= i < length l)%nat ->
    exists a b, l !! i = Some a /\ l !! (i - 1)%nat = Some b
      /\ float_or_none a /\ float_or_none b) as Hpair.
  { intros i Hi.
    destruct (lookup_lt_is_Some_2 l i) as [a Ha]; [lia|].
    destruct (lookup_lt_is_Some_2 l (i - 1)) as [b Hb]; [lia|].
    exists a, b. repeat split; [done..| |].
    - eapply Forall_forall; [done|]. by eapply list_elem_of_lookup_2.
    - eapply Forall_forall; [done|]. by eapply list_elem_of_lookup_2. }
  unfold differences.
  apply (comprehension_raises _ _ _ (if decide (j = 0%nat) then 1%nat else j)).
  - intros i [Hi1 Hi2]%elem_of_seq.
    destruct (Hpair i) as (a & b & Ha & Hb & Hfa & Hfb); [lia|].
    rewrite (differences_step l i a b Ha Hb).
    destruct (sub_float_or_none a b Hfa Hfb) as [(v & Hv & _)|?]; [left|by right].
    by exists v.
  - apply elem_of_seq. destruct (decide (j = 0%nat)); lia.
  - destruct (decide (j = 0%nat)) as [->|Hne].
    + destruct (Hpair 1%nat) as (a & b & Ha & Hb & Hfa & _); [lia|].
      rewrite (differences_step l 1 a b Ha Hb).
      simpl in Hb. rewrite Hj in Hb. injection Hb as <-. by apply sub_none_r.
    + destruct (Hpair j) as (a & b & Ha & Hb & _); [lia|].
      rewrite (differences_step l j a b Ha Hb).
      rewrite Hj in Ha. by injection Ha as <-.
Qed.

Lemma differences_short (l : list value) :
  (length l <= 1)%nat -> differences l = Ok [].
Proof.
  intros Hlen. unfold differences, range1.
  by replace (length l - 1)%nat with 0%nat by lia.
Qed.

Lemma change_change_line_values co2_data country color d :
  co2_data !! country = Some d ->
  change_change_line is_color co2_data (country, color)
  = first_alternation ← differences (series_values d);
    second_alternation ← differences first_alternation;
    new_line is_color (drop 2 (sorted_keys d)) second_alternation country color.
Proof.
  intros Hd. unfold change_change_line, getitem. simpl. rewrite Hd. simpl.
  rewrite (comprehension_fmap _ (dict_get of_float d)); [done|].
  intros y Hy%sorted_keys_elem_of. by apply getitem2_series.
Qed.

(** With two years or more and an absent value among them, the line of the
    country cannot be computed. *)
Lemma change_change_line_raises co2_data country color d :
  co2_data !! country = Some d ->
  (2 <= length (sorted_keys d))%nat ->
  (exists y, d !! y = Some None) ->
  change_change_line is_color co2_data (country, color) = Raise TypeError.
Proof.
  intros Hd Hlen [y Hy]. rewrite (change_change_line_values _ _ _ _ Hd).
  rewrite differences_raises; [done|apply series_values_float_or_none|..].
  - unfold series_values. by rewrite length_fmap.
  - unfold series_values. apply list_elem_of_fmap. exists y. split.
    + unfold dict_get. by rewrite Hy.
    + apply sorted_keys_elem_of. by rewrite Hy.
Qed.

(** Otherwise the line is computed, and it is for the backend to accept
    it. *)
Lemma change_change_line_computed co2_data country color d :
  co2_data !! country = Some d ->
  ((2 <= length (sorted_keys d))%nat -> forall y, d !! y ≠ Some None) ->
  exists ys, change_change_line is_color co2_data (country, color)
             = new_line is_color (drop 2 (sorted_keys d)) ys country color
    /\ length ys = length (drop 2 (sorted_keys d))
    /\ Forall (fun v => exists f, v = VFloat f) ys.
Proof.
  intros Hd Hpresent.
  destruct (decide (2 <= length (sorted_keys d))%nat) as [Hlen|Hlen].
  - destruct (change_change_line_spec is_color co2_data country color d Hd)
      as (ds & ys & Heq & _ & _ & Hlen' & Hfl & _); [|eauto].
    intros y [f|] Hv; [by eexists|]. by destruct (Hpresent Hlen y).
  - exists []. rewrite (change_change_line_values _ _ _ _ Hd).
    rewrite differences_short.
    2:{ unfold series_values. rewrite length_fmap. lia. }
    simpl. split; [done|]. split; [|done]. rewrite length_drop. simpl. lia.
Qed.

Lemma change_change_line_is_Ok co2_data country color d :
  co2_data !! country = Some d ->
  is_Ok (change_change_line is_color co2_data (country, color))
  <-> ((2 <= length (sorted_keys d))%nat -> forall y, d !! y ≠ Some None)
      /\ is_color color = true /\ Forall fits (drop 2 (sorted_keys d)).
Proof.
  intros Hd. split.
  - intros Hok.
    assert ((2 <= length (sorted_keys d))%nat -> forall y, d !! y ≠ Some None)
      as Hpresent.
    { intros Hlen y Hy.
      rewrite (change_change_line_raises _ _ _ d) in Hok; [|done..|by exists y].
      by destruct Hok as [? [=]]. }
    split; [done|].
    destruct (change_change_line_computed _ _ color _ Hd Hpresent)
      as (ys & Heq & Hlen & Hfl).
    rewrite Heq, new_line_is_Ok, plottable_line in Hok; [done..|].
    eapply Forall_impl; [done|]. intros v [f ->]. by eexists.
  - intros (Hpresent & Hcolor & Hfits).
    destruct (change_change_line_computed _ _ color _ Hd Hpresent)
      as (ys & Heq & Hlen & Hfl).
    rewrite Heq, new_line_is_Ok, plottable_line; [done..|].
    eapply Forall_impl; [done|]. intros v [f ->]. by eexists.
Qed.

Lemma change_change_line_errors co2_data country color d :
  co2_data !! country = Some d ->
  is_Ok (change_change_line is_color co2_data (country, color))
  \/ exists e, change_change_line is_color co2_data (country, color) = Raise e
       /\ (e = TypeError \/ e = ValueError \/ e = OverflowError).
Proof.
  intros Hd. rewrite (change_change_line_values _ _ _ _ Hd).
  destruct (differences_float_or_none (series_values d))
    as [(ds & Hds & Hfl)|Hraise]; [apply series_values_float_or_none| |].
  2:{ right. rewrite Hraise. eauto. }
  rewrite Hds. simpl.
  destruct (differences_closed (fun v => exists f, v = VFloat f) ds)
    as (ys & Hys & _); [apply sub_floats|done|].
  rewrite Hys. simpl.
  destruct (new_line_errors is_color (drop 2 (sorted_keys d)) ys country color)
    as [?|(e & ? & [?|?])]; eauto 10.
Qed.

(** The second-difference chart raises [TypeError] as soon as the first
    selected country that it cannot draw has two years or more and an absent
    value; in particular when the selection is that country alone. *)
Lemma plot_co2_emission_change_change_raises co2_data countries_colors
    country color d :
  (country, color) ∈ countries_colors ->
  co2_data !! country = Some d ->
  (2 <= length (sorted_keys d))%nat ->
  (exists y, d !! y = Some None) ->
  ~ is_Ok (plot_co2_emission_change_change is_color co2_data countries_colors).
Proof.
  intros Hin Hd Hlen Habs. rewrite plot_co2_emission_change_change_lines.
  intros Hok%comprehension_is_Ok.
  eapply Forall_forall in Hok.
  2:{ apply list_elem_of_filter. split; [|exact Hin].
      simpl. apply elem_of_dom. by rewrite Hd. }
  rewrite (change_change_line_raises _ _ _ d) in Hok by done.
  by destruct Hok as [? [=]].
Qed.

(** X8: the second-difference chart returns a figure exactly when, for every
    selected country of the table, no value is absent in a series of two
    years or more, the color is a color and the years drawn convert to
    floats; the exceptions it raises are [TypeError] (an absent value),
    [ValueError] and [OverflowError] (a line that the backend refuses). *)
Theorem X8_second_difference_chart_errors (co2_data : table float)
    (countries_colors : list (string * string)) :
  (is_Ok (plot_co2_emission_change_change is_color co2_data countries_colors) <->
     forall country color d, (country, color) ∈ countries_colors ->
       co2_data !! country = Some d ->
       ((2 <= length (sorted_keys d))%nat -> forall y, d !! y ≠ Some None)
       /\ is_color color = true
       /\ Forall fits (drop 2 (sorted_keys d)))
  /\ (is_Ok (plot_co2_emission_change_change is_color co2_data countries_colors)
      \/ plot_co2_emission_change_change is_color co2_data countries_colors
         = Raise TypeError
      \/ plot_co2_emission_change_change is_color co2_data countries_colors
         = Raise ValueError
      \/ plot_co2_emission_change_change is_color co2_data countries_colors
         = Raise OverflowError).
Proof.
  rewrite !plot_co2_emission_change_change_lines. split.
  - apply (chart_is_Ok co2_data (change_change_line is_color co2_data)).
    intros country color d Hd. by apply change_change_line_is_Ok.
  - destruct (comprehension_errors (change_change_line is_color co2_data)
      (fun e => e = TypeError \/ e = ValueError \/ e = OverflowError)
      (present co2_data countries_colors))
      as [?|(e & -> & [->|[->| ->]])]; auto.
    intros [country color] (d & Hd)%present_key. simpl in Hd.
    by apply (change_change_line_errors _ _ _ d).
Qed.

(** X9: when no selected country of the table has an absent value, and the
    backend accepts the lines (the colors are colors and the years drawn
    convert to floats), the second-difference chart draws, for each of these
    countries, the second difference of its values over its sorted years
    without the first two: the value of index [i] is [(a - b) - (b - c)] for
    the values [a], [b], [c] of the years of index [i + 2], [i + 1], [i], and
    a series of three years or more gives two points fewer. *)
Lemma plot_co2_emission_change_change_present (co2_data : table float)
    (countries_colors : list (string * string)) :
  (forall country color d y v, (country, color) ∈ countries_colors ->
     co2_data !! country = Some d -> d !! y = Some v -> is_Some v) ->
  (forall country color d, (country, color) ∈ countries_colors ->
     co2_data !! country = Some d ->
     is_color color = true /\ Forall fits (drop 2 (sorted_keys d))) ->
  exists fig,
    plot_co2_emission_change_change is_color co2_data countries_colors = Ok fig
    /\ Forall2 (fun p ln => exists d, co2_data !! p.1 = Some d
          /\ line_label ln = p.1 /\ line_color ln = p.2
          /\ line_x ln = drop 2 (sorted_keys d)
          /\ length (line_y ln) = length (line_x ln)
          /\ (forall i a b c,
                series_values d !! S (S i) = Some (VFloat a) ->
                series_values d !! S i = Some (VFloat b) ->
                series_values d !! i = Some (VFloat c) ->
                line_y ln !! i = Some (VFloat ((a - b) - (b - c))))
          /\ (3 <= length (sorted_keys d) ->
               2 + length (line_x ln) = length (sorted_keys d))%nat)
        (present co2_data countries_colors) fig.
Proof.
  intros Hpresent Hback. rewrite plot_co2_emission_change_change_lines.
  apply comprehension_spec.
  intros [country color] Hp. pose proof Hp as (d & Hd)%present_key.
  simpl in Hd. apply list_elem_of_filter in Hp as [_ Hin].
  destruct (change_change_line_spec is_color _ _ color _ Hd)
    as (ds & ys & -> & _ & _ & Hlen & Hfl & Hys).
  { intros y v Hv. by eapply Hpresent. }
  rewrite new_line_Ok.
  2:{ apply plottable_line; [done| |by eapply Hback].
      eapply Forall_impl; [done|]. intros v [f ->]. by eexists. }
  eexists. split; [done|]. exists d. simpl.
  repeat split; [done..|]. rewrite length_drop. lia.
Qed.

End SecondDifference.

(** ** Countries without data *)

Section NoData.

Variable py_strip : string -> string.
Variable py_int : string -> option Z.
Variable py_float : string -> option float.
Variable is_color : string -> bool.
Variable color_palette : list string.

Lemma sorted_keys_empty {V} : sorted_keys (∅ : gmap Z V) = [].
Proof. unfold sorted_keys. by rewrite dom_empty_L, elements_empty. Qed.

(** A country whose series is empty gets a line without points in the
    first-difference chart. *)
Lemma empty_series_changes_line (co2_data : table float) country color :
  co2_data !! country = Some ∅ ->
  changes_line is_color co2_data (country, color)
  = new_line is_color [] [] country color.
Proof.
  intros Hd. unfold changes_line, getitem.
  simpl. rewrite Hd. simpl.
  by rewrite (@sorted_keys_empty (option float)).
Qed.

(** [plot_co2_emission_changes] writes one warning for each selected country
    that is not a key of the table, and none for the others. *)
Lemma plot_co2_emission_changes_page (co2_data : table float) countries_colors
    fig page :
  plot_co2_emission_changes is_color co2_data countries_colors = Ok (fig, page) ->
  comprehension (changes_line is_color co2_data)
    (present co2_data countries_colors) = Ok fig
  /\ page = (fun p => StWrite warnung p.1)
              <$> filter (fun p => ~ p.1 ∈ dom co2_data) countries_colors.
Proof.
  rewrite plot_co2_emission_changes_lines.
  by intros (lines & ? & [= <- <-])%bind_Ok.
Qed.

(** The color assignment of [main]: the selected country of index [i] gets
    the color of index [i % len(color_palette)]. *)
Lemma main_colors (selected_countries : list string) :
  color_palette ≠ [] ->
  exists cc,
    comprehension (fun '(i, country) =>
        k ← mod_ i (length color_palette);
        color ← index color_palette k;
        Ok (country, color))
      (zip (seq 0 (length selected_countries)) selected_countries) = Ok cc
    /\ cc.*1 = selected_countries
    /\ forall i p, cc !! i = Some p ->
         color_palette !! (i mod length color_palette)%nat = Some p.2.
Proof.
  intros Hpal.
  assert (length color_palette ≠ 0%nat) as Hlen by by destruct color_palette.
  destruct (comprehension_spec
    (fun '(i, country) =>
       k ← mod_ i (length color_palette);
       color ← index color_palette k;
       Ok (country, color))
    (fun (ic : nat * string) (p : string * string) =>
       p.1 = ic.2
       /\ color_palette !! (ic.1 mod length color_palette)%nat = Some p.2)
    (zip (seq 0 (length selected_countries)) selected_countries))
    as (cc & Hcc & Hrel).
  { intros [i country] _. unfold mod_. rewrite bool_decide_eq_false_2 by done.
    simpl.
    destruct (lookup_lt_is_Some_2 color_palette (i mod length color_palette))
      as [color Hcolor]; [by apply Nat.mod_upper_bound|].
    unfold index. rewrite Hcolor. simpl. eauto. }
  exists cc. split; [done|]. split.
  - rewrite <- (snd_zip (seq 0 (length selected_countries)) selected_countries)
      by by rewrite length_seq.
    apply Forall2_fmap_eq. eapply Forall2_impl; [done|]. by intros ic p [? _].
  - intros i p Hp.
    destruct (Forall2_lookup_r _ _ _ _ _ Hrel Hp) as ([j c] & Hj & _ & Hcolor).
    apply lookup_zip_Some in Hj as [Hj _]. apply lookup_seq in Hj as [-> _].
    done.
Qed.

Lemma main_colors_empty_palette (selected_countries : list string) :
  color_palette = [] -> selected_countries ≠ [] ->
  comprehension (fun '(i, country) =>
      k ← mod_ i (length color_palette);
      color ← index color_palette k;
      Ok (country, color))
    (zip (seq 0 (length selected_countries)) selected_countries)
  = Raise ZeroDivisionError.
Proof.
  intros -> Hsel. destruct selected_countries as [|c l]; [done|]. done.
Qed.

Lemma present_all {V} (d : table V) (cc : list (string * string)) :
  (forall p, p ∈ cc -> p.1 ∈ dom d) -> present d cc = cc.
Proof.
  intros Hall. unfold present. induction cc as [|p cc IH]; [done|].
  rewrite filter_cons_True by (apply Hall; left).
  f_equal. apply IH. intros q Hq. apply Hall. by right.
Qed.

Lemma absent_none {V} (d : table V) (cc : list (string * string)) :
  (forall p, p ∈ cc -> p.1 ∈ dom d) -> filter (fun p => ~ p.1 ∈ dom d) cc = [].
Proof.
  intros Hall. induction cc as [|p cc IH]; [done|].
  rewrite filter_cons_False.
  - apply IH. intros q Hq. apply Hall. by right.
  - intros Hn. apply Hn, Hall. left.
Qed.

(** What [main] does when it returns for a selection that is not empty: the
    selection gets its colors, the two tables are read, every selected country
    is a key of the emissions table, the four figures are computed, and the
    page holds them and nothing else. *)
Lemma main_Ok selected_countries co2_rows energy_rows events :
  selected_countries ≠ [] ->
  main py_strip py_int py_float is_color color_palette selected_countries
    co2_rows energy_rows = Ok events ->
  exists cc co2_data pop_data fig1 fig2 fig3 fig4,
    cc.*1 = selected_countries
    /\ (forall i p, cc !! i = Some p ->
          color_palette !! (i mod length color_palette)%nat = Some p.2)
    /\ CO2Charts.lese_emissionen py_strip py_int py_float
         (CountryList selected_countries) co2_rows = Ok co2_data
    /\ CO2Charts.lese_energy py_strip py_int energy_rows = Ok pop_data
    /\ present co2_data cc = cc
    /\ comprehension (per_capita_line is_color co2_data) cc = Ok fig1
    /\ comprehension (absolute_line is_color co2_data pop_data)
         (present2 co2_data pop_data cc) = Ok fig2
    /\ comprehension (changes_line is_color co2_data) cc = Ok fig3
    /\ comprehension (change_change_line is_color co2_data) cc = Ok fig4
    /\ events = [StPyplot fig1; StPyplot fig2; StPyplot fig3; StPyplot fig4].
Proof.
  intros Hsel. unfold main.
  intros (available & _ & Hrest)%bind_Ok.
  rewrite bool_decide_eq_false_2 in Hrest by done.
  destruct (decide (color_palette = [])) as [Hpal|Hpal].
  { by rewrite main_colors_empty_palette in Hrest. }
  destruct (main_colors selected_countries Hpal) as (cc & Hcc & Hfst & Hcolors).
  rewrite Hcc in Hrest. simpl in Hrest.
  apply bind_Ok in Hrest as (co2_data & Hco2 & Hrest).
  apply bind_Ok in Hrest as (pop_data & Hpop & Hrest).
  apply bind_Ok in Hrest as (fig1 & Hfig1 & Hrest).
  apply bind_Ok in Hrest as (fig2 & Hfig2 & Hrest).
  apply bind_Ok in Hrest as ([fig3 written] & Hfig3 & Hrest).
  apply bind_Ok in Hrest as (fig4 & Hfig4 & [= <-]).
  assert (forall p, p ∈ cc -> p.1 ∈ dom co2_data) as Hkeys.
  { intros p Hp.
    destruct (lese_emissionen_Ok _ _ _ _ _ _ Hco2) as [_ ->]. simpl.
    rewrite dom_lese_emissionen, elem_of_list_to_set, <- Hfst.
    by apply list_elem_of_fmap_2. }
  pose proof (present_all co2_data cc Hkeys) as Hpresent.
  rewrite plot_co2_emission_per_capita_lines, Hpresent in Hfig1.
  rewrite plot_absolut_co2_emissions_lines in Hfig2.
  rewrite plot_co2_emission_change_change_lines, Hpresent in Hfig4.
  apply plot_co2_emission_changes_page in Hfig3 as [Hfig3 ->].
  rewrite Hpresent in Hfig3. rewrite (absent_none co2_data cc Hkeys).
  exists cc, co2_data, pop_data, fig1, fig2, fig3, fig4. by repeat split.
Qed.

(** Whatever the selection and the sources, [main] writes no warning about a
    country: every selected country is a key of the table that
    [lese_emissionen] returns. *)
Lemma main_never_writes selected_countries co2_rows energy_rows events :
  main py_strip py_int py_float is_color color_palette selected_countries
    co2_rows energy_rows = Ok events ->
  forall text country, StWrite text country ∉ events.
Proof.
  intros Hmain text country Hin.
  destruct (decide (selected_countries = [])) as [Hsel|Hsel].
  - unfold main in Hmain. apply bind_Ok in Hmain as (available & _ & Hrest).
    rewrite bool_decide_eq_true_2 in Hrest by done. injection Hrest as <-.
    apply list_elem_of_singleton in Hin. discriminate.
  - destruct (main_Ok _ _ _ _ Hsel Hmain)
      as (cc & co2_data & pop_data & fig1 & fig2 & fig3 & fig4 & H).
    destruct H as (_ & _ & _ & _ & _ & _ & _ & _ & _ & ->).
    repeat (apply elem_of_cons in Hin as [Heq|Hin]; [discriminate|]).
    by apply elem_of_nil in Hin.
Qed.

End NoData.

(** C3: the warning for a selected country without data is never surfaced.
    The first-difference chart writes its warning for a selected country that
    is not a key of the emissions table; for a country that is a key with an
    empty series it hands a line without points to [ax.plot] and writes
    nothing.  Every country that [lese_emissionen] is asked for is a key of
    the table it returns, so [main] never writes the warning, whatever the
    sources and the selection.  On a source in which the only row of Atlantis
    has no valid year, Atlantis is read into the empty series, the
    first-difference chart returns an empty line and no warning, and the page
    of [main] holds the four figures only. *)
Theorem C3_no_warning_for_empty_series :
  (forall is_color (co2_data : table float) countries_colors country color
          fig page,
     (country, color) ∈ countries_colors ->
     plot_co2_emission_changes is_color co2_data countries_colors
       = Ok (fig, page) ->
     (co2_data !! country = None -> StWrite warnung country ∈ page)
     /\ (co2_data !! country = Some ∅ ->
          Line [] [] country color ∈ fig
          /\ forall text, StWrite text country ∉ page))
  /\ (forall py_strip py_int py_float is_color color_palette selected_countries
             co2_rows energy_rows events,
        main py_strip py_int py_float is_color color_palette selected_countries
          co2_rows energy_rows = Ok events ->
        forall text country, StWrite text country ∉ events)
  /\ CO2Charts.lese_emissionen PyText.strip PyText.int PyText.float
       (CountryList ["Atlantis"]) Scenario.atlantis_rows
     = Ok Scenario.atlantis_data
  /\ plot_co2_emission_changes PyText.cycle_color Scenario.atlantis_data
       Scenario.atlantis
     = Ok ([Line [] [] "Atlantis" "C0"], [])
  /\ main PyText.strip PyText.int PyText.float PyText.cycle_color ["C0"]
       ["Atlantis"] Scenario.atlantis_rows Scenario.energy_rows
     = Ok [StPyplot [Line [] [] "Atlantis" "C0"];
           StPyplot [];
           StPyplot [Line [] [] "Atlantis" "C0"];
           StPyplot [Line [] [] "Atlantis" "C0"]].
Proof.
  split; [|split; [apply main_never_writes|repeat split; vm_compute; reflexivity]].
  intros is_color co2_data cc country color fig page Hin Hfig.
  apply plot_co2_emission_changes_page in Hfig as [Hfig ->]. split.
  - intros Hnone. apply list_elem_of_fmap. exists (country, color).
    split; [done|]. apply list_elem_of_filter. split; [|done].
    simpl. by rewrite not_elem_of_dom.
  - intros Hempty. split.
    + apply comprehension_Ok in Hfig.
      assert ((country, color) ∈ present co2_data cc) as (k & Hk)%list_elem_of_lookup_1.
      { apply list_elem_of_filter. split; [|done].
        simpl. apply elem_of_dom. by rewrite Hempty. }
      destruct (Forall2_lookup_l _ _ _ _ _ Hfig Hk) as (ln & Hln & Hmk).
      rewrite (empty_series_changes_line _ _ _ _ Hempty) in Hmk.
      apply new_line_inv in Hmk as [-> _]. by eapply list_elem_of_lookup_2.
    + intros text (p & [= _ Hc] & [Hp _]%list_elem_of_filter)%list_elem_of_fmap.
      apply Hp. rewrite <- Hc. apply elem_of_dom. by rewrite Hempty.
Qed.

(** ** Sanity checks of the primitives *)

Example sorted_str_is_case_sensitive :
  sorted_str ["b"; "a"; "B"; "ab"; "Zz"] = ["B"; "Zz"; "a"; "ab"; "b"].
Proof. vm_compute. reflexivity. Qed.

Example sorted_int_ascending : sorted_int [2020; 1999; 2019] = [1999; 2019; 2020].
Proof. vm_compute. reflexivity. Qed.

Example sorted_cells_with_none :
  sorted_cells [Some "b"; Some "a"] = Ok [Some "a"; Some "b"]
  /\ sorted_cells [None] = Ok [None]
  /\ sorted_cells [Some "a"; None] = Raise TypeError.
Proof. repeat split; vm_compute; reflexivity. Qed.

Example int_cells :
  PyText.int " 2019 " = Some 2019 /\ PyText.int "-007" = Some (-7)
  /\ PyText.int "20_19" = Some 2019 /\ PyText.int "2019.0" = None
  /\ PyText.int "" = None /\ PyText.int "n/a" = None.
Proof. repeat split; vm_compute; reflexivity. Qed.

Example float_cells :
  PyText.float "8.5" = Some 8.5%float /\ PyText.float " 1e3 " = Some 1000%float
  /\ PyText.float ".5" = Some 0.5%float /\ PyText.float "-0.25E-1" = Some (-0x1.999999999999ap-6)%float
  /\ PyText.float "1e400" = Some infinity
  /\ PyText.float "" = None /\ PyText.float "8,5" = None.
Proof. repeat split; vm_compute; reflexivity. Qed.

Example int_to_float_range :
  int_to_float 38000000 = Ok 38000000%float
  /\ int_to_float (2 ^ 53 + 1) = Ok 9007199254740992%float
  /\ int_to_float (2 ^ 1024 - 2 ^ 970 - 1) = Ok 0x1.fffffffffffffp+1023%float
  /\ int_to_float (2 ^ 1024 - 2 ^ 970) = Raise OverflowError.
Proof. repeat split; vm_compute; reflexivity. Qed.

Example sub_absent_coerced : sub (VInt 0) (VFloat 8.5) = Ok (VFloat (-8.5)).
Proof. reflexivity. Qed.

Example sub_absent_raises : sub VNone (VFloat 8.5) = Raise TypeError.
Proof. reflexivity. Qed.

Example cycle_colors :
  PyText.cycle_color "C0" = true /\ PyText.cycle_color "C10" = true
  /\ PyText.cycle_color "C" = false /\ PyText.cycle_color "c0" = false.
Proof. repeat split; vm_compute; reflexivity. Qed.

Example ax_plot_refusals :
  ax_plot PyText.cycle_color [] [2019] [VFloat 8.5] "Poland" "C0"
    = Ok [Line [2019] [VFloat 8.5] "Poland" "C0"]
  /\ ax_plot PyText.cycle_color [] [2019] [VNone] "Poland" "C0"
    = Ok [Line [2019] [VNone] "Poland" "C0"]
  /\ ax_plot PyText.cycle_color [] [10 ^ 400] [VFloat 8.5] "Poland" "C0"
    = Raise OverflowError
  /\ ax_plot PyText.cycle_color [] [2019] [] "Poland" "C0" = Raise ValueError
  /\ ax_plot PyText.cycle_color [] [2019] [VFloat 8.5] "Poland" ""
    = Raise ValueError.
Proof. repeat split; vm_compute; reflexivity. Qed.


(** * More on the program *)

(** ** The tables of the two readers: provenance and composition *)

Section ReaderProvenance.

Variable py_strip : string -> string.
Variable py_int : string -> option Z.
Variable py_float : string -> option float.

Local Abbreviation int_of_cell := (CO2Charts.int_of_cell py_int).
Local Abbreviation _parse_int := (CO2Charts._parse_int py_strip py_int).
Local Abbreviation _parse_float := (CO2Charts._parse_float py_strip py_float).
Local Abbreviation lese_energy := (CO2Charts.lese_energy py_strip py_int).
Local Abbreviation lese_emissionen :=
  (CO2Charts.lese_emissionen py_strip py_int py_float).
Local Abbreviation energy_entry := (energy_entry py_strip py_int).
Local Abbreviation emission_entry := (emission_entry py_strip py_int py_float).
Local Abbreviation energy_row_reads := (energy_row_reads py_int).
Local Abbreviation co2_row_reads := (co2_row_reads py_int).

(** X1: the population table of a source whose rows are read holds nothing
    that the rows did not write.  Its keys are the countries of the rows with
    a valid year, so no series of the table is empty; a country and a year
    have an entry exactly when some row carries them; and the value of every
    entry is the parsed population cell of such a row. *)
Theorem X1_lese_energy_provenance (rows : list energy_row) :
  Forall energy_row_reads rows ->
  exists t, lese_energy rows = Ok t
    /\ (forall c, is_Some (t !! c) <->
          exists row y, row ∈ rows /\ row_country row = c
            /\ int_of_cell (row_year row) = Ok (Some y))
    /\ (forall c s, t !! c = Some s -> exists y, is_Some (s !! y))
    /\ (forall c y, is_Some (entry_at t c y) <->
          exists row, row ∈ rows /\ row_country row = c
            /\ int_of_cell (row_year row) = Ok (Some y))
    /\ (forall c y v, entry_at t c y = Some v ->
          exists row, row ∈ rows /\ row_country row = c
            /\ int_of_cell (row_year row) = Ok (Some y)
            /\ _parse_int (row_population row) = Ok v).
Proof.
  intros Hreads. eexists. split; [by apply lese_energy_fold|].
  set (es := omap energy_entry rows).
  assert (forall c, c ∈ dom (foldl write (∅ : population_table) es) <->
            exists row y, row ∈ rows /\ row_country row = c
              /\ int_of_cell (row_year row) = Ok (Some y)) as Hkeys.
  { intros c. rewrite dom_foldl_write, dom_empty_L, elem_of_union,
      elem_of_list_to_set, list_elem_of_fmap. split.
    - intros [[]%elem_of_empty|([c' y] & -> & Hin)].
      apply elem_of_energy_keys in Hin as (row & ? & ? & ?); [|done].
      exists row, y. eauto.
    - intros (row & y & Hrow & Hc & Hy). right. exists (c, y). split; [done|].
      apply elem_of_energy_keys; eauto. }
  assert (forall c y,
            is_Some (entry_at (foldl write (∅ : population_table) es) c y) <->
            exists row, row ∈ rows /\ row_country row = c
              /\ int_of_cell (row_year row) = Ok (Some y)) as Hentries.
  { intros c y. rewrite entry_at_foldl_write, last_write_is_Some.
    fold es. rewrite <- elem_of_energy_keys by exact Hreads.
    split; [|by left]. intros [?|[? [=]]]. done. }
  split; [|split; [|split]].
  - intros c. by rewrite <- elem_of_dom.
  - intros c s Hs.
    destruct (proj1 (Hkeys c)) as (row & y & Hrow & Hc & Hy).
    { apply elem_of_dom. by rewrite Hs. }
    exists y. destruct (proj2 (Hentries c y)) as [v Hv]; [eauto|].
    unfold entry_at in Hv. rewrite Hs in Hv. by exists v.
  - done.
  - intros c y v Hv. rewrite entry_at_foldl_write in Hv.
    apply last_write_Some in Hv as [Hin|[=]].
    by apply elem_of_energy_entries.
Qed.

(** X2: the emissions table of a source whose rows are read holds nothing
    that the rows of the requested countries did not write: a country and a
    year have an entry exactly when the country is requested and some row
    carries them with a valid year, the value of every entry is the parsed
    emissions cell of such a row, and the series of a country is empty exactly
    when the country is requested and none of its rows has a valid year. *)
Theorem X2_lese_emissionen_provenance (countries : countries_arg)
    (rows : list co2_row) :
  Forall (co2_row_reads countries) rows ->
  exists t, lese_emissionen countries rows = Ok t
    /\ (forall c y, is_Some (entry_at t c y) <->
          requested countries c
          /\ exists row, row ∈ rows /\ row_Entity row = Some c
               /\ int_of_cell (row_Year row) = Ok (Some y))
    /\ (forall c y v, entry_at t c y = Some v ->
          exists row, row ∈ rows /\ row_Entity row = Some c
            /\ int_of_cell (row_Year row) = Ok (Some y)
            /\ _parse_float (row_emissions row) = Ok v)
    /\ (forall c, t !! c = Some ∅ <->
          requested countries c
          /\ forall row, row ∈ rows -> row_Entity row = Some c ->
               int_of_cell (row_Year row) = Ok None).
Proof.
  intros Hreads. eexists. split; [by apply lese_emissionen_fold|].
  set (cs := CO2Charts.as_list countries).
  set (t := foldl write (CO2Charts.empty_dict cs) (omap (emission_entry cs) rows)).
  assert (forall c, c ∈ dom t <-> requested countries c) as Hdom.
  { intros c. unfold t.
    by rewrite dom_lese_emissionen, elem_of_list_to_set, requested_as_list. }
  assert (forall c y, is_Some (entry_at t c y) <->
            requested countries c
            /\ exists row, row ∈ rows /\ row_Entity row = Some c
                 /\ int_of_cell (row_Year row) = Ok (Some y)) as Hentries.
  { intros c y. unfold t, cs.
    rewrite entry_at_foldl_write, entry_at_empty_dict, last_write_is_Some.
    rewrite <- elem_of_emission_keys by exact Hreads.
    split; [|by left]. intros [?|[? [=]]]. done. }
  split; [done|]. split.
  - intros c y v Hv. unfold t in Hv.
    rewrite entry_at_foldl_write, entry_at_empty_dict in Hv.
    apply last_write_Some in Hv as [Hin|[=]].
    apply elem_of_emission_entries in Hin as (_ & ?). done.
  - intros c. split.
    + intros Hs.
      assert (requested countries c) as Hreq.
      { apply Hdom, elem_of_dom. by rewrite Hs. }
      split; [done|]. intros row Hrow Hc.
      destruct (proj1 (Forall_forall _ _) Hreads row Hrow c Hc Hreq)
        as (cell & Hcell & _).
      rewrite Hcell. simpl. destruct (py_int cell) as [y|] eqn:Hy; [|done].
      destruct (proj2 (Hentries c y)) as [v Hv].
      { split; [done|]. exists row. by rewrite Hcell; simpl; rewrite Hy. }
      unfold entry_at in Hv. rewrite Hs in Hv. simpl in Hv.
      by rewrite lookup_empty in Hv.
    + intros [Hc Hrows].
      assert (c ∈ dom t) as [s Hs]%elem_of_dom by by apply Hdom.
      rewrite Hs. f_equal. apply map_eq. intros y. rewrite lookup_empty.
      destruct (s !! y) as [v|] eqn:Hv; [|done].
      destruct (proj1 (Hentries c y)) as (_ & row & Hrow & Hrc & Hy).
      { unfold entry_at. rewrite Hs. simpl. by rewrite Hv. }
      rewrite (Hrows row Hrow Hrc) in Hy. done.
Qed.

(** X3: two sources read one after the other, as one source, are read
    exactly when each of them is, and the table then has the keys of both
    tables and, at every country and year, the entry of the second table when
    it has one and the entry of the first table otherwise: later rows override
    earlier ones, entry by entry. *)
Theorem X3_concatenated_sources :
  (forall rows1 rows2,
     (is_Ok (lese_energy (rows1 ++ rows2))
      <-> is_Ok (lese_energy rows1) /\ is_Ok (lese_energy rows2))
     /\ forall t, lese_energy (rows1 ++ rows2) = Ok t ->
          exists t1 t2, lese_energy rows1 = Ok t1 /\ lese_energy rows2 = Ok t2
            /\ dom t = dom t1 ∪ dom t2
            /\ forall c y, entry_at t c y
                 = match entry_at t2 c y with
                   | Some v => Some v
                   | None => entry_at t1 c y
                   end)
  /\ (forall countries rows1 rows2,
       (is_Ok (lese_emissionen countries (rows1 ++ rows2))
        <-> is_Ok (lese_emissionen countries rows1)
            /\ is_Ok (lese_emissionen countries rows2))
       /\ forall t, lese_emissionen countries (rows1 ++ rows2) = Ok t ->
            exists t1 t2, lese_emissionen countries rows1 = Ok t1
              /\ lese_emissionen countries rows2 = Ok t2
              /\ dom t = dom t1 ∪ dom t2
              /\ forall c y, entry_at t c y
                   = match entry_at t2 c y with
                     | Some v => Some v
                     | None => entry_at t1 c y
                     end).
Proof.
  split.
  - intros rows1 rows2. split.
    { by rewrite !lese_energy_is_Ok, Forall_app. }
    intros t [[Hr1 Hr2]%Forall_app ->]%lese_energy_Ok. do 2 eexists.
    split; [by apply lese_energy_fold|]. split; [by apply lese_energy_fold|].
    split.
    + rewrite !dom_foldl_write, omap_app, !fmap_app, list_to_set_app_L.
      set_solver.
    + intros c y. rewrite !entry_at_foldl_write, omap_app, last_write_app.
      apply last_write_default.
  - intros countries rows1 rows2. split.
    { by rewrite !lese_emissionen_is_Ok, Forall_app. }
    intros t [[Hr1 Hr2]%Forall_app ->]%lese_emissionen_Ok. do 2 eexists.
    split; [by apply lese_emissionen_fold|].
    split; [by apply lese_emissionen_fold|]. split.
    + rewrite !dom_lese_emissionen. set_solver.
    + intros c y.
      rewrite !entry_at_foldl_write, !entry_at_empty_dict, omap_app, last_write_app.
      apply last_write_default.
Qed.

(** X4: when the rows of a source are read and no two of them write the same
    country and year, the order of the rows does not matter: every reordering
    of the source is read into the same table. *)
Theorem X4_row_order_irrelevant_without_duplicates :
  (forall rows rows',
     Forall energy_row_reads rows ->
     NoDup (omap energy_entry rows).*1 -> rows ≡ₚ rows' ->
     lese_energy rows' = lese_energy rows)
  /\ (forall countries rows rows',
       Forall (co2_row_reads countries) rows ->
       NoDup (omap (emission_entry (CO2Charts.as_list countries)) rows).*1 ->
       rows ≡ₚ rows' ->
       lese_emissionen countries rows' = lese_emissionen countries rows).
Proof.
  split.
  - intros rows rows' Hreads Hnd Hperm.
    rewrite !lese_energy_fold by by rewrite <- ?Hperm. f_equal.
    symmetry. apply foldl_write_perm; [done|]. by rewrite Hperm.
  - intros countries rows rows' Hreads Hnd Hperm.
    rewrite !lese_emissionen_fold by by rewrite <- ?Hperm. f_equal.
    symmetry. apply foldl_write_perm; [done|]. by rewrite Hperm.
Qed.

Lemma for_each_ext {R S} (body body' : S -> R -> result S) l s :
  (forall s x, body s x = body' s x) -> for_each body l s = for_each body' l s.
Proof.
  intros Hext. revert s. induction l as [|x l IH]; intros s; [done|].
  simpl. rewrite Hext. destruct (body' s x); simpl; [apply IH|done].
Qed.

Lemma emission_entry_singleton cs c (rows : list co2_row) y
    (o : option (option float)) :
  c ∈ cs ->
  last_write c y o (omap (emission_entry cs) rows)
  = last_write c y o (omap (emission_entry [c]) rows).
Proof.
  intros Hc. revert o. induction rows as [|row rows IH]; intros o; [done|].
  rewrite !omap_cons.
  destruct (decide (row_Entity row = Some c)) as [He|He].
  - assert (emission_entry cs row = emission_entry [c] row) as ->.
    { unfold Rows.emission_entry. rewrite He.
      rewrite !bool_decide_eq_true_2; [done|by left|done]. }
    destruct (emission_entry [c] row); [|apply IH].
    rewrite !last_write_cons. apply IH.
  - rewrite (emission_entry_None _ _ _ [c] row).
    2:{ left. intros c' Hc' ?%list_elem_of_singleton. congruence. }
    destruct (emission_entry cs row) as [e|] eqn:Hentry; [|apply IH].
    rewrite last_write_cons, bool_decide_eq_false_2; [apply IH|].
    apply emission_entry_Some in Hentry as (c' & y' & v & Hc' & _ & _ & _ & ->).
    simpl. congruence.
Qed.

(** X5: the emissions table depends on the set of requested countries only
    (their order and repetitions in the list do not matter, whether the source
    is read or an exception is raised), and the series of a requested country
    is the one that is read when the country is requested alone, as a
    string. *)
Theorem X5_requested_countries :
  (forall cs cs' rows, (forall c, c ∈ cs <-> c ∈ cs') ->
     lese_emissionen (CountryList cs) rows = lese_emissionen (CountryList cs') rows)
  /\ (forall cs c rows, c ∈ cs ->
       Forall (co2_row_reads (CountryList cs)) rows ->
       exists t t1,
         lese_emissionen (CountryList cs) rows = Ok t
         /\ lese_emissionen (CountryStr c) rows = Ok t1
         /\ t !! c = t1 !! c).
Proof.
  split.
  - intros cs cs' rows Hsame. unfold CO2Charts.lese_emissionen. simpl.
    assert (CO2Charts.empty_dict cs = CO2Charts.empty_dict cs') as ->.
    { apply map_eq. intros c. rewrite !lookup_empty_dict.
      by rewrite (bool_decide_ext _ _ (Hsame c)). }
    apply for_each_ext. intros d row. unfold CO2Charts.lese_emissionen_row.
    destruct (row_Entity row) as [c|]; [|done].
    by rewrite (bool_decide_ext _ _ (Hsame c)).
  - intros cs c rows Hc Hreads.
    assert (Forall (co2_row_reads (CountryStr c)) rows) as Hreads1.
    { eapply Forall_impl; [done|]. intros row Hrow c' Hc' ->.
      by apply (Hrow c). }
    do 2 eexists.
    split; [by apply lese_emissionen_fold|].
    split; [by apply lese_emissionen_fold|].
    simpl.
    set (t := foldl write (CO2Charts.empty_dict cs) (omap (emission_entry cs) rows)).
    set (t1 := foldl write (CO2Charts.empty_dict [c]) (omap (emission_entry [c]) rows)).
    assert (c ∈ dom t) as [s Hs]%elem_of_dom.
    { unfold t. rewrite dom_lese_emissionen. by apply elem_of_list_to_set. }
    assert (c ∈ dom t1) as [s1 Hs1]%elem_of_dom.
    { unfold t1. rewrite dom_lese_emissionen. apply elem_of_list_to_set. by left. }
    rewrite Hs, Hs1. f_equal. apply map_eq. intros y.
    assert (entry_at t c y = entry_at t1 c y) as Heq.
    { unfold t, t1. rewrite !entry_at_foldl_write, !entry_at_empty_dict.
      by apply emission_entry_singleton. }
    unfold entry_at in Heq. by rewrite Hs, Hs1 in Heq.
Qed.

(** X6: a country whose series in the emissions table holds at least one
    year is in every listing that [get_available_countries] returns for the
    same source, and the listing is returned when every row of the source has
    its country cell. *)
Theorem X6_data_implies_listed (countries : countries_arg) (rows : list co2_row)
    (t : table float) (c : string) (s : series float) :
  lese_emissionen countries rows = Ok t ->
  t !! c = Some s -> s ≠ ∅ ->
  (forall l, CO2Charts.get_available_countries rows = Ok l -> Some c ∈ l)
  /\ (Forall (fun row => is_Some (row_Entity row)) rows ->
      exists l, CO2Charts.get_available_countries rows = Ok l /\ Some c ∈ l).
Proof.
  intros [Hreads ->]%lese_emissionen_Ok Hs Hne.
  apply map_choose in Hne as (y & v & Hv).
  assert (entry_at (foldl write (CO2Charts.empty_dict (CO2Charts.as_list countries))
                      (omap (emission_entry (CO2Charts.as_list countries)) rows)) c y
          = Some v) as Hentry.
  { unfold entry_at. rewrite Hs. done. }
  rewrite entry_at_foldl_write, entry_at_empty_dict in Hentry.
  apply last_write_Some in Hentry as [Hin|[=]].
  apply elem_of_emission_entries in Hin as (_ & row & Hrow & He & _).
  assert (forall l, CO2Charts.get_available_countries rows = Ok l -> Some c ∈ l)
    as Hlisted.
  { intros l Hl. apply (elem_of_get_available_countries rows l _ Hl). eauto. }
  split; [done|]. intros Hcells.
  destruct (get_available_countries_names rows Hcells) as (l & Hl & _).
  eauto.
Qed.

End ReaderProvenance.

(** ** More on the charts: legends, errors and composition *)

Section ChartFacts.

Variable is_color : string -> bool.

Lemma per_capita_line_inv co2_data p ln :
  per_capita_line is_color co2_data p = Ok ln ->
  line_label ln = p.1 /\ line_color ln = p.2.
Proof.
  unfold per_capita_line.
  intros (d & _ & (ys & _ & [-> _]%new_line_inv)%bind_Ok)%bind_Ok. done.
Qed.

Lemma changes_line_inv co2_data p ln :
  changes_line is_color co2_data p = Ok ln ->
  line_label ln = p.1 /\ line_color ln = p.2.
Proof.
  unfold changes_line.
  intros (d & _ & (ys & _ & (ds & _ & [-> _]%new_line_inv)%bind_Ok)%bind_Ok)%bind_Ok.
  done.
Qed.

Lemma change_change_line_inv co2_data p ln :
  change_change_line is_color co2_data p = Ok ln ->
  line_label ln = p.1 /\ line_color ln = p.2.
Proof.
  unfold change_change_line.
  intros (d & _ & (ys & _ & (ds & _ & (ds2 & _ & [-> _]%new_line_inv)%bind_Ok)
    %bind_Ok)%bind_Ok)%bind_Ok.
  done.
Qed.

Lemma absolute_line_inv co2_data pop_data p ln :
  absolute_line is_color co2_data pop_data p = Ok ln ->
  line_label ln = p.1 /\ line_color ln = p.2.
Proof.
  unfold absolute_line.
  intros (dc & _ & (dp & _ & (ys & _ & [-> _]%new_line_inv)%bind_Ok)%bind_Ok)%bind_Ok.
  done.
Qed.

(** A figure computed line by line: one line per country, with its label and
    its color. *)
Lemma figure_of_selection (mk : string * string -> result line)
    (cc : list (string * string)) fig :
  (forall p ln, mk p = Ok ln -> line_label ln = p.1 /\ line_color ln = p.2) ->
  comprehension mk cc = Ok fig ->
  line_label <$> fig = cc.*1 /\ line_color <$> fig = cc.*2.
Proof.
  intros Hinv Hfig%comprehension_Ok. split.
  - apply Forall2_fmap_eq. eapply Forall2_impl; [done|].
    intros p ln Hmk. by apply Hinv.
  - apply Forall2_fmap_eq. eapply Forall2_impl; [done|].
    intros p ln Hmk. by apply Hinv.
Qed.

Lemma chart_errors {A} (mk : A -> result line) (l : list A) :
  (forall p, p ∈ l ->
     is_Ok (mk p)
     \/ exists e, mk p = Raise e /\ (e = ValueError \/ e = OverflowError)) ->
  is_Ok (comprehension mk l)
  \/ comprehension mk l = Raise ValueError
  \/ comprehension mk l = Raise OverflowError.
Proof.
  intros Hmk.
  destruct (comprehension_errors mk
    (fun e => e = ValueError \/ e = OverflowError) l Hmk)
    as [?|(e & -> & [->| ->])]; auto.
Qed.

Lemma of_float_inj o1 o2 : of_float o1 = of_float o2 -> o1 = o2.
Proof. destruct o1, o2; simpl; congruence. Qed.

(** X7: the per-capita chart returns a figure exactly when the backend
    accepts every line: the color of every selected country of the table is a
    color and the years of its series convert to floats; otherwise it raises
    the [ValueError] or the [OverflowError] of the backend.  The figure has
    one line per selected country that is a key of the table, in selection
    order, labelled with the country and drawn in its color; the years of a
    line ascend, and its points are exactly the entries of the series of the
    country (an absent value is a point with the value [None]). *)
Theorem X7_per_capita_chart (co2_data : table float)
    (countries_colors : list (string * string)) :
  (is_Ok (plot_co2_emission_per_capita is_color co2_data countries_colors) <->
     forall country color d, (country, color) ∈ countries_colors ->
       co2_data !! country = Some d ->
       is_color color = true /\ forall y, is_Some (d !! y) -> fits y)
  /\ (is_Ok (plot_co2_emission_per_capita is_color co2_data countries_colors)
      \/ plot_co2_emission_per_capita is_color co2_data countries_colors
         = Raise ValueError
      \/ plot_co2_emission_per_capita is_color co2_data countries_colors
         = Raise OverflowError)
  /\ (forall fig,
        plot_co2_emission_per_capita is_color co2_data countries_colors = Ok fig ->
        line_label <$> fig = (present co2_data countries_colors).*1
        /\ line_color <$> fig = (present co2_data countries_colors).*2
        /\ Forall2 (fun p ln => exists d, co2_data !! p.1 = Some d
              /\ StronglySorted Z.lt (line_x ln)
              /\ length (line_y ln) = length (line_x ln)
              /\ forall y v, d !! y = Some v <->
                   exists i, line_x ln !! i = Some y
                             /\ line_y ln !! i = Some (of_float v))
            (present co2_data countries_colors) fig).
Proof.
  split; [apply plot_co2_emission_per_capita_is_Ok|].
  rewrite !plot_co2_emission_per_capita_lines. split.
  { apply chart_errors. intros [country color] (d & Hd)%present_key.
    simpl in Hd. rewrite (per_capita_line_spec _ _ _ _ _ Hd).
    apply new_line_errors. }
  intros fig Hfig.
  destruct (figure_of_selection _ _ _ (per_capita_line_inv co2_data) Hfig)
    as [Hlabels Hcolors].
  split; [done|]. split; [done|].
  apply comprehension_Ok in Hfig. eapply Forall2_impl; [done|].
  intros [country color] ln Hln. simpl in Hln.
  assert (exists d, co2_data !! country = Some d) as [d Hd].
  { unfold per_capita_line, getitem in Hln. simpl in Hln.
    destruct (co2_data !! country) as [d|]; [by exists d|done]. }
  rewrite (per_capita_line_spec _ _ _ _ _ Hd) in Hln.
  apply new_line_inv in Hln as [-> _]. exists d. simpl.
  split; [done|]. split; [apply sorted_keys_lt|].
  split; [unfold series_values; by rewrite length_fmap|].
  intros y v. unfold series_values. split.
  - intros Hv.
    assert (y ∈ sorted_keys d) as (i & Hi)%list_elem_of_lookup_1.
    { apply sorted_keys_elem_of. by rewrite Hv. }
    exists i. split; [done|]. rewrite list_lookup_fmap, Hi. simpl.
    unfold dict_get. by rewrite Hv.
  - intros (i & Hi & Hvi). rewrite list_lookup_fmap, Hi in Hvi. simpl in Hvi.
    assert (is_Some (d !! y)) as [v' Hv'].
    { apply sorted_keys_elem_of. by eapply list_elem_of_lookup_2. }
    unfold dict_get in Hvi. rewrite Hv' in Hvi. injection Hvi as Hvi.
    apply of_float_inj in Hvi. by rewrite Hv', Hvi.
Qed.

Lemma absolute_values_is_Ok (co2_data : table float)
    (pop_data : population_table) country dc dp :
  co2_data !! country = Some dc -> pop_data !! Some country = Some dp ->
  is_Ok (comprehension (absolute_value co2_data pop_data country)
           (sorted_int (elements (dom dc ∩ dom dp))))
  <-> forall y e n, dc !! y = Some (Some e) -> dp !! y = Some (Some n) -> fits n.
Proof.
  intros Hdc Hdp. rewrite comprehension_is_Ok, Forall_forall. split.
  - intros Hall y e n He Hn.
    specialize (Hall y). rewrite (absolute_value_series _ _ _ dc dp) in Hall by done.
    rewrite He, Hn in Hall. apply (proj1 (mul_float_int_is_Ok e n)), Hall.
    apply common_years_elem_of. by rewrite He, Hn.
  - intros Hfit y _. rewrite (absolute_value_series _ _ _ dc dp) by done.
    destruct (dc !! y) as [[e|]|] eqn:He, (dp !! y) as [[n|]|] eqn:Hn;
      try by eexists.
    apply (proj2 (mul_float_int_is_Ok e n)). by eapply Hfit.
Qed.

Lemma absolute_line_is_Ok (co2_data : table float)
    (pop_data : population_table) country color dc dp :
  co2_data !! country = Some dc -> pop_data !! Some country = Some dp ->
  is_Ok (absolute_line is_color co2_data pop_data (country, color))
  <-> (forall y e n, dc !! y = Some (Some e) -> dp !! y = Some (Some n) -> fits n)
      /\ is_color color = true
      /\ forall y, is_Some (dc !! y) -> is_Some (dp !! y) -> fits y.
Proof.
  intros Hdc Hdp.
  assert (is_Ok (absolute_line is_color co2_data pop_data (country, color))
          -> forall y e n, dc !! y = Some (Some e) -> dp !! y = Some (Some n) ->
               fits n) as Hpop.
  { intros Hok. apply (absolute_values_is_Ok co2_data pop_data country); [done..|].
    unfold absolute_line, getitem in Hok. simpl in Hok.
    rewrite Hdc, Hdp in Hok. simpl in Hok.
    destruct (comprehension _ _) as [ys|e]; [by eexists|].
    by destruct Hok as [? [=]]. }
  assert ((forall y e n, dc !! y = Some (Some e) -> dp !! y = Some (Some n) ->
             fits n) ->
          is_Ok (absolute_line is_color co2_data pop_data (country, color))
          <-> is_color color = true
              /\ forall y, is_Some (dc !! y) -> is_Some (dp !! y) -> fits y)
    as Hline.
  { intros Hfit.
    destruct (absolute_line_spec is_color co2_data pop_data country color dc dp
                Hdc Hdp Hfit) as (ys & -> & Hlen & Hys & _).
    rewrite new_line_is_Ok, plottable_line, common_years_fits; [done..|].
    eapply Forall_impl; [done|]. apply to_float_float_or_none. }
  split.
  - intros Hok. split; [by apply Hpop|]. by apply Hline; [apply Hpop|].
  - intros (Hfit & Hrest). by apply Hline.
Qed.

Lemma absolute_line_errors (co2_data : table float)
    (pop_data : population_table) country color dc dp :
  co2_data !! country = Some dc -> pop_data !! Some country = Some dp ->
  is_Ok (absolute_line is_color co2_data pop_data (country, color))
  \/ exists e, absolute_line is_color co2_data pop_data (country, color) = Raise e
       /\ (e = ValueError \/ e = OverflowError).
Proof.
  intros Hdc Hdp. unfold absolute_line, getitem. simpl. rewrite Hdc, Hdp. simpl.
  destruct (comprehension_errors (absolute_value co2_data pop_data country)
    (fun e => e = OverflowError) (sorted_int (elements (dom dc ∩ dom dp))))
    as [[ys ->]|(e & -> & ->)].
  - intros y _. rewrite (absolute_value_series _ _ _ dc dp) by done.
    destruct (dc !! y) as [[e|]|], (dp !! y) as [[n|]|];
      try (left; by eexists).
    unfold mul. simpl. destruct (int_to_float_errors n) as [[f ->]| ->]; simpl.
    + left. by eexists.
    + right. eauto.
  - simpl. apply new_line_errors.
  - simpl. right. eauto.
Qed.

(** X10: the absolute chart returns a figure exactly when, for every selected
    country that is a key of both tables, every population that meets a
    present emissions value at the same year converts to a float, the color is
    a color and the common years convert to floats; it raises nothing but the
    [OverflowError] of the product or of the backend and the [ValueError] of
    the backend. *)
Theorem X10_absolute_chart_errors (co2_data : table float)
    (pop_data : population_table) (countries_colors : list (string * string)) :
  (is_Ok (plot_absolut_co2_emissions is_color co2_data pop_data countries_colors)
   <-> forall country color dc dp, (country, color) ∈ countries_colors ->
         co2_data !! country = Some dc -> pop_data !! Some country = Some dp ->
         (forall y e n, dc !! y = Some (Some e) -> dp !! y = Some (Some n) ->
            fits n)
         /\ is_color color = true
         /\ forall y, is_Some (dc !! y) -> is_Some (dp !! y) -> fits y)
  /\ (is_Ok (plot_absolut_co2_emissions is_color co2_data pop_data countries_colors)
      \/ plot_absolut_co2_emissions is_color co2_data pop_data countries_colors
         = Raise ValueError
      \/ plot_absolut_co2_emissions is_color co2_data pop_data countries_colors
         = Raise OverflowError).
Proof.
  rewrite !plot_absolut_co2_emissions_lines. split.
  - apply (chart2_is_Ok co2_data pop_data
             (absolute_line is_color co2_data pop_data) countries_colors
             (fun country color dc dp =>
                (forall y e n, dc !! y = Some (Some e) ->
                   dp !! y = Some (Some n) -> fits n)
                /\ is_color color = true
                /\ forall y, is_Some (dc !! y) -> is_Some (dp !! y) -> fits y)).
    intros country color dc dp Hdc Hdp. by apply absolute_line_is_Ok.
  - apply chart_errors.
    intros [country color] (Hin & dc & dp & Hdc & Hdp)%present2_keys.
    simpl in Hdc, Hdp. by apply (absolute_line_errors _ _ _ _ dc dp).
Qed.

(** X13: each chart function treats the selected countries one by one: the
    figure for two selections put end to end is the figure of the first
    followed by the figure of the second (and, for the first-difference chart,
    the warnings of the first followed by those of the second); an exception
    of the first selection comes first. *)
Theorem X13_selection_concatenation (co2_data : table float)
    (pop_data : population_table) (cc1 cc2 : list (string * string)) :
  plot_co2_emission_per_capita is_color co2_data (cc1 ++ cc2)
    = (f1 ← plot_co2_emission_per_capita is_color co2_data cc1;
       f2 ← plot_co2_emission_per_capita is_color co2_data cc2; Ok (f1 ++ f2))
  /\ plot_absolut_co2_emissions is_color co2_data pop_data (cc1 ++ cc2)
    = (f1 ← plot_absolut_co2_emissions is_color co2_data pop_data cc1;
       f2 ← plot_absolut_co2_emissions is_color co2_data pop_data cc2;
       Ok (f1 ++ f2))
  /\ plot_co2_emission_change_change is_color co2_data (cc1 ++ cc2)
    = (f1 ← plot_co2_emission_change_change is_color co2_data cc1;
       f2 ← plot_co2_emission_change_change is_color co2_data cc2; Ok (f1 ++ f2))
  /\ plot_co2_emission_changes is_color co2_data (cc1 ++ cc2)
    = ('(f1, page1) ← plot_co2_emission_changes is_color co2_data cc1;
       '(f2, page2) ← plot_co2_emission_changes is_color co2_data cc2;
       Ok (f1 ++ f2, page1 ++ page2)).
Proof.
  rewrite !plot_co2_emission_per_capita_lines, !plot_absolut_co2_emissions_lines,
    !plot_co2_emission_change_change_lines, !plot_co2_emission_changes_lines.
  unfold present, present2. rewrite !filter_app, !comprehension_app.
  repeat split; [done..|].
  destruct (comprehension _ (filter _ cc1)) as [l1|]; simpl; [|done].
  destruct (comprehension _ (filter _ cc2)) as [l2|]; simpl; [|done].
  by rewrite fmap_app.
Qed.

Lemma length_filter_split {A} (P : A -> Prop) `{!forall x, Decision (P x)}
    (l : list A) :
  (length (filter P l) + length (filter (fun x => ~ P x) l) = length l)%nat.
Proof.
  induction l as [|x l IH]; [done|].
  destruct (decide (P x)) as [Hx|Hx].
  - rewrite (filter_cons_True P), (filter_cons_False (fun x => ~ P x)) by tauto.
    simpl. lia.
  - rewrite (filter_cons_False P), (filter_cons_True (fun x => ~ P x)) by tauto.
    simpl. lia.
Qed.

(** X14: the first-difference chart returns exactly when the backend accepts
    every line (the color of every selected country of the table is a color
    and the years drawn convert to floats), and otherwise raises the
    [ValueError] or the [OverflowError] of the backend; when it returns it
    accounts for every selected country exactly once, in selection order: a
    country that is a key of the table gets a line with its label and color,
    any other gets a warning on the page. *)
Theorem X14_first_difference_accounts_for_selection (co2_data : table float)
    (countries_colors : list (string * string)) :
  (is_Ok (plot_co2_emission_changes is_color co2_data countries_colors) <->
     forall country color d, (country, color) ∈ countries_colors ->
       co2_data !! country = Some d ->
       is_color color = true /\ Forall fits (drop 1 (sorted_keys d)))
  /\ (is_Ok (plot_co2_emission_changes is_color co2_data countries_colors)
      \/ plot_co2_emission_changes is_color co2_data countries_colors
         = Raise ValueError
      \/ plot_co2_emission_changes is_color co2_data countries_colors
         = Raise OverflowError)
  /\ (forall fig page,
        plot_co2_emission_changes is_color co2_data countries_colors
          = Ok (fig, page) ->
        line_label <$> fig = (present co2_data countries_colors).*1
        /\ line_color <$> fig = (present co2_data countries_colors).*2
        /\ page = (fun p => StWrite warnung p.1)
                    <$> filter (fun p => p.1 ∉ dom co2_data) countries_colors
        /\ (length fig + length page = length countries_colors)%nat).
Proof.
  split; [apply plot_co2_emission_changes_is_Ok|]. split.
  - rewrite plot_co2_emission_changes_lines.
    destruct (chart_errors (changes_line is_color co2_data)
                (present co2_data countries_colors)) as [[lines ->]|[->| ->]];
      [|left; by eexists|auto..].
    intros [country color] (d & Hd)%present_key. simpl in Hd.
    destruct (changes_line_spec is_color _ _ color _ Hd) as (ys & -> & _).
    apply new_line_errors.
  - intros fig page Hfig.
    rewrite plot_co2_emission_changes_lines in Hfig.
    apply bind_Ok in Hfig as (lines & Hlines & [= <- <-]).
    destruct (figure_of_selection _ _ _ (changes_line_inv co2_data) Hlines)
      as [Hlabels Hcolors].
    split; [done|]. split; [done|]. split; [done|].
    rewrite length_fmap, (comprehension_length _ _ _ Hlines). unfold present.
    apply (length_filter_split (fun p : string * string => p.1 ∈ dom co2_data)).
Qed.

Lemma sub_errors a b :
  is_Ok (sub a b)
  \/ exists e, sub a b = Raise e /\ (e = TypeError \/ e = OverflowError).
Proof.
  destruct a as [|x|f], b as [|y|g]; simpl; eauto;
    try (left; by eexists); unfold sub; simpl.
  - destruct (int_to_float_errors x) as [[f ->]| ->]; simpl;
      [left; by eexists|eauto].
  - destruct (int_to_float_errors y) as [[g ->]| ->]; simpl;
      [left; by eexists|eauto].
Qed.

(** X15: the differences of a list never index it out of range: the result
    has one element fewer than the list (none for the empty list), its element
    of index [i] is the element of index [i + 1] of the list minus the element
    of index [i], and the only exceptions are those of the subtraction,
    [TypeError] and [OverflowError]. *)
Theorem X15_differences_bounds (l : list value) :
  (forall ds, differences l = Ok ds ->
     length ds = (length l - 1)%nat
     /\ forall i a b, l !! S i = Some a -> l !! i = Some b ->
          exists v, sub a b = Ok v /\ ds !! i = Some v)
  /\ (is_Ok (differences l) \/ differences l = Raise TypeError
      \/ differences l = Raise OverflowError).
Proof.
  split.
  - intros ds Hds. pose proof (comprehension_length _ _ _ Hds) as Hlen.
    unfold range1 in Hlen. rewrite length_seq in Hlen. split; [done|].
    intros i a b Ha Hb. apply comprehension_Ok in Hds.
    assert (i < length ds)%nat as Hi.
    { apply lookup_lt_Some in Ha. lia. }
    destruct (lookup_lt_is_Some_2 ds i Hi) as [v Hv].
    destruct (Forall2_lookup_r _ _ _ _ _ Hds Hv) as (j & Hj & Hsub).
    unfold range1 in Hj. apply lookup_seq in Hj as [-> _].
    rewrite (differences_step l (1 + i) a b) in Hsub; [eauto|done|].
    by replace (1 + i - 1)%nat with i by lia.
  - destruct (comprehension_errors
      (fun i => a ← index l i; b ← index l (i - 1); sub a b)
      (fun e => e = TypeError \/ e = OverflowError) (range1 (length l)))
      as [?|(e & He & [->| ->])]; [|by left|right; by left|right; by right].
    intros i [Hi1 Hi2]%elem_of_seq.
    destruct (lookup_lt_is_Some_2 l i) as [a Ha]; [lia|].
    destruct (lookup_lt_is_Some_2 l (i - 1)) as [b Hb]; [lia|].
    rewrite (differences_step l i a b Ha Hb). apply sub_errors.
Qed.

End ChartFacts.

(** ** More on [main]: the page it builds *)

Section MainFacts.

Variable py_strip : string -> string.
Variable py_int : string -> option Z.
Variable py_float : string -> option float.
Variable is_color : string -> bool.
Variable color_palette : list string.

Lemma round_robin (cc : list (string * string)) (fig : figure) :
  line_color <$> fig = cc.*2 ->
  (forall i p, cc !! i = Some p ->
     color_palette !! (i mod length color_palette)%nat = Some p.2) ->
  forall i ln, fig !! i = Some ln ->
    color_palette !! (i mod length color_palette)%nat = Some (line_color ln).
Proof.
  intros Hcolors Hcc i ln Hln.
  assert ((line_color <$> fig) !! i = Some (line_color ln)) as Hc.
  { by rewrite list_lookup_fmap, Hln. }
  rewrite Hcolors, list_lookup_fmap in Hc.
  destruct (cc !! i) as [p|] eqn:Hp; [|done].
  injection Hc as <-. by eapply Hcc.
Qed.

(** X11: when [main] returns for a selection that is not empty, the page
    holds the four figures and nothing else (no warning is written); the
    per-capita, first-difference and second-difference figures have exactly
    one line per selected country, in selection order and labelled with the
    country, the line of index [i] being drawn in the color of index
    [i % len(color_palette)]; the absolute figure only has lines of selected
    countries. *)
Theorem X11_main_page (selected_countries : list string)
    (co2_rows : list co2_row) (energy_rows : list energy_row)
    (events : list st_event) :
  selected_countries ≠ [] ->
  main py_strip py_int py_float is_color color_palette selected_countries
    co2_rows energy_rows = Ok events ->
  exists fig1 fig2 fig3 fig4,
    events = [StPyplot fig1; StPyplot fig2; StPyplot fig3; StPyplot fig4]
    /\ line_label <$> fig1 = selected_countries
    /\ line_label <$> fig3 = selected_countries
    /\ line_label <$> fig4 = selected_countries
    /\ (forall fig, fig ∈ [fig1; fig3; fig4] ->
          forall i ln, fig !! i = Some ln ->
            color_palette !! (i mod length color_palette)%nat
            = Some (line_color ln))
    /\ (forall ln, ln ∈ fig2 -> line_label ln ∈ selected_countries).
Proof.
  intros Hsel Hmain.
  destruct (main_Ok _ _ _ _ _ _ _ _ _ Hsel Hmain)
    as (cc & co2_data & pop_data & fig1 & fig2 & fig3 & fig4 & H).
  destruct H as (Hfst & Hcolors & _ & _ & _ & Hfig1 & Hfig2 & Hfig3 & Hfig4 & ->).
  destruct (figure_of_selection _ _ _ (per_capita_line_inv is_color co2_data)
              Hfig1) as [Hl1 Hc1].
  destruct (figure_of_selection _ _ _ (changes_line_inv is_color co2_data)
              Hfig3) as [Hl3 Hc3].
  destruct (figure_of_selection _ _ _ (change_change_line_inv is_color co2_data)
              Hfig4) as [Hl4 Hc4].
  exists fig1, fig2, fig3, fig4.
  split; [done|]. rewrite Hl1, Hl3, Hl4, Hfst. repeat split; [|].
  - intros fig [->|[->|[->|[]%elem_of_nil]%elem_of_cons]%elem_of_cons]%elem_of_cons;
      by apply (round_robin cc).
  - intros ln (k & Hk)%list_elem_of_lookup_1.
    apply comprehension_Ok in Hfig2.
    destruct (Forall2_lookup_r _ _ _ _ _ Hfig2 Hk) as (p & Hp & Hmk).
    apply absolute_line_inv in Hmk as [-> _]. rewrite <- Hfst.
    apply list_elem_of_fmap_2.
    apply list_elem_of_lookup_2, list_elem_of_filter in Hp as [_ Hp]. done.
Qed.

End MainFacts.

(** ** The additional properties on concrete inputs *)

Lemma scenario_energy_rows_read :
  Forall (energy_row_reads PyText.int) Scenario.energy_rows.
Proof.
  unfold Scenario.energy_rows.
  repeat (apply Forall_cons_2;
          [eexists; split; [reflexivity|]; intros _; by eexists|]).
  by apply Forall_nil.
Defined.

Lemma scenario_co2_rows_read countries :
  Forall (co2_row_reads PyText.int countries) Scenario.co2_rows.
Proof.
  unfold Scenario.co2_rows.
  repeat (apply Forall_cons_2;
          [intros c _ _; eexists; split; [reflexivity|]; intros _; by eexists|]).
  by apply Forall_nil.
Defined.

Lemma X1_lese_energy_witness :
  exists t,
    CO2Charts.lese_energy PyText.strip PyText.int Scenario.energy_rows = Ok t
    /\ forall c s, t !! c = Some s -> exists y, is_Some (s !! y).
Proof.
  destruct (X1_lese_energy_provenance PyText.strip PyText.int
              Scenario.energy_rows scenario_energy_rows_read)
    as (t & Ht & _ & Hne & _).
  exists t. split; [exact Ht|exact Hne].
Defined.

Lemma X2_lese_emissionen_witness :
  exists t,
    CO2Charts.lese_emissionen PyText.strip PyText.int PyText.float
      (CountryList ["Poland"; "Atlantis"]) Scenario.co2_rows = Ok t
    /\ forall c, t !! c = Some ∅ <->
         requested (CountryList ["Poland"; "Atlantis"]) c
         /\ forall row, row ∈ Scenario.co2_rows -> row_Entity row = Some c ->
              CO2Charts.int_of_cell PyText.int (row_Year row) = Ok None.
Proof.
  destruct (X2_lese_emissionen_provenance PyText.strip PyText.int PyText.float
              (CountryList ["Poland"; "Atlantis"]) Scenario.co2_rows
              (scenario_co2_rows_read _))
    as (t & Ht & _ & _ & Hempty).
  exists t. split; [exact Ht|exact Hempty].
Defined.

Lemma X4_row_order_witness :
  CO2Charts.lese_energy PyText.strip PyText.int (reverse Scenario.energy_rows)
  = CO2Charts.lese_energy PyText.strip PyText.int Scenario.energy_rows.
Proof.
  destruct (X4_row_order_irrelevant_without_duplicates PyText.strip PyText.int
              PyText.float) as [Hpop _].
  apply Hpop.
  - exact scenario_energy_rows_read.
  - change (NoDup [(Some "Poland", 2019); (Some "Poland", 2020)]).
    apply NoDup_cons. split; [|apply NoDup_singleton].
    intros Hin%list_elem_of_singleton. discriminate.
  - apply perm_swap.
Defined.

Lemma X5_requested_countries_witness :
  CO2Charts.lese_emissionen PyText.strip PyText.int PyText.float
    (CountryList ["Poland"; "Atlantis"; "Poland"]) Scenario.co2_rows
  = CO2Charts.lese_emissionen PyText.strip PyText.int PyText.float
      (CountryList ["Atlantis"; "Poland"]) Scenario.co2_rows
  /\ exists t t1,
       CO2Charts.lese_emissionen PyText.strip PyText.int PyText.float
         (CountryList ["Atlantis"; "Poland"]) Scenario.co2_rows = Ok t
       /\ CO2Charts.lese_emissionen PyText.strip PyText.int PyText.float
            (CountryStr "Poland") Scenario.co2_rows = Ok t1
       /\ t !! "Poland" = t1 !! "Poland".
Proof.
  destruct (X5_requested_countries PyText.strip PyText.int PyText.float)
    as [Hset Hone].
  split.
  - apply Hset. intros c. rewrite !elem_of_cons. tauto.
  - apply Hone; [right; left|apply scenario_co2_rows_read].
Defined.

Lemma X6_data_implies_listed_witness :
  exists l, CO2Charts.get_available_countries Scenario.co2_rows = Ok l
    /\ Some "Poland" ∈ l.
Proof.
  destruct (X6_data_implies_listed PyText.strip PyText.int PyText.float
              (CountryList ["Poland"]) Scenario.co2_rows Scenario.co2_data "Poland"
              {[ 2019 := Some 8.5%float; 2020 := None ]}) as [_ Hlisted].
  - vm_compute. reflexivity.
  - vm_compute. reflexivity.
  - apply insert_non_empty.
  - apply Hlisted. repeat constructor; by eexists.
Defined.

Lemma X9_second_difference_witness :
  exists fig,
    plot_co2_emission_change_change PyText.cycle_color Scenario.full_data
      Scenario.poland = Ok fig
    /\ Forall2 (fun p ln => line_x ln = [2021]) Scenario.poland fig.
Proof.
  assert (forall d, Scenario.full_data !! "Poland" = Some d ->
            d = {[ 2019 := Some 8.5%float; 2020 := Some 8%float;
                   2021 := Some 7%float ]}) as Hseries.
  { intros d Hd. unfold Scenario.full_data in Hd.
    by apply lookup_singleton_Some in Hd as [_ <-]. }
  assert (forall country color, (country, color) ∈ Scenario.poland ->
            country = "Poland" /\ color = "C0") as Hsel.
  { intros country color Hin. apply list_elem_of_singleton in Hin.
    by injection Hin as -> ->. }
  destruct (plot_co2_emission_change_change_present PyText.cycle_color
              Scenario.full_data Scenario.poland) as (fig & Hfig & Hrel).
  - intros country color d y v [-> ->]%Hsel ->%Hseries Hv.
    apply lookup_insert_Some in Hv as [[_ <-]|[_ Hv]]; [by eexists|].
    apply lookup_insert_Some in Hv as [[_ <-]|[_ Hv]]; [by eexists|].
    apply lookup_singleton_Some in Hv as [_ <-]. by eexists.
  - intros country color d [-> ->]%Hsel ->%Hseries. split; [reflexivity|].
    change (Forall fits [2021]). repeat constructor. by eexists.
  - exists fig. split; [exact Hfig|].
    eapply Forall2_impl; [exact Hrel|].
    intros p ln (d & Hd & _ & _ & Hx & _).
    unfold Scenario.full_data in Hd. destruct p as [country color].
    apply lookup_singleton_Some in Hd as [_ <-]. rewrite Hx.
    vm_compute. reflexivity.
Defined.

Lemma X11_main_page_witness :
  exists events fig1 fig2 fig3 fig4,
    main PyText.strip PyText.int PyText.float PyText.cycle_color ["C0"; "C1"]
      ["Malaysia"; "Poland"] Scenario.atlantis_rows Scenario.energy_rows
      = Ok events
    /\ events = [StPyplot fig1; StPyplot fig2; StPyplot fig3; StPyplot fig4]
    /\ line_label <$> fig1 = ["Malaysia"; "Poland"]
    /\ line_label <$> fig3 = ["Malaysia"; "Poland"]
    /\ line_label <$> fig4 = ["Malaysia"; "Poland"].
Proof.
  assert (exists events,
    main PyText.strip PyText.int PyText.float PyText.cycle_color ["C0"; "C1"]
      ["Malaysia"; "Poland"] Scenario.atlantis_rows Scenario.energy_rows
      = Ok events) as [events Hev].
  { eexists. vm_compute. reflexivity. }
  destruct (X11_main_page PyText.strip PyText.int PyText.float
              PyText.cycle_color ["C0"; "C1"] ["Malaysia"; "Poland"]
              Scenario.atlantis_rows Scenario.energy_rows events)
    as (fig1 & fig2 & fig3 & fig4 & H0 & H1 & H3 & H4 & _).
  - discriminate.
  - exact Hev.
  - exists events, fig1, fig2, fig3, fig4. auto.
Defined.
